(** * talktodata: the query orchestration pipeline

    A shallow embedding of
      - backend/app/services/query_service.py             (QueryService)
      - backend/app/services/langchain/chains/text_to_sql_chain.py
                                                          (TextToSQLChain)
      - backend/app/services/bigquery/bigquery_service.py (BigQueryService)
    together with the statements of the pipeline's documented properties.

    Conventions.
      - Python [str] is [string]; the program's own literals are ASCII and the
        text primitives below act on ASCII letters and ASCII white space.
      - Python [int] is [Z]; [len] is [String.length] / [List.length].
      - [None] is [None]; a dict with a fixed key set is a record.
      - Effects (database session, warehouse, language model, clock) are
        threaded through an explicit world by a state-and-exception monad.
        The language model, the warehouse and the store's answer to a commit
        are parameters of a run.
      - The clock counts milliseconds and moves when an external call
        takes time; no statement below depends on it. *)

From Stdlib Require Import String Ascii List ZArith Lia Bool Arith.
From Stdlib Require Import Permutation Sorted DecimalString.
Import ListNotations.
Local Open Scope list_scope.
Local Open Scope string_scope.

(* ================================================================== *)
(** ** Python text primitives *)
(* ================================================================== *)

Module PyStr.

(** The line feed of the program's multi-line literals and f-strings. *)
Definition nl : string := String (ascii_of_nat 10) EmptyString.

(** [c.upper()] on one character: ASCII lower-case letters move to upper
    case, everything else stays. *)
Definition upper_char (c : ascii) : ascii :=
  let n := nat_of_ascii c in
  if (97 <=? n)%nat && (n <=? 122)%nat then ascii_of_nat (n - 32) else c.

(** [s.upper()] *)
Fixpoint upper (s : string) : string :=
  match s with
  | EmptyString => EmptyString
  | String c s' => String (upper_char c) (upper s')
  end.

(** [s.startswith(p)] *)
Fixpoint startswith (p s : string) : bool :=
  match p, s with
  | EmptyString, _ => true
  | String _ _, EmptyString => false
  | String a p', String b s' => Ascii.eqb a b && startswith p' s'
  end.

(** [kw in s]: the substring test. *)
Fixpoint str_in (kw s : string) : bool :=
  startswith kw s ||
  match s with
  | EmptyString => false
  | String _ s' => str_in kw s'
  end.

(** [s.replace(old, new)] for a non-empty [old]: leftmost, non-overlapping
    occurrences, scanned left to right.  [skip] counts the characters of
    the occurrence just matched that are still to be passed over. *)
Fixpoint replace_from (old new : string) (skip : nat) (s : string) : string :=
  match s with
  | EmptyString => EmptyString
  | String c s' =>
      match skip with
      | S k => replace_from old new k s'
      | O =>
          if startswith old s
          then new ++ replace_from old new (String.length old - 1) s'
          else String c (replace_from old new 0 s')
      end
  end.

Definition replace (old new s : string) : string := replace_from old new 0 s.

(** [c.isspace()] on ASCII: TAB, LF, VT, FF, CR, FS, GS, RS, US, space. *)
Definition is_space (c : ascii) : bool :=
  let n := nat_of_ascii c in
  ((9 <=? n)%nat && (n <=? 13)%nat) || ((28 <=? n)%nat && (n <=? 32)%nat).

Fixpoint lstrip (s : string) : string :=
  match s with
  | EmptyString => EmptyString
  | String c s' => if is_space c then lstrip s' else s
  end.

Fixpoint rstrip (s : string) : string :=
  match s with
  | EmptyString => EmptyString
  | String c s' =>
      match rstrip s' with
      | EmptyString => if is_space c then EmptyString else String c EmptyString
      | r => String c r
      end
  end.

(** [s.strip()] *)
Definition strip (s : string) : string := rstrip (lstrip s).

(** [s[:n]] *)
Definition take (n : nat) (s : string) : string := substring 0 n s.

(** [sep.join(parts)] *)
Definition join (sep : string) (parts : list string) : string :=
  String.concat sep parts.

(** [str(n)] for an integer. *)
Definition str_of_Z (z : Z) : string := NilZero.string_of_int (Z.to_int z).

(** Truthiness of a [str] and of an [Optional[str]]. *)
Definition truthy (s : string) : bool := negb (String.eqb s "").
Definition truthy_opt (o : option string) : bool :=
  match o with Some s => truthy s | None => false end.

(** [x in s] for one character. *)
Fixpoint has_char (x : ascii) (s : string) : bool :=
  match s with
  | EmptyString => false
  | String c s' => Ascii.eqb x c || has_char x s'
  end.

End PyStr.
Import PyStr.

(* ================================================================== *)
(** ** Data model (app/models) *)
(* ================================================================== *)

(** [GlobalInstruction] (models/memory.py) *)
Record GlobalInstruction := mkGlobalInstruction {
  gi_instruction_text : string;
  gi_priority : Z;
  gi_active : bool
}.

(** [ProjectMemory] (models/memory.py) *)
Record ProjectMemory := mkProjectMemory {
  pm_project_id : string;
  pm_key : string;
  pm_content : string
}.

(** [ProjectInstruction] (models/memory.py) *)
Record ProjectInstruction := mkProjectInstruction {
  pi_project_id : string;
  pi_instruction_text : string;
  pi_priority : Z;
  pi_active : bool
}.

(** One column dict of a cached table; [.get("name", "unknown")] reads it. *)
Record CacheColumn := mkCacheColumn {
  cc_name : option string;
  cc_type : option string
}.

(** One [table_info] dict of [Project.schema_cache]; the ["columns"] key may
    be absent. *)
Record TableInfo := mkTableInfo {
  ti_columns : option (list CacheColumn)
}.

(** [Project] (models/project.py), the columns the pipeline reads.  The
    schema cache is a dict whose iteration order matters for rendering, so
    it is an association list. *)
Record Project := mkProject {
  p_id : string;
  p_bigquery_project_id : string;
  p_bigquery_dataset : string;
  p_credentials_encrypted : option string;
  p_schema_cache : option (list (string * TableInfo))
}.

(** Modelled from the spec: models/conversation.py is not among the sources;
    a ConversationTurn is [{conversation_id, role, content, tokens_used,
    created_at}], append-only.  The [messages] table below is kept in
    [created_at] order, which for an append-only table is insertion order. *)
Record Message := mkMessage {
  m_conversation_id : string;
  m_role : string;
  m_content : string;
  m_tokens_used : Z
}.

(** Modelled from the spec: models/conversation.py is not among the sources;
    the pipeline reads a conversation's [id] and reads and writes its
    [title]. *)
Record Conversation := mkConversation {
  c_id : string;
  c_title : option string
}.

(** [QueryLog] (models/query_log.py): the audit record.  The columns the
    pipeline never assigns ([langchain_trace_id], [created_at]) are left
    out. *)
Record QueryLog := mkQueryLog {
  ql_id : nat;
  ql_user_id : string;
  ql_project_id : string;
  ql_conversation_id : option string;
  ql_user_question : string;
  ql_generated_sql : option string;
  ql_sql_generation_time_ms : option Z;
  ql_sql_tokens_used : option Z;
  ql_execution_status : option string;
  ql_execution_time_ms : option Z;
  ql_rows_returned : option Z;
  ql_bytes_processed : option Z;
  ql_error_message : option string;
  ql_error_type : option string;
  ql_model_used : string;
  ql_ip_address : option string;
  ql_user_agent : option string
}.

(** The rows of the backing store. *)
Record Database := mkDatabase {
  global_instructions : list GlobalInstruction;
  project_memory : list ProjectMemory;
  project_instructions : list ProjectInstruction;
  projects : list Project;
  conversations : list Conversation;
  messages : list Message;
  query_logs : list QueryLog
}.

(** A raised Python exception: [type(e).__name__] and [str(e)]. *)
Record Exn := mkExn {
  exn_type : string;
  exn_msg : string
}.

Definition Exception (msg : string) : Exn := mkExn "Exception" msg.
Definition ValueError (msg : string) : Exn := mkExn "ValueError" msg.

(** The SQLAlchemy session ([self.db]), an external library, by its
    documented contract.  [add] registers a new object and [commit] flushes
    what is registered.  Objects are tracked by identity: adding the audit
    record a second time, after it was mutated, keeps one pending record in
    its latest state.  When a flush fails the transaction is rolled back,
    what was pending is dropped, and the session stays inactive: every later
    [commit] raises [PendingRollbackError] until [rollback()] is called,
    which the pipeline never does. *)
Record Session := mkSession {
  new_logs : list QueryLog;
  new_messages : list Message;
  dirty_titles : list (string * string);
  inactive : bool
}.

Definition empty_session : Session := mkSession [] [] [] false.

(** What the language model answers to one prompt. *)
Inductive LlmReply :=
| LlmContent (content : string) (elapsed_ms : Z)
| LlmError (e : Exn) (elapsed_ms : Z).

(** One row and one schema field of a warehouse result. *)
Definition Row := list (string * string).
Record SchemaField := mkSchemaField {
  sf_name : string;
  sf_type : string
}.

(** What the warehouse answers to one query job. *)
Inductive WarehouseReply :=
| WhResult (rows : list Row) (fields : list SchemaField)
           (total_bytes_processed : option Z) (elapsed_ms : Z)
| WhError (e : Exn) (elapsed_ms : Z).

(** The external collaborators of one invocation. *)
Record Env := mkEnv {
  llm : string -> string -> LlmReply;          (* model, prompt *)
  make_client : string -> option Exn;          (* credentials JSON *)
  warehouse : string -> WarehouseReply         (* SQL *)
}.

(** The mutable world an invocation runs in: the committed rows, the
    session, the clock, the supply of fresh ids, the traces of the calls to
    the language model and to the warehouse, and the answers the store has
    in stock for the coming commits ([Some e] refuses one with [e]; when the
    stock is used up every commit goes through). *)
Record World := mkWorld {
  db : Database;
  session : Session;
  clock_ms : Z;
  next_uuid : nat;
  llm_calls : list string;
  warehouse_calls : list string;
  commit_faults : list (option Exn)
}.

(* ================================================================== *)
(** ** State and exceptions *)
(* ================================================================== *)

Inductive Outcome (A : Type) :=
| Return (a : A)
| Raise (e : Exn).
Arguments Return {A} a.
Arguments Raise {A} e.

Definition M (S A : Type) : Type := S -> Outcome A * S.

Definition ret {S A} (a : A) : M S A := fun s => (Return a, s).

Definition bind {S A B} (m : M S A) (k : A -> M S B) : M S B :=
  fun s => match m s with
           | (Return a, s') => k a s'
           | (Raise e, s') => (Raise e, s')
           end.

Definition raise {S A} (e : Exn) : M S A := fun s => (Raise e, s).

(** [try: m except Exception as e: h e] *)
Definition try_except {S A} (m : M S A) (h : Exn -> M S A) : M S A :=
  fun s => match m s with
           | (Return a, s') => (Return a, s')
           | (Raise e, s') => h e s'
           end.

Definition get {S} : M S S := fun s => (Return s, s).
Definition modify {S} (f : S -> S) : M S unit := fun s => (Return tt, f s).

(** A block with one mutable local object of type [L] next to the world. *)
Definition lift {L A} (m : M World A) : M (World * L) A :=
  fun s => let '(r, w') := m (fst s) in (r, (w', snd s)).

Definition get_local {L} : M (World * L) L := fun s => (Return (snd s), s).

Definition set_local {L} (f : L -> L) : M (World * L) unit :=
  fun s => (Return tt, (fst s, f (snd s))).

Definition with_local {L A} (l0 : L) (m : M (World * L) A) : M World A :=
  fun w => let '(r, s') := m (w, l0) in (r, fst s').

Declare Scope monad_scope.
Delimit Scope monad_scope with monad.
Notation "x <- c ;; k" := (bind c (fun x => k))
  (at level 61, c at next level, right associativity) : monad_scope.
Notation "c ;;; k" := (bind c (fun _ => k))
  (at level 61, right associativity) : monad_scope.
Local Open Scope monad_scope.

(* ================================================================== *)
(** ** The database session and the clock *)
(* ================================================================== *)

Definition set_session (f : Session -> Session) (w : World) : World :=
  mkWorld (db w) (f (session w)) (clock_ms w) (next_uuid w)
          (llm_calls w) (warehouse_calls w) (commit_faults w).

Definition advance_clock (d : Z) (w : World) : World :=
  mkWorld (db w) (session w) (clock_ms w + d) (next_uuid w)
          (llm_calls w) (warehouse_calls w) (commit_faults w).

(** The traces of the calls that left the process. *)
Definition record_llm_call (prompt : string) (w : World) : World :=
  mkWorld (db w) (session w) (clock_ms w) (next_uuid w)
          (llm_calls w ++ [prompt])%list (warehouse_calls w) (commit_faults w).

Definition record_warehouse_call (sql : string) (w : World) : World :=
  mkWorld (db w) (session w) (clock_ms w) (next_uuid w)
          (llm_calls w) (warehouse_calls w ++ [sql])%list (commit_faults w).

(** [time.time()], in milliseconds. *)
Definition time_ms : M World Z := fun w => (Return (clock_ms w), w).

(** [uuid4()] *)
Definition uuid4 : M World nat :=
  fun w => (Return (next_uuid w),
            mkWorld (db w) (session w) (clock_ms w) (S (next_uuid w))
                    (llm_calls w) (warehouse_calls w) (commit_faults w)).

(** [self.db.add(log_entry)]: one pending record per object identity. *)
Definition add_log (l : QueryLog) (s : Session) : Session :=
  mkSession
    (filter (fun l' => negb (Nat.eqb (ql_id l') (ql_id l))) (new_logs s) ++ [l])%list
    (new_messages s) (dirty_titles s) (inactive s).

Definition db_add_log (l : QueryLog) : M World unit :=
  modify (set_session (add_log l)).

(** [self.db.add(message)] *)
Definition db_add_message (m : Message) : M World unit :=
  modify (set_session (fun s =>
    mkSession (new_logs s) (new_messages s ++ [m])%list (dirty_titles s)
              (inactive s))).

(** [self.db.query(Conversation).filter(Conversation.id == cid).first()] *)
Definition query_conversation (cid : string) : M World (option Conversation) :=
  fun w => (Return (find (fun c => String.eqb (c_id c) cid)
                         (conversations (db w))), w).

(** [conversation.title = t] on a persistent object: written at commit. *)
Definition set_conversation_title (cid t : string) : M World unit :=
  modify (set_session (fun s =>
    mkSession (new_logs s) (new_messages s) (dirty_titles s ++ [(cid, t)])%list
              (inactive s))).

Definition apply_title (ct : string * string) (cs : list Conversation)
  : list Conversation :=
  map (fun c => if String.eqb (c_id c) (fst ct)
                then mkConversation (c_id c) (Some (snd ct)) else c) cs.

(** What a successful flush writes. *)
Definition flush (s : Session) (d : Database) : Database :=
  mkDatabase (global_instructions d) (project_memory d)
             (project_instructions d) (projects d)
             (fold_left (fun cs ct => apply_title ct cs) (dirty_titles s)
                        (conversations d))
             (messages d ++ new_messages s)%list
             (query_logs d ++ new_logs s)%list.

Definition PendingRollbackError : Exn :=
  mkExn "PendingRollbackError"
        "This Session's transaction has been rolled back due to a previous exception during flush.".

(** The fault, if any, that the store answers the next commit with. *)
Definition next_commit_fault (w : World) : option Exn :=
  match commit_faults w with
  | Some e :: _ => Some e
  | _ => None
  end.

(** The world after a commit that went through, and after one that failed:
    the failed transaction is rolled back, what was pending is dropped and
    the session is left inactive. *)
Definition committed (w : World) : World :=
  mkWorld (flush (session w) (db w)) empty_session (clock_ms w) (next_uuid w)
          (llm_calls w) (warehouse_calls w) (tl (commit_faults w)).

Definition rolled_back (w : World) : World :=
  mkWorld (db w) (mkSession [] [] [] true) (clock_ms w) (next_uuid w)
          (llm_calls w) (warehouse_calls w) (tl (commit_faults w)).

(** [self.db.commit()] *)
Definition db_commit : M World unit :=
  fun w =>
    if inactive (session w) then (Raise PendingRollbackError, w)
    else match next_commit_fault w with
         | Some e => (Raise e, rolled_back w)
         | None => (Return tt, committed w)
         end.

(** [.order_by(priority)]: ascending, rows of equal priority in table
    order. *)
Fixpoint insert_by {A} (key : A -> Z) (x : A) (l : list A) : list A :=
  match l with
  | [] => [x]
  | y :: l' => if (key x <=? key y)%Z then x :: l else y :: insert_by key x l'
  end.

Definition order_by {A} (key : A -> Z) (l : list A) : list A :=
  fold_right (insert_by key) [] l.

(* ================================================================== *)
(** ** TextToSQLChain (text_to_sql_chain.py) *)
(* ================================================================== *)

Module TextToSQLChain.

(** The fields of [self] the methods read. *)
Record t := mk {
  project_id : string;
  user_id : string;
  conversation_id : option string;
  model : string
}.

Definition fallback_global_rules : string :=
"- Always use LIMIT clause for safety
- Never use DROP, DELETE, or UPDATE statements
- Use BigQuery standard SQL syntax
- Optimize queries for cost (avoid SELECT *, use partitions when available)".

Definition active_global_instructions (d : Database) : list GlobalInstruction :=
  order_by gi_priority (filter gi_active (global_instructions d)).

Definition _load_global_memory (d : Database) : string :=
  match active_global_instructions d with
  | [] => fallback_global_rules
  | instructions =>
      join nl (map (fun inst => "- " ++ gi_instruction_text inst) instructions)
  end.

Definition project_rules (self : t) (d : Database) : list ProjectMemory :=
  filter (fun r => String.eqb (pm_project_id r) (project_id self))
         (project_memory d).

Definition active_project_instructions (self : t) (d : Database)
  : list ProjectInstruction :=
  order_by pi_priority
    (filter pi_active
       (filter (fun i => String.eqb (pi_project_id i) (project_id self))
               (project_instructions d))).

Definition rules_section (rules : list ProjectMemory) : string :=
  match rules with
  | [] => ""
  | _ =>
      "BUSINESS RULES & DOMAIN KNOWLEDGE:" ++ nl
      ++ fold_left (fun acc rule =>
                      acc ++ "- " ++ pm_key rule ++ ": " ++ pm_content rule ++ nl)
                   rules ""
      ++ nl
  end.

Definition instructions_section (instructions : list ProjectInstruction)
  : string :=
  match instructions with
  | [] => ""
  | _ =>
      "PROJECT-SPECIFIC INSTRUCTIONS:" ++ nl
      ++ fold_left (fun acc inst => acc ++ "- " ++ pi_instruction_text inst ++ nl)
                   instructions ""
  end.

Definition no_rules_sentinel : string := "No project-specific rules defined.".

Definition _load_project_memory (self : t) (d : Database) : string :=
  let rules := project_rules self d in
  let instructions := active_project_instructions self d in
  let memory_text := rules_section rules ++ instructions_section instructions in
  if truthy memory_text then memory_text else no_rules_sentinel.

(** The last five turns, oldest first. *)
Definition recent_messages (cid : string) (d : Database) : list Message :=
  rev (firstn 5 (rev (filter (fun m => String.eqb (m_conversation_id m) cid)
                             (messages d)))).

Definition _load_conversation_history (self : t) (d : Database) : string :=
  match conversation_id self with
  | None => ""
  | Some cid =>
      if negb (truthy cid) then ""
      else match recent_messages cid d with
           | [] => ""
           | msgs =>
               fold_left (fun acc msg =>
                            acc ++ upper (m_role msg) ++ ": "
                                ++ take 200 (m_content msg) ++ nl)
                         msgs ("RECENT CONVERSATION HISTORY:" ++ nl)
           end
  end.

Definition get_or (o : option string) (dflt : string) : string :=
  match o with Some v => v | None => dflt end.

Definition render_table (p : Project) (acc : string)
  (entry : string * TableInfo) : string :=
  let acc1 := acc ++ "Table: " ++ p_bigquery_project_id p ++ "."
                  ++ p_bigquery_dataset p ++ "." ++ fst entry ++ nl in
  let acc2 :=
    match ti_columns (snd entry) with
    | None => acc1
    | Some cols =>
        fold_left (fun a col =>
                     a ++ "  - " ++ get_or (cc_name col) "unknown"
                       ++ " (" ++ get_or (cc_type col) "unknown" ++ ")" ++ nl)
                  cols (acc1 ++ "Columns:" ++ nl)
    end in
  acc2 ++ nl.

Definition no_schema_message : string :=
  "No schema available. Please configure BigQuery connection first.".

Definition _get_schema_context (self : t) (d : Database) : string :=
  match find (fun p => String.eqb (p_id p) (project_id self)) (projects d) with
  | None => no_schema_message
  | Some project =>
      match p_schema_cache project with
      | None | Some [] => no_schema_message
      | Some cache =>
          fold_left (render_table project) cache
                    ("AVAILABLE TABLES AND SCHEMA:" ++ nl ++ nl)
      end
  end.

(** The [template] literal of [generate_sql]. *)
Definition template : string :=
"You are a SQL expert specializing in Google BigQuery.
Your task is to generate precise BigQuery SQL based on the user's question.

GLOBAL RULES (ALWAYS FOLLOW):
{global_memory}

{project_memory}

{schema}

{conversation_history}

IMPORTANT FORMATTING RULES:
- Return ONLY the SQL query, nothing else
- Do NOT wrap the query in ```sql``` or any markdown
- Use proper BigQuery syntax (not MySQL or PostgreSQL)
- Always use fully qualified table names (project.dataset.table)
- Include appropriate LIMIT clause (default: LIMIT 100)
- Optimize for performance and cost

USER QUESTION: {question}

SQL:".

Definition tpl_head : string :=
"You are a SQL expert specializing in Google BigQuery.
Your task is to generate precise BigQuery SQL based on the user's question.

GLOBAL RULES (ALWAYS FOLLOW):
".

Definition tpl_after_global : string :=
"

".

Definition tpl_after_project : string :=
"

".

Definition tpl_after_schema : string :=
"

".

Definition tpl_after_history : string :=
"

IMPORTANT FORMATTING RULES:
- Return ONLY the SQL query, nothing else
- Do NOT wrap the query in ```sql``` or any markdown
- Use proper BigQuery syntax (not MySQL or PostgreSQL)
- Always use fully qualified table names (project.dataset.table)
- Include appropriate LIMIT clause (default: LIMIT 100)
- Optimize for performance and cost

USER QUESTION: ".

Definition tpl_tail : string :=
"

SQL:".


(** [PromptTemplate.format]: every placeholder of [template] replaced by
    its value. *)
Definition format_prompt (global_memory project_memory schema conversation_history
                   question : string) : string :=
  tpl_head ++ global_memory ++ tpl_after_global ++ project_memory
    ++ tpl_after_project ++ schema ++ tpl_after_schema
    ++ conversation_history ++ tpl_after_history ++ question ++ tpl_tail.

(** Post-processing of the model's answer: [result.content.strip()] and the
    removal of markdown code fences. *)
Definition extract_sql (content : string) : string :=
  let sql := strip content in
  if startswith "```sql" sql then
    strip (replace "```" "" (replace "```sql" "" sql))
  else if startswith "```" sql then
    strip (replace "```" "" sql)
  else sql.

(** The dict [generate_sql] returns. *)
Record SqlResult := mkSqlResult {
  sr_sql : string;
  sr_tokens_used : Z;
  sr_generation_time_ms : Z
}.

(** [chain.ainvoke(...)]: one call to the language model. *)
Definition ainvoke (env : Env) (self : t) (prompt : string) : M World string :=
  fun w =>
    match llm env (model self) prompt with
    | LlmContent c d => (Return c, advance_clock d (record_llm_call prompt w))
    | LlmError e d => (Raise e, advance_clock d (record_llm_call prompt w))
    end.

(** The context blocks of the three-tier memory, substituted into the
    template. *)
Definition build_prompt (self : t) (d : Database) (user_question : string)
  : string :=
  let global_memory := _load_global_memory d in
  let project_memory := _load_project_memory self d in
  let conversation_history := _load_conversation_history self d in
  let schema := _get_schema_context self d in
  format_prompt global_memory project_memory schema conversation_history
                user_question.

Definition generate_sql (env : Env) (self : t) (user_question : string)
  : M World SqlResult :=
  start_time <- time_ms ;;
  w <- get ;;
  try_except
    (content <- ainvoke env self (build_prompt self (db w) user_question) ;;
     let sql := extract_sql content in
     end_time <- time_ms ;;
     let total_chars :=
       (String.length template + String.length user_question
        + String.length sql)%nat in
     let tokens_used := (Z.of_nat total_chars / 4)%Z in
     ret (mkSqlResult sql tokens_used (end_time - start_time)%Z))
    (fun e => raise (Exception ("SQL generation failed: " ++ exn_msg e))).

End TextToSQLChain.

(* ================================================================== *)
(** ** BigQueryService (bigquery_service.py) *)
(* ================================================================== *)

Module BigQueryService.

(** The dict [execute_query] returns. *)
Record QueryResult := mkQueryResult {
  rows : list Row;
  schema : list SchemaField;
  rows_returned : Z;
  execution_time_ms : Z;
  bytes_processed : Z
}.

(** [_get_client] on a fresh service: the project's credentials are looked
    up and turned into a client. *)
Definition _get_client (env : Env) (project_id : string) : M World unit :=
  fun w =>
    match find (fun p => String.eqb (p_id p) project_id) (projects (db w)) with
    | None =>
        (Raise (ValueError "BigQuery credentials not configured for this project"), w)
    | Some project =>
        match p_credentials_encrypted project with
        | None =>
            (Raise (ValueError "BigQuery credentials not configured for this project"), w)
        | Some creds =>
            if negb (truthy creds) then
              (Raise (ValueError "BigQuery credentials not configured for this project"), w)
            else match make_client env creds with
                 | Some e => (Raise e, w)
                 | None => (Return tt, w)
                 end
        end
    end.

(** [client.query(sql, ...)] followed by [query_job.result()]: the one place
    where the warehouse is called. *)
Definition client_query (env : Env) (sql : string) : M World WarehouseReply :=
  fun w =>
    match warehouse env sql with
    | WhResult r f b d =>
        (Return (WhResult r f b d), advance_clock d (record_warehouse_call sql w))
    | WhError e d => (Raise e, advance_clock d (record_warehouse_call sql w))
    end.

Definition execute_query (env : Env) (project_id : string) (sql : string)
  : M World QueryResult :=
  start_time <- time_ms ;;
  try_except
    (_get_client env project_id ;;;
     reply <- client_query env sql ;;
     match reply with
     | WhResult rs fields total_bytes _ =>
         end_time <- time_ms ;;
         ret (mkQueryResult rs fields (Z.of_nat (List.length rs))
                            (end_time - start_time)%Z
                            (match total_bytes with
                             | Some b => b
                             | None => 0%Z
                             end))
     | WhError e _ => raise e
     end)
    (fun e => raise (Exception ("Query execution failed: " ++ exn_msg e))).

End BigQueryService.

(* ================================================================== *)
(** ** QueryService (query_service.py) *)
(* ================================================================== *)

Module QueryService.

Import BigQueryService.

Definition forbidden_keywords : list string :=
  ["DROP"; "DELETE"; "TRUNCATE"; "ALTER"; "CREATE"; "UPDATE"].

Definition _is_dangerous_sql (sql : string) : bool :=
  let sql_upper := upper sql in
  existsb (fun keyword => str_in keyword sql_upper) forbidden_keywords.

Definition _generate_basic_insights (result : QueryResult) : string :=
  let rows_count := rows_returned result in
  if (rows_count =? 0)%Z then "No results found for your query."
  else "Query returned " ++ str_of_Z rows_count ++ " row(s). ".

(** A chart suggestion dict. *)
Record Chart := mkChart {
  chart_type : string;
  chart_title : string
}.

Definition str_mem (s : string) (l : list string) : bool :=
  existsb (String.eqb s) l.

(** The [len(schema) == 2] block of [_suggest_chart]: [None] when neither
    branch returns and control falls through. *)
Definition two_column_rule (schema : list SchemaField) : option Chart :=
  match schema with
  | [col1; col2] =>
      let col1_type := sf_type col1 in
      let col2_type := sf_type col2 in
      if str_mem col1_type ["DATE"; "DATETIME"; "TIMESTAMP"] then
        Some (mkChart "line" "Trend Over Time")
      else if String.eqb col1_type "STRING"
              && str_mem col2_type ["INTEGER"; "FLOAT"; "NUMERIC"]
      then Some (mkChart "bar" "Comparison")
      else None
  | _ => None
  end.

(** [_suggest_chart], on the two keys of [result] it reads. *)
Definition _suggest_chart_of (schema : list SchemaField) (rows_count : Z)
  : option Chart :=
  if (rows_count =? 0)%Z || Nat.eqb (List.length schema) 0 then None
  else if Nat.eqb (List.length schema) 1 then
    Some (mkChart "metric" "Single Value")
  else
    match two_column_rule schema with
    | Some chart => Some chart
    | None =>
        if (3 <=? List.length schema)%nat
        then Some (mkChart "table" "Data Table")
        else Some (mkChart "table" "Data View")
    end.

Definition _suggest_chart (result : QueryResult) : option Chart :=
  _suggest_chart_of (schema result) (rows_returned result).

(** [_save_to_conversation] *)
Definition _save_to_conversation (conversation_id question sql : string)
  (tokens : Z) : M World unit :=
  db_add_message (mkMessage conversation_id "user" question 0) ;;;
  let assistant_content :=
    "Generated SQL:" ++ nl ++ "```sql" ++ nl ++ sql ++ nl ++ "```" in
  db_add_message (mkMessage conversation_id "assistant" assistant_content tokens) ;;;
  conversation <- query_conversation conversation_id ;;
  match conversation with
  | Some c =>
      if negb (truthy_opt (c_title c))
      then set_conversation_title conversation_id (take 100 question)
      else ret tt
  | None => ret tt
  end.

(** The dict [process_question] returns. *)
Record QueryResponse := mkQueryResponse {
  query_id : nat;
  sql : option string;
  result : option QueryResult;
  insights : option string;
  suggested_chart : option Chart;
  tokens_used : Z;
  sql_generation_time_ms : Z;
  total_time_ms : Z;
  error : option string
}.

(** The dict [execute_sql_directly] returns. *)
Record DirectResponse := mkDirectResponse {
  d_sql : string;
  d_result : option QueryResult;
  d_total_time_ms : Z;
  d_error : option string
}.

Definition or_zero (o : option Z) : Z :=
  match o with
  | Some z => z
  | None => 0%Z
  end.

(** Assignments to the attributes of [log_entry]. *)
Definition log_generated (r : TextToSQLChain.SqlResult) (l : QueryLog) : QueryLog :=
  mkQueryLog (ql_id l) (ql_user_id l) (ql_project_id l) (ql_conversation_id l)
    (ql_user_question l)
    (Some (TextToSQLChain.sr_sql r))
    (Some (TextToSQLChain.sr_generation_time_ms r))
    (Some (TextToSQLChain.sr_tokens_used r))
    (ql_execution_status l) (ql_execution_time_ms l) (ql_rows_returned l)
    (ql_bytes_processed l) (ql_error_message l) (ql_error_type l)
    (ql_model_used l) (ql_ip_address l) (ql_user_agent l).

Definition log_success (r : QueryResult) (l : QueryLog) : QueryLog :=
  mkQueryLog (ql_id l) (ql_user_id l) (ql_project_id l) (ql_conversation_id l)
    (ql_user_question l) (ql_generated_sql l) (ql_sql_generation_time_ms l)
    (ql_sql_tokens_used l)
    (Some "success") (Some (execution_time_ms r)) (Some (rows_returned r))
    (Some (bytes_processed r))
    (ql_error_message l) (ql_error_type l)
    (ql_model_used l) (ql_ip_address l) (ql_user_agent l).

Definition log_failed (e : Exn) (l : QueryLog) : QueryLog :=
  mkQueryLog (ql_id l) (ql_user_id l) (ql_project_id l) (ql_conversation_id l)
    (ql_user_question l) (ql_generated_sql l) (ql_sql_generation_time_ms l)
    (ql_sql_tokens_used l)
    (Some "failed") (ql_execution_time_ms l) (ql_rows_returned l)
    (ql_bytes_processed l)
    (Some (exn_msg e)) (Some (exn_type e))
    (ql_model_used l) (ql_ip_address l) (ql_user_agent l).

(** The arguments of [process_question]. *)
Record Request := mkRequest {
  project_id : string;
  user_id : string;
  question : string;
  conversation_id : option string;
  model : string;
  ip_address : option string;
  user_agent : option string
}.

(** The [except Exception as e:] block of [process_question]. *)
Definition failure_handler (total_start_time : Z) (query_log_id : nat) (e : Exn)
  : M (World * QueryLog) QueryResponse :=
  set_local (log_failed e) ;;;
  entry <- get_local ;;
  lift (db_add_log entry) ;;;
  lift db_commit ;;;
  now <- lift time_ms ;;
  let total_time_ms := (now - total_start_time)%Z in
  ret (mkQueryResponse query_log_id (ql_generated_sql entry) None None None
         (or_zero (ql_sql_tokens_used entry))
         (or_zero (ql_sql_generation_time_ms entry))
         total_time_ms (Some (exn_msg e))).

(** The [try:] block of [process_question]. *)
Definition try_block (env : Env) (rq : Request) (total_start_time : Z)
  (query_log_id : nat) : M (World * QueryLog) QueryResponse :=
  (* Step 1: generate SQL *)
  let sql_chain :=
    TextToSQLChain.mk (project_id rq) (user_id rq) (conversation_id rq)
                      (model rq) in
  sql_result <- lift (TextToSQLChain.generate_sql env sql_chain (question rq)) ;;
  set_local (log_generated sql_result) ;;;
  (* Step 2: validate SQL *)
  (if _is_dangerous_sql (TextToSQLChain.sr_sql sql_result)
   then raise (Exception "SQL query contains forbidden operations (DROP, DELETE, etc.)")
   else ret tt) ;;;
  (* Step 3: execute SQL on BigQuery *)
  execution_result <-
    lift (execute_query env (project_id rq) (TextToSQLChain.sr_sql sql_result)) ;;
  set_local (log_success execution_result) ;;;
  (* Steps 4 and 5: insights and visualization *)
  let insights := _generate_basic_insights execution_result in
  let chart_suggestion := _suggest_chart execution_result in
  now <- lift time_ms ;;
  let total_time_ms := (now - total_start_time)%Z in
  (* Save log, save to conversation if provided, commit *)
  entry <- get_local ;;
  lift (db_add_log entry) ;;;
  (match conversation_id rq with
   | Some cid =>
       if truthy cid
       then lift (_save_to_conversation cid (question rq)
                    (TextToSQLChain.sr_sql sql_result)
                    (TextToSQLChain.sr_tokens_used sql_result))
       else ret tt
   | None => ret tt
   end) ;;;
  lift db_commit ;;;
  ret (mkQueryResponse query_log_id
         (Some (TextToSQLChain.sr_sql sql_result))
         (Some execution_result) (Some insights) chart_suggestion
         (TextToSQLChain.sr_tokens_used sql_result)
         (TextToSQLChain.sr_generation_time_ms sql_result)
         total_time_ms None).

(** The audit record as [process_question] first builds it. *)
Definition new_log_entry (rq : Request) (query_log_id : nat) : QueryLog :=
  mkQueryLog query_log_id (user_id rq) (project_id rq) (conversation_id rq)
             (question rq) None None None None None None None None None
             (model rq) (ip_address rq) (user_agent rq).

Definition process_question (env : Env) (rq : Request) : M World QueryResponse :=
  total_start_time <- time_ms ;;
  query_log_id <- uuid4 ;;
  with_local (new_log_entry rq query_log_id)
    (try_except (try_block env rq total_start_time query_log_id)
                (failure_handler total_start_time query_log_id)).

Definition execute_sql_directly (env : Env) (project_id user_id sql : string)
  (conversation_id : option string) : M World DirectResponse :=
  total_start_time <- time_ms ;;
  try_except
    ((if _is_dangerous_sql sql
      then raise (Exception "SQL contains forbidden operations")
      else ret tt) ;;;
     result <- execute_query env project_id sql ;;
     now <- time_ms ;;
     ret (mkDirectResponse sql (Some result) (now - total_start_time)%Z None))
    (fun e =>
       now <- time_ms ;;
       ret (mkDirectResponse sql None (now - total_start_time)%Z
                             (Some (exn_msg e)))).

End QueryService.


(* ================================================================== *)
(** ** Notions the documented properties are stated with *)
(* ================================================================== *)

(** The denylist as the documentation gives it. *)
Definition spec_denylist : list string :=
  ["DROP"; "DELETE"; "TRUNCATE"; "ALTER"; "CREATE"; "UPDATE"].

(** [kw] occurs in [sql] as a case-insensitive substring: some substring of
    [sql] equals [kw] up to the case of its letters. *)
Definition ci_occurs (kw sql : string) : Prop :=
  exists pre w post, sql = pre ++ w ++ post /\ upper w = upper kw.

Definition denylisted (sql : string) : Prop :=
  exists kw, In kw spec_denylist /\ ci_occurs kw sql.

(** A model answer that wraps [inner] in a fence tagged [sql], and one that
    wraps it in a bare fence: the fence lines are lines of their own, as in
    the assistant turn [_save_to_conversation] writes. *)
Definition fenced_sql (inner : string) : string :=
  "```sql" ++ nl ++ inner ++ nl ++ "```".

Definition fenced_bare (inner : string) : string :=
  "```" ++ nl ++ inner ++ nl ++ "```".

(** The project block as the documentation words it: business-rule entries
    labelled [key: content], then the project instructions. *)
Definition spec_rules_block (rules : list ProjectMemory) : string :=
  match rules with
  | [] => ""
  | _ =>
      "BUSINESS RULES & DOMAIN KNOWLEDGE:" ++ nl
      ++ String.concat ""
           (map (fun r => "- " ++ pm_key r ++ ": " ++ pm_content r ++ nl) rules)
      ++ nl
  end.

Definition spec_instructions_block (instructions : list ProjectInstruction)
  : string :=
  match instructions with
  | [] => ""
  | _ =>
      "PROJECT-SPECIFIC INSTRUCTIONS:" ++ nl
      ++ String.concat ""
           (map (fun i => "- " ++ pi_instruction_text i ++ nl) instructions)
  end.

(** Ascending priority. *)
Definition by_priority (a b : ProjectInstruction) : Prop :=
  (pi_priority a <= pi_priority b)%Z.

(** The memory rows of a project, in table order: the rows of the
    [project_memory] table that carry the id of the project. *)
Definition rows_of_project_memory (self : TextToSQLChain.t) (d : Database)
  : list ProjectMemory :=
  filter (fun r => String.eqb (pm_project_id r)
                              (TextToSQLChain.project_id self))
         (project_memory d).

(** The active instruction rows of a project, in table order. *)
Definition rows_of_project_instructions (self : TextToSQLChain.t) (d : Database)
  : list ProjectInstruction :=
  filter pi_active
    (filter (fun i => String.eqb (pi_project_id i)
                                 (TextToSQLChain.project_id self))
            (project_instructions d)).

(* ------------------------------------------------------------------ *)
(** *** How far one invocation of [process_question] gets *)

(** The chain [process_question] builds for a request. *)
Definition chain_of (rq : QueryService.Request) : TextToSQLChain.t :=
  TextToSQLChain.mk (QueryService.project_id rq) (QueryService.user_id rq)
                    (QueryService.conversation_id rq) (QueryService.model rq).

(** The exception the safety gate of [process_question] raises. *)
Definition safety_rejection : Exn :=
  Exception "SQL query contains forbidden operations (DROP, DELETE, etc.)".

(** The stages GENERATE, VALIDATE and EXECUTE of the [try:] block, run in
    order from the world [process_question] starts them in: where the block
    stops before PERSIST, with what it has produced so far and the world it
    leaves. *)
Inductive Progress :=
| GenerationFailed (e : Exn) (w : World)
| SafetyRejected (g : TextToSQLChain.SqlResult) (w : World)
| ExecutionFailed (g : TextToSQLChain.SqlResult) (e : Exn) (w : World)
| Executed (g : TextToSQLChain.SqlResult) (x : BigQueryService.QueryResult)
           (w : World).

Definition progress (env : Env) (rq : QueryService.Request) (w : World)
  : Progress :=
  match TextToSQLChain.generate_sql env (chain_of rq) (QueryService.question rq)
                                    (snd (uuid4 w)) with
  | (Raise e, wg) => GenerationFailed e wg
  | (Return g, wg) =>
      if QueryService._is_dangerous_sql (TextToSQLChain.sr_sql g)
      then SafetyRejected g wg
      else match BigQueryService.execute_query env (QueryService.project_id rq)
                   (TextToSQLChain.sr_sql g) wg with
           | (Raise e, we) => ExecutionFailed g e we
           | (Return x, we) => Executed g x we
           end
  end.

Definition world_of (p : Progress) : World :=
  match p with
  | GenerationFailed _ w | SafetyRejected _ w
  | ExecutionFailed _ _ w | Executed _ _ w => w
  end.

(** The failure a stage ended with, if one did. *)
Definition failure_of (p : Progress) : option Exn :=
  match p with
  | GenerationFailed e _ => Some e
  | SafetyRejected _ _ => Some safety_rejection
  | ExecutionFailed _ e _ => Some e
  | Executed _ _ _ => None
  end.

(** The SQL generation produced, if it completed. *)
Definition generated_of (p : Progress) : option TextToSQLChain.SqlResult :=
  match p with
  | GenerationFailed _ _ => None
  | SafetyRejected g _ | ExecutionFailed g _ _ | Executed g _ _ => Some g
  end.

(** [log_entry] as the stages leave it, before the audit record is
    finalized. *)
Definition entry_of (rq : QueryService.Request) (query_log_id : nat)
  (p : Progress) : QueryLog :=
  let fresh := QueryService.new_log_entry rq query_log_id in
  match p with
  | GenerationFailed _ _ => fresh
  | SafetyRejected g _ | ExecutionFailed g _ _ =>
      QueryService.log_generated g fresh
  | Executed g x _ =>
      QueryService.log_success x (QueryService.log_generated g fresh)
  end.

(** The structured error result of the [except] block. *)
Definition failure_response (query_log_id : nat) (entry : QueryLog) (e : Exn)
  (total_time_ms : Z) : QueryService.QueryResponse :=
  QueryService.mkQueryResponse query_log_id (ql_generated_sql entry)
    None None None
    (QueryService.or_zero (ql_sql_tokens_used entry))
    (QueryService.or_zero (ql_sql_generation_time_ms entry))
    total_time_ms (Some (exn_msg e)).

(** The result of the success path. *)
Definition success_response (query_log_id : nat)
  (g : TextToSQLChain.SqlResult) (x : BigQueryService.QueryResult)
  (total_time_ms : Z) : QueryService.QueryResponse :=
  QueryService.mkQueryResponse query_log_id
    (Some (TextToSQLChain.sr_sql g)) (Some x)
    (Some (QueryService._generate_basic_insights x))
    (QueryService._suggest_chart x)
    (TextToSQLChain.sr_tokens_used g)
    (TextToSQLChain.sr_generation_time_ms g)
    total_time_ms None.

(** The world of the success path just before its commit: the audit record
    is registered and, when a conversation id came with the request, so are
    the two turns. *)
Definition before_commit (rq : QueryService.Request)
  (g : TextToSQLChain.SqlResult) (entry : QueryLog) (w : World) : World :=
  let w1 := set_session (add_log entry) w in
  match QueryService.conversation_id rq with
  | Some cid =>
      if truthy cid
      then snd (QueryService._save_to_conversation cid
                  (QueryService.question rq) (TextToSQLChain.sr_sql g)
                  (TextToSQLChain.sr_tokens_used g) w1)
      else w1
  | None => w1
  end.

(** A request starts on a session of its own with nothing pending. *)
Definition fresh_session (w : World) : Prop := session w = empty_session.

(** Exactly one audit record was written between [w] and [w'], and its
    status is [success] or [failed]. *)
Definition one_audit_record (w w' : World) : Prop :=
  exists entry,
    query_logs (db w') = (query_logs (db w) ++ [entry])%list /\
    (ql_execution_status entry = Some "success"
     \/ ql_execution_status entry = Some "failed").

(** What the stages before PERSIST leave alone: the rows of the store, the
    session and the faults the store has in stock. *)
Record same_store (w w' : World) : Prop := {
  same_db : db w' = db w;
  same_session : session w' = session w;
  same_faults : commit_faults w' = commit_faults w
}.

(** The conversation id of a request, when one was supplied. *)
Definition supplied_conversation (rq : QueryService.Request) : option string :=
  match QueryService.conversation_id rq with
  | Some cid => if truthy cid then Some cid else None
  | None => None
  end.

(** The user turn and the assistant turn of one answered question; the
    assistant turn shows the SQL in a fence. *)
Definition turns_of (cid question sql : string) (tokens : Z) : list Message :=
  [mkMessage cid "user" question 0;
   mkMessage cid "assistant"
     ("Generated SQL:" ++ nl ++ "```sql" ++ nl ++ sql ++ nl ++ "```") tokens].

(** The conversation [cid] takes the first 100 characters of the question
    as its title if it has none; every other conversation stays. *)
Definition retitle (cid question : string) (c : Conversation) : Conversation :=
  if String.eqb (c_id c) cid && negb (truthy_opt (c_title c))
  then mkConversation (c_id c) (Some (take 100 question))
  else c.

(** The title assignments [_save_to_conversation] leaves pending. *)
Definition pending_titles (cid question : string) (d : Database)
  : list (string * string) :=
  match find (fun c => String.eqb (c_id c) cid) (conversations d) with
  | Some c =>
      if negb (truthy_opt (c_title c)) then [(cid, take 100 question)] else []
  | None => []
  end.

(** Neither the turns nor the conversations changed between two worlds. *)
Definition conversations_untouched (w w' : World) : Prop :=
  messages (db w') = messages (db w) /\
  conversations (db w') = conversations (db w).

(** One of the stages GENERATE, VALIDATE, EXECUTE of an invocation raises
    [e]; [generated] is the SQL that generation produced, if it
    completed. *)
Inductive stage_raises (env : Env) (rq : QueryService.Request) (w : World)
  : Exn -> option string -> Prop :=
| generation_raises (e : Exn) (wg : World) :
    TextToSQLChain.generate_sql env (chain_of rq) (QueryService.question rq)
                                (snd (uuid4 w)) = (Raise e, wg) ->
    stage_raises env rq w e None
| gate_raises (g : TextToSQLChain.SqlResult) (wg : World) :
    TextToSQLChain.generate_sql env (chain_of rq) (QueryService.question rq)
                                (snd (uuid4 w)) = (Return g, wg) ->
    QueryService._is_dangerous_sql (TextToSQLChain.sr_sql g) = true ->
    stage_raises env rq w safety_rejection (Some (TextToSQLChain.sr_sql g))
| execution_raises (g : TextToSQLChain.SqlResult) (wg : World) (e : Exn)
    (we : World) :
    TextToSQLChain.generate_sql env (chain_of rq) (QueryService.question rq)
                                (snd (uuid4 w)) = (Return g, wg) ->
    QueryService._is_dangerous_sql (TextToSQLChain.sr_sql g) = false ->
    BigQueryService.execute_query env (QueryService.project_id rq)
                                  (TextToSQLChain.sr_sql g) wg = (Raise e, we) ->
    stage_raises env rq w e (Some (TextToSQLChain.sr_sql g)).

(* ------------------------------------------------------------------ *)
(** *** Concrete worlds the statements are tried on *)

Module Sample.

Definition project : Project :=
  mkProject "p1" "acme-bq" "sales" (Some "{}")
    (Some [("orders",
            mkTableInfo (Some [mkCacheColumn (Some "id") (Some "INTEGER");
                               mkCacheColumn (Some "placed_at") None]))]).

Definition database : Database :=
  mkDatabase
    []
    [mkProjectMemory "p1" "revenue" "Revenue = gross_sales - returns";
     mkProjectMemory "p2" "churn" "not ours"]
    [mkProjectInstruction "p1" "Prefer the orders table" 5 true;
     mkProjectInstruction "p1" "Never join on names" 1 true;
     mkProjectInstruction "p1" "Retired rule" 0 false]
    [project]
    [mkConversation "c1" None; mkConversation "c2" (Some "Weekly sales")]
    [mkMessage "c2" "user" "Sales per week?" 0]
    [].

Definition generated : string :=
  "SELECT COUNT(id) AS n FROM acme-bq.sales.orders LIMIT 100".

(** Every collaborator answers. *)
Definition env : Env :=
  mkEnv (fun _ _ => LlmContent (fenced_sql generated) 800)
        (fun _ => None)
        (fun _ => WhResult [[("n", "42")]] [mkSchemaField "n" "INTEGER"]
                           (Some 1024%Z) 350).

(** The language model is unreachable. *)
Definition env_llm_down : Env :=
  mkEnv (fun _ _ => LlmError (mkExn "APIConnectionError" "Connection error.") 30)
        (fun _ => None)
        (fun _ => WhResult [] [] None 0).

(** The language model answers with a forbidden statement. *)
Definition env_llm_drops : Env :=
  mkEnv (fun _ _ => LlmContent "drop table orders" 800)
        (fun _ => None)
        (fun _ => WhResult [] [] None 0).

(** The warehouse refuses the query. *)
Definition env_warehouse_down : Env :=
  mkEnv (fun _ _ => LlmContent generated 800)
        (fun _ => None)
        (fun _ => WhError (mkExn "BadRequest" "Syntax error at [1:1]") 120).

Definition world : World :=
  mkWorld database empty_session 1000 7 [] [] [].

Definition store_down : Exn :=
  mkExn "OperationalError" "server closed the connection unexpectedly".

(** The same world, with a store that fails the next commit. *)
Definition world_store_down : World :=
  mkWorld database empty_session 1000 7 [] [] [Some store_down].

Definition request : QueryService.Request :=
  QueryService.mkRequest "p1" "u1" "How many orders last month?" (Some "c1")
                         "claude-3-5-sonnet-20241022" None None.

Definition request_no_conversation : QueryService.Request :=
  QueryService.mkRequest "p1" "u1" "How many orders last month?" None
                         "claude-3-5-sonnet-20241022" None None.

End Sample.

(* ================================================================== *)
(** ** BigQueryService: the connectivity probe and the dry run *)
(* ================================================================== *)

Module BigQueryChecks.

Import BigQueryService.

(** [test_connection] *)
Definition test_connection (env : Env) (project_id : string) : M World bool :=
  try_except
    (_get_client env project_id ;;;
     client_query env "SELECT 1 as test" ;;;
     ret true)
    (fun _ => ret false).

(** The dict [validate_sql] returns. *)
Record Validation := mkValidation {
  valid : bool;
  v_error : option string;
  estimated_bytes : option Z
}.

(** [validate_sql].  The dry run is a job that the warehouse compiles and
    does not execute; [dry_run] is its answer: the error it raises, or the
    [total_bytes_processed] of the job. *)
Definition validate_sql (env : Env) (dry_run : string -> Exn + option Z)
  (project_id sql : string) : M World Validation :=
  try_except
    (_get_client env project_id ;;;
     match dry_run sql with
     | inr bytes => ret (mkValidation true None bytes)
     | inl e => raise e
     end)
    (fun e => ret (mkValidation false (Some (exn_msg e)) (Some 0%Z))).

End BigQueryChecks.

(* ================================================================== *)
(** ** Generation when what comes before the model call fails *)
(* ================================================================== *)

Module BeforeTheCall.

Import TextToSQLChain BigQueryService QueryService.

(** Two things run before [generate_sql] reaches its [try:], and both can
    raise: the constructor of the chain builds the client of the language
    model ([ChatAnthropic(...)]), and the four context loaders read the
    store ([self.db.query(...)]).  [Faults] says what each of them does in
    one invocation: [None] when it goes through, and otherwise the error it
    raises (for the loaders, the error of the first read the store
    refuses). *)
Record Faults := mkFaults {
  construction : option Exn;
  loading : option Exn
}.

Definition no_fault : Faults := mkFaults None None.

(** [TextToSQLChain.__init__] *)
Definition new_chain (faults : Faults)
  (project_id user_id : string) (conversation_id : option string)
  (model : string) : M World TextToSQLChain.t :=
  match construction faults with
  | Some e => raise e
  | None => ret (TextToSQLChain.mk project_id user_id conversation_id model)
  end.

(** The four loaders that [generate_sql] calls first, outside its [try:]:
    global memory, project memory, conversation history, schema. *)
Definition load_context (faults : Faults) (self : TextToSQLChain.t)
  : M World (string * string * string * string) :=
  match loading faults with
  | Some e => raise e
  | None =>
      w <- get ;;
      ret (_load_global_memory (db w), _load_project_memory self (db w),
           _load_conversation_history self (db w),
           _get_schema_context self (db w))
  end.

(** [generate_sql], with the loading of the context as a step of its
    own. *)
Definition generate_sql (faults : Faults) (env : Env)
  (self : TextToSQLChain.t) (user_question : string) : M World SqlResult :=
  start_time <- time_ms ;;
  context <- load_context faults self ;;
  let '(global_memory, project_memory, conversation_history, schema) :=
    context in
  try_except
    (content <- ainvoke env self
                  (format_prompt global_memory project_memory schema
                                 conversation_history user_question) ;;
     let sql := extract_sql content in
     end_time <- time_ms ;;
     let total_chars :=
       (String.length template + String.length user_question
        + String.length sql)%nat in
     let tokens_used := (Z.of_nat total_chars / 4)%Z in
     ret (mkSqlResult sql tokens_used (end_time - start_time)%Z))
    (fun e => raise (Exception ("SQL generation failed: " ++ exn_msg e))).

(** The [try:] block of [process_question], with the construction of the
    chain as a step of its own. *)
Definition try_block (faults : Faults) (env : Env) (rq : Request)
  (total_start_time : Z) (query_log_id : nat)
  : M (World * QueryLog) QueryResponse :=
  (* Step 1: generate SQL *)
  sql_chain <- lift (new_chain faults (project_id rq) (user_id rq)
                               (conversation_id rq) (model rq)) ;;
  sql_result <- lift (generate_sql faults env sql_chain (question rq)) ;;
  set_local (log_generated sql_result) ;;;
  (* Step 2: validate SQL *)
  (if _is_dangerous_sql (sr_sql sql_result)
   then raise (Exception "SQL query contains forbidden operations (DROP, DELETE, etc.)")
   else ret tt) ;;;
  (* Step 3: execute SQL on BigQuery *)
  execution_result <-
    lift (execute_query env (project_id rq) (sr_sql sql_result)) ;;
  set_local (log_success execution_result) ;;;
  (* Steps 4 and 5: insights and visualization *)
  let insights := _generate_basic_insights execution_result in
  let chart_suggestion := _suggest_chart execution_result in
  now <- lift time_ms ;;
  let total_time_ms := (now - total_start_time)%Z in
  (* Save log, save to conversation if provided, commit *)
  entry <- get_local ;;
  lift (db_add_log entry) ;;;
  (match conversation_id rq with
   | Some cid =>
       if truthy cid
       then lift (_save_to_conversation cid (question rq)
                    (sr_sql sql_result) (sr_tokens_used sql_result))
       else ret tt
   | None => ret tt
   end) ;;;
  lift db_commit ;;;
  ret (mkQueryResponse query_log_id
         (Some (sr_sql sql_result))
         (Some execution_result) (Some insights) chart_suggestion
         (sr_tokens_used sql_result)
         (sr_generation_time_ms sql_result)
         total_time_ms None).

(** [process_question] *)
Definition process_question (faults : Faults) (env : Env) (rq : Request)
  : M World QueryResponse :=
  total_start_time <- time_ms ;;
  query_log_id <- uuid4 ;;
  with_local (new_log_entry rq query_log_id)
    (try_except (try_block faults env rq total_start_time query_log_id)
                (failure_handler total_start_time query_log_id)).

End BeforeTheCall.

(* ================================================================== *)
(** ** The query endpoints (api/v1/endpoints/queries.py) *)
(* ================================================================== *)

Module QueriesApi.

Import QueryService.

(** [HTTPException(status_code, detail)] *)
Record HTTPException := mkHTTPException {
  status_code : nat;
  detail : string
}.

(** What a handler ends with: the value it returns, or the
    [HTTPException] it raises. *)
Inductive Answer (A : Type) :=
| Respond (a : A)
| Abort (e : HTTPException).
Arguments Respond {A} a.
Arguments Abort {A} e.

(** [Project.owner_id], a column of the projects table (not null) that the
    pipeline never reads, is kept beside the rows: the owner id on record
    for a project id. *)
Definition Owners := string -> string.

Definition owned_by (owners : Owners) (user_id : string) (p : Project) : bool :=
  String.eqb (owners (p_id p)) user_id.

(** [db.query(Project).filter(Project.id == pid,
                              Project.owner_id == current_user.id).first()] *)
Definition query_owned_project (owners : Owners) (pid user_id : string)
  (d : Database) : option Project :=
  find (fun p => String.eqb (p_id p) pid && owned_by owners user_id p)
       (projects d).

(** [QueryRequest] (schemas/query.py), the fields the handler reads. *)
Record QueryRequest := mkQueryRequest {
  qr_project_id : string;
  qr_question : string;
  qr_conversation_id : option string;
  qr_model : string
}.

(** [SQLExecuteRequest] (schemas/query.py) *)
Record SQLExecuteRequest := mkSQLExecuteRequest {
  se_project_id : string;
  se_sql : string;
  se_conversation_id : option string
}.

(** The parts of the [Request] that [ask_question] reads: the host of
    [request.client], which is [None] when the server supplies no peer
    address, and the user-agent header. *)
Record HttpRequest := mkHttpRequest {
  client_host : option string;
  user_agent_header : option string
}.

(** [request.client.host] on a request without a peer address. *)
Definition no_client_error : Exn :=
  mkExn "AttributeError" "'NoneType' object has no attribute 'host'".

(** What [ask_question] ends with: an answer of the handler, or an
    exception that is no [HTTPException] and escapes it. *)
Inductive Ending (A : Type) :=
| Answered (a : Answer A)
| Escaped (e : Exn).
Arguments Answered {A} a.
Arguments Escaped {A} e.

(** [ask_question] *)
Definition ask_question (env : Env) (owners : Owners)
  (query_request : QueryRequest) (request : HttpRequest)
  (current_user_id : string) (w : World) : Ending QueryResponse * World :=
  match query_owned_project owners (qr_project_id query_request)
                            current_user_id (db w) with
  | None => (Answered (Abort (mkHTTPException 404 "Project not found")), w)
  | Some project =>
      if negb (truthy_opt (p_credentials_encrypted project)) then
        (Answered
           (Abort (mkHTTPException 400 "BigQuery not configured for this project")),
         w)
      else
        match client_host request with
        | None => (Escaped no_client_error, w)
        | Some client_ip =>
            let user_agent := user_agent_header request in
            match process_question env
                    (mkRequest (qr_project_id query_request) current_user_id
                               (qr_question query_request)
                               (qr_conversation_id query_request)
                               (qr_model query_request) (Some client_ip)
                               user_agent) w with
            | (Return result, w') =>
                match error result with
                | Some msg =>
                    if truthy msg
                    then (Answered (Abort (mkHTTPException 400 msg)), w')
                    else (Answered (Respond result), w')
                | None => (Answered (Respond result), w')
                end
            | (Raise e, w') =>
                (Answered
                   (Abort (mkHTTPException 500
                             ("Query processing failed: " ++ exn_msg e))), w')
            end
        end
  end.

(** [execute_sql] *)
Definition execute_sql (env : Env) (owners : Owners)
  (sql_request : SQLExecuteRequest) (current_user_id : string) (w : World)
  : Answer DirectResponse * World :=
  match query_owned_project owners (se_project_id sql_request)
                            current_user_id (db w) with
  | None => (Abort (mkHTTPException 404 "Project not found"), w)
  | Some _ =>
      match execute_sql_directly env (se_project_id sql_request)
              current_user_id (se_sql sql_request)
              (se_conversation_id sql_request) w with
      | (Return result, w') =>
          match d_error result with
          | Some msg =>
              if truthy msg then (Abort (mkHTTPException 400 msg), w')
              else (Respond result, w')
          | None => (Respond result, w')
          end
      | (Raise e, w') =>
          (Abort (mkHTTPException 500 ("SQL execution failed: " ++ exn_msg e)),
           w')
      end
  end.

(** The dict [get_query_history] returns. *)
Record History := mkHistory {
  total : nat;
  logs : list QueryLog
}.

(** [get_query_history].  The [query_logs] table is append-only and kept in
    [created_at] order, so [order_by(created_at.desc())] reads it from its
    end; [limit] and [offset] are counts. *)
Definition get_query_history (project_id : option string) (limit offset : nat)
  (current_user_id : string) (d : Database) : History :=
  let query :=
    filter (fun l => String.eqb (ql_user_id l) current_user_id) (query_logs d) in
  let query :=
    match project_id with
    | Some pid => filter (fun l => String.eqb (ql_project_id l) pid) query
    | None => query
    end in
  mkHistory (List.length query) (firstn limit (skipn offset (rev query))).

End QueriesApi.

(* ================================================================== *)
(** ** Authentication of a request (api/deps.py) *)
(* ================================================================== *)

Module Deps.

Import QueriesApi.

(** [User] (models/user.py), the columns authentication reads. *)
Record User := mkUser {
  u_id : string;
  u_is_active : bool;
  u_is_superuser : bool
}.

(** [APIKey] (models/api_key.py), the columns authentication reads. *)
Record APIKey := mkAPIKey {
  k_user_id : string;
  k_key_hash : string;
  k_key_prefix : string;
  k_is_active : bool
}.

Record AuthStore := mkAuthStore {
  users : list User;
  api_keys : list APIKey
}.

(** What [decode_token] does with a bearer token: it raises [JWTError], or
    returns a payload whose ["sub"] may be missing. *)
Inductive Decoded :=
| JWTError
| Payload (sub : option string).

(** app/core/security.py is not among the sources: its two functions that
    authentication calls are parameters. *)
Record Security := mkSecurity {
  verify_api_key : string -> string -> bool;   (* plain key, stored hash *)
  decode_token : string -> Decoded
}.

Definition credentials_exception : HTTPException :=
  mkHTTPException 401 "Could not validate credentials".

Definition find_user (store : AuthStore) (uid : string) : option User :=
  find (fun u => String.eqb (u_id u) uid) (users store).

(** The API-key branch of [get_current_user]: [Some answer] when the branch
    ends the call, [None] when control falls through to the token. *)
Definition try_api_key (sec : Security) (store : AuthStore) (x_api_key : string)
  : option (Answer User) :=
  match find (fun k => String.eqb (k_key_prefix k) (take 10 x_api_key))
             (api_keys store) with
  | Some api_key =>
      if verify_api_key sec x_api_key (k_key_hash api_key) then
        if negb (k_is_active api_key) then
          Some (Abort (mkHTTPException 401 "API key is inactive"))
        else match find_user store (k_user_id api_key) with
             | Some user => Some (Respond user)
             | None => None
             end
      else None
  | None => None
  end.

(** The token branch of [get_current_user]. *)
Definition try_token (sec : Security) (store : AuthStore) (token : string)
  : Answer User :=
  match decode_token sec token with
  | JWTError => Abort credentials_exception
  | Payload None => Abort credentials_exception
  | Payload (Some user_id) =>
      match find_user store user_id with
      | None => Abort credentials_exception
      | Some user =>
          if negb (u_is_active user)
          then Abort (mkHTTPException 403 "Inactive user")
          else Respond user
      end
  end.

(** [get_current_user]: [credentials] is the bearer token of the request,
    [x_api_key] its [X-API-Key] header. *)
Definition get_current_user (sec : Security) (store : AuthStore)
  (credentials x_api_key : option string) : Answer User :=
  match (match x_api_key with
         | Some key => if truthy key then try_api_key sec store key else None
         | None => None
         end) with
  | Some answer => answer
  | None =>
      match credentials with
      | Some token => try_token sec store token
      | None => Abort credentials_exception
      end
  end.

(** [get_current_superuser] *)
Definition get_current_superuser (current_user : Answer User) : Answer User :=
  match current_user with
  | Respond u =>
      if negb (u_is_superuser u)
      then Abort (mkHTTPException 403 "Not enough permissions")
      else Respond u
  | Abort e => Abort e
  end.

End Deps.

(* ------------------------------------------------------------------ *)
(** *** Notions the further properties are stated with *)

(** The turns of a conversation, oldest first. *)
Definition turns_in (cid : string) (d : Database) : list Message :=
  filter (fun m => String.eqb (m_conversation_id m) cid) (messages d).

(** One line of the conversation excerpt. *)
Definition history_line (m : Message) : string :=
  upper (m_role m) ++ ": " ++ take 200 (m_content m) ++ nl.

(** The block of one table in the schema description. *)
Definition table_block (p : Project) (entry : string * TableInfo) : string :=
  "Table: " ++ p_bigquery_project_id p ++ "." ++ p_bigquery_dataset p ++ "."
            ++ fst entry ++ nl
  ++ match ti_columns (snd entry) with
     | None => ""
     | Some cols =>
         "Columns:" ++ nl
         ++ String.concat ""
              (map (fun col => "  - " ++ TextToSQLChain.get_or (cc_name col) "unknown"
                                      ++ " (" ++ TextToSQLChain.get_or (cc_type col) "unknown"
                                      ++ ")" ++ nl) cols)
     end
  ++ nl.

(** Ascending priority of global instructions. *)
Definition by_global_priority (a b : GlobalInstruction) : Prop :=
  (gi_priority a <= gi_priority b)%Z.

(** A text that is empty or begins with something other than white
    space. *)
Definition starts_clean (s : string) : Prop :=
  match s with
  | EmptyString => True
  | String c _ => is_space c = false
  end.

(** The project has warehouse credentials on file. *)
Definition credentials_configured (project_id : string) (d : Database) : bool :=
  match find (fun p => String.eqb (p_id p) project_id) (projects d) with
  | Some p => truthy_opt (p_credentials_encrypted p)
  | None => false
  end.

(** The statement of the connectivity probe. *)
Definition probe_statement : string := "SELECT 1 as test".

(** The request [ask_question] hands to [process_question] for a caller
    at the peer address [client_ip]. *)
Definition request_of (query_request : QueriesApi.QueryRequest)
  (client_ip : string) (user_agent : option string) (current_user_id : string)
  : QueryService.Request :=
  QueryService.mkRequest (QueriesApi.qr_project_id query_request)
    current_user_id (QueriesApi.qr_question query_request)
    (QueriesApi.qr_conversation_id query_request)
    (QueriesApi.qr_model query_request) (Some client_ip) user_agent.

(** The project exists and is the user's: some row of the projects table
    carries the id, and the owner on record for the id is the user. *)
Definition owns (owners : QueriesApi.Owners) (user_id project_id : string)
  (d : Database) : Prop :=
  (exists p, In p (projects d) /\ p_id p = project_id) /\
  owners project_id = user_id.

(** Nothing left the process and nothing was written between two worlds. *)
Definition nothing_happened (w w' : World) : Prop :=
  same_store w w' /\
  llm_calls w' = llm_calls w /\
  warehouse_calls w' = warehouse_calls w.

(** Concrete callers: the owner of the sample project, a request from a
    peer address, and two bodies. *)
Definition sample_http_request : QueriesApi.HttpRequest :=
  QueriesApi.mkHttpRequest (Some "203.0.113.7") (Some "curl/8.5.0").

Definition sample_owners : QueriesApi.Owners :=
  fun project_id => if String.eqb project_id "p1" then "u1" else "u0".

Definition sample_query_request : QueriesApi.QueryRequest :=
  QueriesApi.mkQueryRequest "p1" "How many orders last month?" None
                            "claude-3-5-sonnet-20241022".

Definition sample_sql_request : QueriesApi.SQLExecuteRequest :=
  QueriesApi.mkSQLExecuteRequest "p1" "delete from orders" None.

(** A concrete store of users and keys, and a security module that accepts
    one key and one token. *)
Definition sample_store : Deps.AuthStore :=
  Deps.mkAuthStore
    [Deps.mkUser "u1" true false; Deps.mkUser "u2" false false]
    [Deps.mkAPIKey "u2" "hash-of-key-2" "ttd_key2xx" true;
     Deps.mkAPIKey "u1" "hash-of-key-1" "ttd_key1xx" false].

Definition sample_security : Deps.Security :=
  Deps.mkSecurity
    (fun key hash =>
       String.eqb key "ttd_key2xx-secret" && String.eqb hash "hash-of-key-2"
       || String.eqb key "ttd_key1xx-secret" && String.eqb hash "hash-of-key-1")
    (fun token =>
       if String.eqb token "token-of-u1" then Deps.Payload (Some "u1")
       else if String.eqb token "token-of-u2" then Deps.Payload (Some "u2")
       else Deps.JWTError).

(* ================================================================== *)
(** ** Sanity checks of the embedding *)
(* ================================================================== *)

Example upper_ex : upper "Drop table x; -- 9z{" = "DROP TABLE X; -- 9Z{".
Proof. reflexivity. Qed.
Example replace_ex1 : replace "```" "" "```a```b````" = "ab`".
Proof. reflexivity. Qed.
Example replace_ex2 : replace "ab" "X" "aababab" = "aXXX".
Proof. reflexivity. Qed.
Example strip_ex : strip ("  " ++ nl ++ "a b " ++ nl) = "a b".
Proof. reflexivity. Qed.
Example take_ex : take 3 "abcdef" = "abc" /\ take 9 "ab" = "ab".
Proof. split; reflexivity. Qed.
Example str_of_Z_ex : str_of_Z 42 = "42" /\ str_of_Z 0 = "0".
Proof. split; reflexivity. Qed.

Example template_pieces :
  TextToSQLChain.template =
  TextToSQLChain.format_prompt "{global_memory}" "{project_memory}" "{schema}"
                               "{conversation_history}" "{question}".
Proof. reflexivity. Qed.

Example template_length : String.length TextToSQLChain.template = 597%nat.
Proof. reflexivity. Qed.

(* ================================================================== *)
(** ** Facts about the text primitives *)
(* ================================================================== *)

Section TextFacts.

Lemma str_app_assoc (a b c : string) : (a ++ b) ++ c = a ++ (b ++ c).
Proof. induction a as [|x a IH]; simpl; [reflexivity | now rewrite IH]. Qed.

Lemma str_app_nil_r (a : string) : a ++ "" = a.
Proof. induction a as [|x a IH]; simpl; [reflexivity | now rewrite IH]. Qed.

Lemma str_length_app (a b : string) :
  String.length (a ++ b) = (String.length a + String.length b)%nat.
Proof. induction a as [|x a IH]; simpl; [reflexivity | now rewrite IH]. Qed.

Lemma upper_app (a b : string) : upper (a ++ b) = upper a ++ upper b.
Proof. induction a as [|x a IH]; simpl; [reflexivity | now rewrite IH]. Qed.

(** [upper] works character by character, so a split of its result is the
    image of a split of its argument. *)
Lemma upper_split (s a b : string) :
  upper s = a ++ b ->
  exists s1 s2, s = s1 ++ s2 /\ upper s1 = a /\ upper s2 = b.
Proof.
  revert s; induction a as [|x a IH]; intros s H.
  - exists "", s. auto.
  - destruct s as [|c s]; simpl in H; [discriminate|].
    injection H as Hc Hs.
    destruct (IH _ Hs) as (s1 & s2 & -> & H1 & H2).
    exists (String c s1), s2. simpl. now rewrite Hc, H1.
Qed.

Lemma startswith_iff (p s : string) :
  startswith p s = true <-> exists post, s = p ++ post.
Proof.
  revert s; induction p as [|a p IH]; intros s; simpl.
  - split; [intros _; now exists s | reflexivity].
  - destruct s as [|b s].
    + split; [discriminate | intros [post H]; discriminate].
    + rewrite andb_true_iff, Ascii.eqb_eq, IH. split.
      * intros [-> [post ->]]. now exists post.
      * intros [post H]. injection H as -> ->. split; [reflexivity | now exists post].
Qed.

Lemma str_in_iff (kw s : string) :
  str_in kw s = true <-> exists pre post, s = pre ++ kw ++ post.
Proof.
  induction s as [|c s IH].
  - simpl. rewrite orb_false_r, startswith_iff. split.
    + intros [post H]. now exists "", post.
    + intros (pre & post & H). destruct pre; [|discriminate]. now exists post.
  - cbn [str_in]. rewrite orb_true_iff, startswith_iff, IH. split.
    + intros [[post H] | (pre & post & H)].
      * now exists "", post.
      * exists (String c pre), post. simpl. now rewrite H.
    + intros (pre & post & H). destruct pre as [|x pre].
      * left. now exists post.
      * right. injection H as _ H. now exists pre, post.
Qed.

Lemma str_in_false_cons (kw : string) (c : ascii) (s : string) :
  str_in kw (String c s) = false ->
  startswith kw (String c s) = false /\ str_in kw s = false.
Proof. cbn [str_in]. apply orb_false_iff. Qed.

(** A pattern that does not contain the separator cannot start inside [a]
    and run over the separator. *)
Lemma startswith_app_sep (p a b : string) (x : ascii) :
  has_char x p = false ->
  startswith p (a ++ String x b) = startswith p a.
Proof.
  revert a; induction p as [|c p IH]; intros a H; [reflexivity|].
  simpl in H. apply orb_false_iff in H as [Hc Hp].
  destruct a as [|y a]; simpl.
  - rewrite Ascii.eqb_sym, Hc. reflexivity.
  - now rewrite IH.
Qed.

Lemma startswith_short (p s : string) :
  (String.length s < String.length p)%nat -> startswith p s = false.
Proof.
  revert s; induction p as [|c p IH]; intros s H; simpl in H; [lia|].
  destruct s as [|y s]; simpl; [reflexivity|].
  simpl in H. rewrite IH by lia. apply andb_false_r.
Qed.

(** The scan of [replace_from] passes over the rest of a matched
    occurrence. *)
Lemma replace_from_skip (old new w s : string) :
  replace_from old new (String.length w) (w ++ s) = replace_from old new 0 s.
Proof.
  induction w as [|c w IH]; simpl; [|exact IH].
  destruct s; reflexivity.
Qed.

Lemma replace_head (old new s : string) :
  old <> "" -> replace old new (old ++ s) = new ++ replace old new s.
Proof.
  intros Hne. destruct old as [|c old]; [congruence|].
  unfold replace. cbn [append replace_from].
  assert (Hs : startswith (String c old) (String c (old ++ s)) = true).
  { apply startswith_iff. now exists s. }
  rewrite Hs.
  replace (String.length (String c old) - 1)%nat with (String.length old)
    by (simpl; lia).
  now rewrite replace_from_skip.
Qed.

Lemma replace_absent (old new s : string) :
  str_in old s = false -> replace old new s = s.
Proof.
  unfold replace. induction s as [|c s IH]; intros H; [reflexivity|].
  apply str_in_false_cons in H as [H1 H2].
  cbn [replace_from]. rewrite H1, IH by exact H2. reflexivity.
Qed.

Lemma replace_cons_nomatch (old new : string) (c : ascii) (s : string) :
  startswith old (String c s) = false ->
  replace old new (String c s) = String c (replace old new s).
Proof. unfold replace. cbn [replace_from]. now intros ->. Qed.

End TextFacts.

(* ================================================================== *)
(** ** Facts about fences and stripping *)
(* ================================================================== *)

Section FenceFacts.

Lemma lstrip_suffix (s : string) : exists a, s = a ++ lstrip s.
Proof.
  induction s as [|c s [a IH]]; [now exists ""|].
  simpl. destruct (is_space c).
  - exists (String c a). simpl. now rewrite <- IH.
  - now exists "".
Qed.

Lemma rstrip_prefix (s : string) : exists b, s = rstrip s ++ b.
Proof.
  induction s as [|c s [b IH]]; [now exists ""|].
  simpl. destruct (rstrip s) as [|r0 r] eqn:E.
  - destruct (is_space c).
    + now exists (String c s).
    + exists b. simpl. now rewrite IH at 1.
  - exists b. simpl. now rewrite IH at 1.
Qed.

Lemma rstrip_app (a b : string) :
  rstrip b <> "" -> rstrip (a ++ b) = a ++ rstrip b.
Proof.
  intros Hb. induction a as [|c a IH]; [reflexivity|].
  simpl. rewrite IH.
  destruct (a ++ rstrip b) as [|x r] eqn:E; [|reflexivity].
  destruct a; [simpl in E; congruence | discriminate].
Qed.

Lemma str_in_absent_suffix (kw a b : string) :
  str_in kw (a ++ b) = false -> str_in kw b = false.
Proof.
  induction a as [|c a IH]; simpl append; [trivial|].
  intros H. apply str_in_false_cons in H as [_ H]. now apply IH.
Qed.

Lemma str_in_absent_prefix (kw a b : string) :
  str_in kw (a ++ b) = false -> str_in kw a = false.
Proof.
  intros H. destruct (str_in kw a) eqn:E; [|reflexivity].
  apply str_in_iff in E as (pre & post & ->).
  assert (Ht : str_in kw ((pre ++ kw ++ post) ++ b) = true).
  { apply str_in_iff. exists pre, (post ++ b).
    now rewrite !str_app_assoc. }
  congruence.
Qed.

Lemma str_in_absent_longer (kw x s : string) :
  str_in kw s = false -> str_in (kw ++ x) s = false.
Proof.
  intros H. destruct (str_in (kw ++ x) s) eqn:E; [|reflexivity].
  apply str_in_iff in E as (pre & post & ->).
  assert (Ht : str_in kw (pre ++ (kw ++ x) ++ post) = true).
  { apply str_in_iff. exists pre, (x ++ post). now rewrite !str_app_assoc. }
  congruence.
Qed.

Lemma str_in_absent_strip (kw s : string) :
  str_in kw s = false -> str_in kw (strip s) = false.
Proof.
  intros H. unfold strip.
  destruct (lstrip_suffix s) as [a Ha].
  destruct (rstrip_prefix (lstrip s)) as [b Hb].
  rewrite Ha in H. apply str_in_absent_suffix in H.
  rewrite Hb in H. now apply str_in_absent_prefix in H.
Qed.

Lemma str_in_absent_app_sep (p a b : string) (x : ascii) :
  has_char x p = false ->
  str_in p a = false -> str_in p (String x b) = false ->
  str_in p (a ++ String x b) = false.
Proof.
  intros Hx Ha Hb. induction a as [|c a IH]; [exact Hb|].
  apply str_in_false_cons in Ha as [H1 H2].
  change (String c a ++ String x b) with (String c (a ++ String x b)).
  cbn [str_in]. apply orb_false_iff. split; [|now apply IH].
  change (String c (a ++ String x b)) with (String c a ++ String x b).
  now rewrite startswith_app_sep.
Qed.

(** After [replace("```", "")] no triple backtick is left: what remains of a
    run of backticks is shorter than three, and removing backticks never
    joins two runs. *)
Lemma replace_fence_absent_len (n : nat) : forall s,
  (String.length s <= n)%nat -> str_in "```" (replace "```" "" s) = false.
Proof.
  induction n as [n IH] using lt_wf_ind. intros s Hn.
  assert (IH' : forall t, (String.length t < String.length s)%nat ->
                          str_in "```" (replace "```" "" t) = false).
  { intros t Ht. apply (IH (String.length t)); lia. }
  clear IH Hn.
  destruct s as [|c1 s1]; [reflexivity|].
  destruct (Ascii.eqb "`" c1) eqn:E1.
  2:{ rewrite replace_cons_nomatch by (cbn [startswith]; now rewrite E1).
      cbn [str_in startswith]. rewrite E1. cbn [andb orb].
      apply IH'. simpl; lia. }
  apply Ascii.eqb_eq in E1. subst c1.
  destruct s1 as [|c2 s2]; [reflexivity|].
  destruct (Ascii.eqb "`" c2) eqn:E2.
  2:{ rewrite !replace_cons_nomatch
        by (cbn [startswith]; rewrite ?Ascii.eqb_refl, E2; reflexivity).
      cbn [str_in startswith]. rewrite ?Ascii.eqb_refl, E2. cbn [andb orb].
      apply IH'. simpl; lia. }
  apply Ascii.eqb_eq in E2. subst c2.
  destruct s2 as [|c3 s3]; [reflexivity|].
  destruct (Ascii.eqb "`" c3) eqn:E3.
  2:{ rewrite !replace_cons_nomatch
        by (cbn [startswith]; rewrite ?Ascii.eqb_refl, E3; reflexivity).
      cbn [str_in startswith]. rewrite ?Ascii.eqb_refl, E3. cbn [andb orb].
      apply IH'. simpl; lia. }
  apply Ascii.eqb_eq in E3. subst c3.
  change (String "`" (String "`" (String "`" s3))) with ("```" ++ s3).
  rewrite replace_head by discriminate. simpl append.
  apply IH'. simpl; lia.
Qed.

Lemma replace_fence_absent (s : string) :
  str_in "```" (replace "```" "" s) = false.
Proof. now apply (replace_fence_absent_len (String.length s)). Qed.

End FenceFacts.

(* ================================================================== *)
(** ** The safety gate as a predicate *)
(* ================================================================== *)

Section Gate.

Import QueryService.

Lemma existsb_str_in (sql : string) :
  _is_dangerous_sql sql = true <->
  exists kw, In kw forbidden_keywords /\ str_in kw (upper sql) = true.
Proof. unfold _is_dangerous_sql. apply existsb_exists. Qed.

Lemma ci_occurs_upper (kw sql : string) :
  upper kw = kw -> (ci_occurs kw sql <-> str_in kw (upper sql) = true).
Proof.
  intros Hkw. rewrite str_in_iff. split.
  - intros (pre & w & post & -> & Hw).
    exists (upper pre), (upper post).
    rewrite !upper_app, Hw, Hkw. reflexivity.
  - intros (a & b & H).
    destruct (upper_split _ _ _ H) as (pre & rest & -> & Hpre & Hrest).
    destruct (upper_split _ _ _ Hrest) as (w & post & -> & Hw & Hpost).
    exists pre, w, post. split; [reflexivity | congruence].
Qed.

Lemma keywords_upper (kw : string) : In kw forbidden_keywords -> upper kw = kw.
Proof.
  simpl. intros H.
  repeat (destruct H as [<- | H]; [reflexivity|]). contradiction.
Qed.

(** The gate fires exactly on the statements that contain a denylisted
    keyword as a case-insensitive substring. *)
Lemma gate_iff (sql : string) : _is_dangerous_sql sql = true <-> denylisted sql.
Proof.
  rewrite existsb_str_in. unfold denylisted.
  change spec_denylist with forbidden_keywords.
  split; intros (kw & Hin & H); exists kw; (split; [exact Hin|]);
    apply (ci_occurs_upper kw sql (keywords_upper kw Hin)); exact H.
Qed.

Lemma gate_accepts_iff (sql : string) :
  _is_dangerous_sql sql = false <-> ~ denylisted sql.
Proof.
  rewrite <- gate_iff. destruct (_is_dangerous_sql sql); split; intros H;
    try reflexivity; try discriminate; try (intros H'; discriminate).
  exfalso. now apply H.
Qed.

End Gate.

Example gate_ex1 : QueryService._is_dangerous_sql "select 'Dropped' from t" = true.
Proof. reflexivity. Qed.
Example gate_ex2 : QueryService._is_dangerous_sql "SELECT 1 -- no update" = true.
Proof. reflexivity. Qed.
Example gate_ex3 : QueryService._is_dangerous_sql "SELECT name FROM orders LIMIT 100" = false.
Proof. reflexivity. Qed.

(* ================================================================== *)
(** ** Result interpreter: the chart heuristic *)
(* ================================================================== *)

Section Chart.

Import QueryService.

Lemma str_mem_iff (s : string) (l : list string) :
  str_mem s l = true <-> In s l.
Proof.
  unfold str_mem. rewrite existsb_exists. split.
  - intros (x & Hin & Hx). apply String.eqb_eq in Hx. now subst.
  - intros H. exists s. split; [exact H | apply String.eqb_refl].
Qed.

Lemma str_mem_false (s : string) (l : list string) :
  ~ In s l -> str_mem s l = false.
Proof.
  intros H. destruct (str_mem s l) eqn:E; [|reflexivity].
  apply str_mem_iff in E. contradiction.
Qed.

(** C5. The chart suggestion is a function of the column list and the row
    count alone, with the rules tried in this order: no rows or no columns
    give no suggestion; one column gives [metric]; two columns whose first
    type is DATE, DATETIME or TIMESTAMP give [line], "Trend Over Time"; two
    columns with a STRING first and an INTEGER, FLOAT or NUMERIC second give
    [bar], "Comparison"; two columns matching neither rule, and three or
    more columns, give [table]. *)
Theorem suggest_chart_table (res : BigQueryService.QueryResult) :
  let sch := BigQueryService.schema res in
  let n := BigQueryService.rows_returned res in
  _suggest_chart res = _suggest_chart_of sch n /\
  (n = 0%Z \/ sch = [] -> _suggest_chart res = None) /\
  (n <> 0%Z ->
   (forall c1, sch = [c1] ->
      _suggest_chart res = Some (mkChart "metric" "Single Value")) /\
   (forall c1 c2, sch = [c1; c2] ->
      In (sf_type c1) ["DATE"; "DATETIME"; "TIMESTAMP"] ->
      _suggest_chart res = Some (mkChart "line" "Trend Over Time")) /\
   (forall c1 c2, sch = [c1; c2] ->
      sf_type c1 = "STRING" ->
      In (sf_type c2) ["INTEGER"; "FLOAT"; "NUMERIC"] ->
      _suggest_chart res = Some (mkChart "bar" "Comparison")) /\
   (forall c1 c2, sch = [c1; c2] ->
      ~ In (sf_type c1) ["DATE"; "DATETIME"; "TIMESTAMP"] ->
      ~ (sf_type c1 = "STRING" /\
         In (sf_type c2) ["INTEGER"; "FLOAT"; "NUMERIC"]) ->
      _suggest_chart res = Some (mkChart "table" "Data View")) /\
   ((3 <= List.length sch)%nat ->
      _suggest_chart res = Some (mkChart "table" "Data Table"))).
Proof.
  intros sch n. unfold _suggest_chart. fold sch n.
  split; [reflexivity|]. split.
  - intros [-> | ->]; unfold _suggest_chart_of; [reflexivity|].
    simpl. now rewrite orb_true_r.
  - intros Hn. apply Z.eqb_neq in Hn.
    repeat split.
    + intros c1 ->. unfold _suggest_chart_of. now rewrite Hn.
    + intros c1 c2 -> H. unfold _suggest_chart_of, two_column_rule.
      rewrite Hn. apply str_mem_iff in H. cbn [List.length Nat.eqb orb].
      now rewrite H.
    + intros c1 c2 -> H1 H2. unfold _suggest_chart_of, two_column_rule.
      rewrite Hn. apply str_mem_iff in H2. cbn [List.length Nat.eqb orb].
      rewrite H1, H2. reflexivity.
    + intros c1 c2 -> H1 H2. unfold _suggest_chart_of, two_column_rule.
      rewrite Hn. cbn [List.length Nat.eqb orb].
      rewrite (str_mem_false _ _ H1).
      destruct (String.eqb (sf_type c1) "STRING") eqn:E1; [|reflexivity].
      apply String.eqb_eq in E1.
      rewrite str_mem_false; [reflexivity|]. intros H. apply H2. now split.
    + intros H3. unfold _suggest_chart_of, two_column_rule. rewrite Hn.
      destruct sch as [|a [|b [|c l]]]; simpl in H3; try lia. reflexivity.
Qed.

Lemma suggest_chart_table_witness :
  _suggest_chart
    (BigQueryService.mkQueryResult
       [[("d", "2024-01-01"); ("v", "1.5")]]
       [mkSchemaField "d" "DATE"; mkSchemaField "v" "FLOAT"] 1 12 0)
  = Some (mkChart "line" "Trend Over Time").
Proof.
  pose proof (suggest_chart_table
    (BigQueryService.mkQueryResult
       [[("d", "2024-01-01"); ("v", "1.5")]]
       [mkSchemaField "d" "DATE"; mkSchemaField "v" "FLOAT"] 1 12 0)) as H.
  cbv zeta in H. destruct H as (_ & _ & H).
  destruct (H ltac:(discriminate)) as (_ & Hline & _).
  apply (Hline _ _ eq_refl). simpl. auto.
Defined.

End Chart.

(* ================================================================== *)
(** ** SQL generator: post-processing of the model's answer *)
(* ================================================================== *)

Section PostProcessing.

Import TextToSQLChain.

(** C10. When the stripped answer begins with a triple backtick, every
    occurrence of the triple backtick is deleted from it (after every
    occurrence of the [sql]-tagged fence, when it begins with that), so none
    is left anywhere in the result, not only at its two ends; an answer that
    does not begin with a triple backtick is returned stripped and otherwise
    untouched. *)
Theorem extract_sql_deletes_every_fence (content : string) :
  (startswith "```sql" (strip content) = true ->
     extract_sql content
     = strip (replace "```" "" (replace "```sql" "" (strip content)))) /\
  (startswith "```sql" (strip content) = false ->
   startswith "```" (strip content) = true ->
     extract_sql content = strip (replace "```" "" (strip content))) /\
  (startswith "```" (strip content) = true ->
     str_in "```" (extract_sql content) = false /\
     str_in "```sql" (extract_sql content) = false) /\
  (startswith "```" (strip content) = false ->
     extract_sql content = strip content).
Proof.
  assert (Hsub : startswith "```sql" (strip content) = true ->
                 startswith "```" (strip content) = true).
  { intros E. apply startswith_iff in E as [post E].
    apply startswith_iff. exists ("sql" ++ post). now rewrite E. }
  assert (Hnone : startswith "```" (strip content) = true ->
                  str_in "```" (extract_sql content) = false).
  { intros H. unfold extract_sql.
    destruct (startswith "```sql" (strip content)).
    - apply str_in_absent_strip, replace_fence_absent.
    - rewrite H. apply str_in_absent_strip, replace_fence_absent. }
  unfold extract_sql in *. split; [|split; [|split]].
  - now intros ->.
  - now intros -> ->.
  - intros H. split; [now apply Hnone|].
    apply (str_in_absent_longer "```" "sql"). now apply Hnone.
  - intros H.
    destruct (startswith "```sql" (strip content)) eqn:E; [|now rewrite H].
    rewrite Hsub in H by reflexivity. discriminate.
Qed.

Lemma extract_sql_deletes_every_fence_witness :
  extract_sql ("```sql" ++ nl ++ "SELECT ```a``` FROM t" ++ nl ++ "```" ++ nl)
  = strip (replace "```" ""
             (replace "```sql" ""
                (strip ("```sql" ++ nl ++ "SELECT ```a``` FROM t" ++ nl
                                 ++ "```" ++ nl)))).
Proof.
  apply (proj1 (extract_sql_deletes_every_fence _)). reflexivity.
Defined.

Lemma strip_keeps (c : ascii) (a b : string) :
  is_space c = false -> rstrip b = b -> b <> "" ->
  strip (String c a ++ b) = String c a ++ b.
Proof.
  intros Hc Hb Hne. unfold strip. cbn [append lstrip]. rewrite Hc.
  change (String c (a ++ b)) with (String c a ++ b).
  rewrite rstrip_app by congruence. now rewrite Hb.
Qed.

Lemma fence_tail_absent (inner : string) :
  str_in "```sql" inner = false ->
  str_in "```sql" (nl ++ inner ++ nl ++ "```") = false.
Proof.
  intros H.
  change (nl ++ inner ++ nl ++ "```")
    with (String (ascii_of_nat 10) (inner ++ String (ascii_of_nat 10) "```")).
  cbn [str_in]. apply orb_false_iff. split; [reflexivity|].
  apply str_in_absent_app_sep; [reflexivity | exact H | reflexivity].
Qed.

(** The two fences leave the same text to the last pass as soon as the
    inner text holds no [sql]-tagged fence of its own. *)
Lemma extract_sql_fenced_sql (inner : string) :
  str_in "```sql" inner = false ->
  extract_sql (fenced_sql inner)
  = strip (replace "```" "" (nl ++ inner ++ nl ++ "```")).
Proof.
  intros H. unfold extract_sql.
  replace (strip (fenced_sql inner)) with (fenced_sql inner).
  2:{ symmetry.
      apply (strip_keeps "`" ("``sql" ++ nl ++ inner) (nl ++ "```"));
        [reflexivity | reflexivity | discriminate]. }
  unfold fenced_sql.
  replace (startswith "```sql" ("```sql" ++ nl ++ inner ++ nl ++ "```")) with true
    by (symmetry; apply startswith_iff; eexists; reflexivity).
  rewrite replace_head by discriminate.
  rewrite (replace_absent "```sql" "" (nl ++ inner ++ nl ++ "```"))
    by (apply fence_tail_absent; exact H).
  reflexivity.
Qed.

Lemma extract_sql_fenced_bare (inner : string) :
  extract_sql (fenced_bare inner)
  = strip (replace "```" "" (nl ++ inner ++ nl ++ "```")).
Proof.
  unfold extract_sql.
  replace (strip (fenced_bare inner)) with (fenced_bare inner).
  2:{ symmetry.
      apply (strip_keeps "`" ("``" ++ nl ++ inner) (nl ++ "```"));
        [reflexivity | reflexivity | discriminate]. }
  unfold fenced_bare.
  replace (startswith "```sql" ("```" ++ nl ++ inner ++ nl ++ "```")) with false
    by reflexivity.
  replace (startswith "```" ("```" ++ nl ++ inner ++ nl ++ "```")) with true
    by reflexivity.
  rewrite replace_head by discriminate.
  reflexivity.
Qed.

(** C6 (as stated). An inner text that itself holds a [sql]-tagged fence
    comes out differently from the two wrappings: the tagged answer loses
    the whole inner fence, the bare answer only its backticks. *)
Lemma fenced_answers_differ :
  extract_sql (fenced_sql "SELECT '```sql' AS fence")
  <> extract_sql (fenced_bare "SELECT '```sql' AS fence").
Proof.
  assert (H1 : extract_sql (fenced_sql "SELECT '```sql' AS fence")
               = "SELECT '' AS fence") by reflexivity.
  assert (H2 : extract_sql (fenced_bare "SELECT '```sql' AS fence")
               = "SELECT 'sql' AS fence") by reflexivity.
  rewrite H1, H2. discriminate.
Qed.

(** C6 (amended). For every inner text that does not contain the
    [sql]-tagged fence opener, the answer wrapped in a [sql]-tagged fence
    and the answer wrapped in a bare fence yield the same SQL. *)
Theorem fenced_answers_agree (inner : string) :
  str_in "```sql" inner = false ->
  extract_sql (fenced_sql inner) = extract_sql (fenced_bare inner).
Proof.
  intros H. rewrite extract_sql_fenced_sql by exact H.
  now rewrite extract_sql_fenced_bare.
Qed.

Lemma fenced_answers_agree_witness :
  str_in "```sql" "SELECT 1 LIMIT 100" = false /\
  extract_sql (fenced_sql "SELECT 1 LIMIT 100")
  = extract_sql (fenced_bare "SELECT 1 LIMIT 100").
Proof.
  split; [reflexivity | apply fenced_answers_agree; reflexivity].
Defined.

End PostProcessing.

Example extract_sql_ex1 :
  TextToSQLChain.extract_sql (fenced_sql "SELECT 1") = "SELECT 1"
  /\ TextToSQLChain.extract_sql (fenced_bare "SELECT 1") = "SELECT 1"
  /\ TextToSQLChain.extract_sql ("  SELECT 1 " ++ nl) = "SELECT 1".
Proof. repeat split; reflexivity. Qed.

Example extract_sql_ex2 :
  TextToSQLChain.extract_sql (fenced_sql "SELECT ```a``` FROM t") = "SELECT a FROM t".
Proof. reflexivity. Qed.

(* ================================================================== *)
(** ** Context assembler: the global and the project block *)
(* ================================================================== *)

Section ContextBlocks.

Import TextToSQLChain.

Lemma insert_by_perm {A} (key : A -> Z) (x : A) (l : list A) :
  Permutation (insert_by key x l) (x :: l).
Proof.
  induction l as [|y l IH]; simpl; [reflexivity|].
  destruct (key x <=? key y)%Z; [reflexivity|].
  rewrite IH. apply perm_swap.
Qed.

Lemma order_by_perm {A} (key : A -> Z) (l : list A) :
  Permutation (order_by key l) l.
Proof.
  induction l as [|x l IH]; simpl; [reflexivity|].
  rewrite insert_by_perm. now apply perm_skip.
Qed.

Lemma insert_by_sorted {A} (key : A -> Z) (x : A) (l : list A) :
  StronglySorted (fun a b => (key a <= key b)%Z) l ->
  StronglySorted (fun a b => (key a <= key b)%Z) (insert_by key x l).
Proof.
  induction 1 as [|y l Hs IH Hall]; simpl.
  - constructor; constructor.
  - destruct (key x <=? key y)%Z eqn:E.
    + apply Z.leb_le in E. constructor; [now constructor|].
      constructor; [exact E|].
      eapply Forall_impl; [|exact Hall]. simpl. intros; lia.
    + apply Z.leb_gt in E. constructor; [exact IH|].
      eapply Permutation_Forall; [symmetry; apply insert_by_perm|].
      constructor; [lia | exact Hall].
Qed.

Lemma order_by_sorted {A} (key : A -> Z) (l : list A) :
  StronglySorted (fun a b => (key a <= key b)%Z) (order_by key l).
Proof.
  induction l as [|x l IH]; simpl; [constructor | now apply insert_by_sorted].
Qed.

Lemma order_by_nil_iff {A} (key : A -> Z) (l : list A) :
  order_by key l = [] <-> l = [].
Proof.
  split; [|now intros ->].
  intros H. apply Permutation_nil. rewrite <- H. apply order_by_perm.
Qed.

Lemma concat_empty_sep_cons (x : string) (l : list string) :
  String.concat "" (x :: l) = x ++ String.concat "" l.
Proof. destruct l; simpl; [now rewrite str_app_nil_r | reflexivity]. Qed.

(** The [+=] loop of a block is the concatenation of its lines. *)
Lemma fold_left_lines {A} (line : A -> string) (l : list A) (acc : string) :
  fold_left (fun a x => a ++ line x) l acc
  = acc ++ String.concat "" (map line l).
Proof.
  revert acc; induction l as [|x l IH]; intros acc.
  - simpl. now rewrite str_app_nil_r.
  - cbn [fold_left map]. rewrite IH, concat_empty_sep_cons.
    now rewrite str_app_assoc.
Qed.

Lemma rules_section_spec (rules : list ProjectMemory) :
  rules_section rules = spec_rules_block rules.
Proof.
  destruct rules as [|r rules]; [reflexivity|].
  unfold rules_section, spec_rules_block.
  rewrite (fold_left_lines
             (fun rule => "- " ++ pm_key rule ++ ": " ++ pm_content rule ++ nl)).
  reflexivity.
Qed.

Lemma instructions_section_spec (instructions : list ProjectInstruction) :
  instructions_section instructions = spec_instructions_block instructions.
Proof.
  destruct instructions as [|i instructions]; [reflexivity|].
  unfold instructions_section, spec_instructions_block.
  rewrite (fold_left_lines (fun inst => "- " ++ pi_instruction_text inst ++ nl)).
  reflexivity.
Qed.

(** C9. With no active global instruction the global-rules block is the
    built-in ruleset, verbatim; with no memory entry and no active
    instruction for the project the project block is the "no rules"
    sentinel; otherwise it is the memory entries of that project and of no
    other, in table order, each labelled [key: content], followed by the
    active instructions of that project in ascending priority. *)
Theorem context_blocks (self : t) (d : Database) :
  (filter gi_active (global_instructions d) = [] ->
     _load_global_memory d = fallback_global_rules) /\
  (rows_of_project_memory self d = [] ->
   rows_of_project_instructions self d = [] ->
     _load_project_memory self d = no_rules_sentinel) /\
  (rows_of_project_memory self d <> []
   \/ rows_of_project_instructions self d <> [] ->
     exists instructions,
       Permutation instructions (rows_of_project_instructions self d) /\
       StronglySorted by_priority instructions /\
       _load_project_memory self d
       = spec_rules_block (rows_of_project_memory self d)
         ++ spec_instructions_block instructions).
Proof.
  assert (Hrules : project_rules self d = rows_of_project_memory self d)
    by reflexivity.
  split; [|split].
  - intros H. unfold _load_global_memory, active_global_instructions.
    now rewrite H.
  - intros Hr Hi. unfold _load_project_memory, active_project_instructions.
    fold (rows_of_project_instructions self d). now rewrite Hrules, Hr, Hi.
  - intros H. exists (active_project_instructions self d).
    unfold active_project_instructions.
    fold (rows_of_project_instructions self d).
    split; [apply order_by_perm|]. split; [apply order_by_sorted|].
    unfold _load_project_memory, active_project_instructions.
    fold (rows_of_project_instructions self d).
    rewrite rules_section_spec, instructions_section_spec, Hrules.
    destruct (rows_of_project_memory self d) as [|r rules] eqn:Er.
    + destruct H as [H|H]; [congruence|].
      destruct (order_by pi_priority (rows_of_project_instructions self d))
        as [|i l] eqn:Eo.
      * apply order_by_nil_iff in Eo. congruence.
      * reflexivity.
    + reflexivity.
Qed.

Lemma context_blocks_witness :
  _load_global_memory Sample.database = fallback_global_rules /\
  rows_of_project_memory (chain_of Sample.request) Sample.database
  = [mkProjectMemory "p1" "revenue" "Revenue = gross_sales - returns"] /\
  exists instructions,
    Permutation instructions
      (rows_of_project_instructions (chain_of Sample.request) Sample.database) /\
    StronglySorted by_priority instructions /\
    _load_project_memory (chain_of Sample.request) Sample.database
    = spec_rules_block
        [mkProjectMemory "p1" "revenue" "Revenue = gross_sales - returns"]
      ++ spec_instructions_block instructions.
Proof.
  destruct (context_blocks (chain_of Sample.request) Sample.database)
    as (H1 & _ & H3).
  split; [apply H1; reflexivity|]. split; [reflexivity|].
  apply H3; left; vm_compute; discriminate.
Defined.

End ContextBlocks.

Example project_block_ex :
  TextToSQLChain._load_project_memory (chain_of Sample.request) Sample.database
  = "BUSINESS RULES & DOMAIN KNOWLEDGE:" ++ nl
    ++ "- revenue: Revenue = gross_sales - returns" ++ nl ++ nl
    ++ "PROJECT-SPECIFIC INSTRUCTIONS:" ++ nl
    ++ "- Never join on names" ++ nl
    ++ "- Prefer the orders table" ++ nl.
Proof. reflexivity. Qed.

Example empty_project_block_ex :
  TextToSQLChain._load_project_memory
    (TextToSQLChain.mk "p9" "u1" None "m") Sample.database
  = "No project-specific rules defined.".
Proof. reflexivity. Qed.

(* ================================================================== *)
(** ** The orchestrator: how an invocation runs *)
(* ================================================================== *)

Section Runs.

Import TextToSQLChain BigQueryService QueryService.

Lemma Return_inj {A} (a b : A) : Return a = Return b -> a = b.
Proof. now intros [= ->]. Qed.

Lemma generate_sql_run (env : Env) (self : TextToSQLChain.t) (q : string)
  (w : World) :
  generate_sql env self q w =
  let prompt := build_prompt self (db w) q in
  match llm env (TextToSQLChain.model self) prompt with
  | LlmContent c d =>
      (Return (mkSqlResult (extract_sql c)
                 (Z.of_nat (String.length template + String.length q
                            + String.length (extract_sql c)) / 4)
                 (clock_ms w + d - clock_ms w)),
       advance_clock d (record_llm_call prompt w))
  | LlmError e d =>
      (Raise (Exception ("SQL generation failed: " ++ exn_msg e)),
       advance_clock d (record_llm_call prompt w))
  end.
Proof.
  unfold generate_sql, bind, try_except, time_ms, get, ainvoke, ret, raise.
  cbv zeta.
  destruct (llm env (TextToSQLChain.model self) (build_prompt self (db w) q));
    reflexivity.
Qed.

Lemma same_store_refl (w : World) : same_store w w.
Proof. now split. Qed.

Lemma same_store_trans (w1 w2 w3 : World) :
  same_store w1 w2 -> same_store w2 w3 -> same_store w1 w3.
Proof. intros [a b c] [a' b' c']. split; congruence. Qed.

Lemma generate_sql_frame (env : Env) (self : TextToSQLChain.t) (q : string)
  (w : World) :
  same_store w (snd (generate_sql env self q w)) /\
  warehouse_calls (snd (generate_sql env self q w)) = warehouse_calls w.
Proof.
  rewrite generate_sql_run. cbv zeta.
  destruct (llm env _ _); cbn; split; try split; reflexivity.
Qed.

Lemma get_client_world (env : Env) (pid : string) (w : World) :
  snd (_get_client env pid w) = w.
Proof.
  unfold _get_client.
  destruct (find _ _) as [p|]; [|reflexivity].
  destruct (p_credentials_encrypted p) as [c|]; [|reflexivity].
  destruct (negb (truthy c)); [reflexivity|].
  destruct (make_client env c); reflexivity.
Qed.

Lemma execute_query_frame (env : Env) (pid sql : string) (w : World) :
  same_store w (snd (execute_query env pid sql w)).
Proof.
  unfold execute_query, bind, try_except, time_ms, client_query, ret, raise.
  pose proof (get_client_world env pid w) as Hc.
  destruct (_get_client env pid w) as [[[]|e] w1]; cbn in Hc; subst w1.
  - destruct (warehouse env sql); cbn; split; reflexivity.
  - cbn. split; reflexivity.
Qed.

Lemma progress_frame (env : Env) (rq : Request) (w : World) :
  same_store w (world_of (progress env rq w)).
Proof.
  unfold progress.
  pose proof (generate_sql_frame env (chain_of rq) (question rq) (snd (uuid4 w)))
    as [Hg _].
  assert (H0 : same_store w (snd (uuid4 w))) by (split; reflexivity).
  destruct (generate_sql _ _ _ _) as [[g|e] wg]; cbn [snd] in Hg.
  2:{ cbn. eapply same_store_trans; eassumption. }
  destruct (_is_dangerous_sql (sr_sql g)).
  { cbn. eapply same_store_trans; eassumption. }
  pose proof (execute_query_frame env (project_id rq) (sr_sql g) wg) as He.
  destruct (execute_query _ _ _ _) as [[x|e] we]; cbn [snd] in He; cbn;
    eapply same_store_trans; try eassumption;
    eapply same_store_trans; eassumption.
Qed.

(** Before EXECUTE is entered the warehouse has not been called. *)
Lemma progress_no_warehouse (env : Env) (rq : Request) (w : World) :
  match progress env rq w with
  | GenerationFailed _ wx | SafetyRejected _ wx =>
      warehouse_calls wx = warehouse_calls w
  | _ => True
  end.
Proof.
  unfold progress.
  pose proof (generate_sql_frame env (chain_of rq) (question rq) (snd (uuid4 w)))
    as [_ Hg].
  destruct (generate_sql _ _ _ _) as [[g|e] wg]; cbn [snd] in Hg; [|exact Hg].
  destruct (_is_dangerous_sql (sr_sql g)); [exact Hg|].
  destruct (execute_query _ _ _ _) as [[x|e] we]; exact I.
Qed.

Lemma failure_handler_run (t0 : Z) (qid : nat) (e : Exn) (w : World)
  (l : QueryLog) :
  failure_handler t0 qid e (w, l) =
  let entry := log_failed e l in
  let w1 := set_session (add_log entry) w in
  if inactive (session w) then (Raise PendingRollbackError, (w1, entry))
  else match next_commit_fault w with
       | Some e' => (Raise e', (rolled_back w1, entry))
       | None =>
           (Return (failure_response qid entry e (clock_ms w - t0)),
            (committed w1, entry))
       end.
Proof.
  unfold failure_handler, bind, set_local, get_local, lift, db_add_log, modify,
    db_commit, time_ms, ret. cbn.
  destruct (inactive (session w)); [reflexivity|].
  unfold next_commit_fault. cbn.
  destruct (commit_faults w) as [|[e'|] rest]; reflexivity.
Qed.

Lemma save_to_conversation_returns (cid q sq : string) (t : Z) (w : World) :
  _save_to_conversation cid q sq t w
  = (Return tt, snd (_save_to_conversation cid q sq t w)).
Proof.
  unfold _save_to_conversation, bind, db_add_message, modify,
    query_conversation, set_conversation_title, ret. cbn [fst snd].
  destruct (find _ _) as [c|]; [|reflexivity].
  destruct (negb (truthy_opt (c_title c))); reflexivity.
Qed.

(** [process_question], stage by stage: the stages run, then the audit
    record is finalized and committed, on the success path together with the
    conversation turns. *)
Lemma process_question_run (env : Env) (rq : Request) (w : World) :
  process_question env rq w =
  let qid := next_uuid w in
  let t0 := clock_ms w in
  let p := progress env rq w in
  let wx := world_of p in
  let entry := entry_of rq qid p in
  match p with
  | Executed g x _ =>
      let wp := before_commit rq g entry wx in
      if inactive (session wp) then
        (Raise PendingRollbackError,
         set_session (add_log (log_failed PendingRollbackError entry)) wp)
      else match next_commit_fault wp with
           | Some e' =>
               (Raise PendingRollbackError,
                set_session (add_log (log_failed e' entry)) (rolled_back wp))
           | None =>
               (Return (success_response qid g x (clock_ms wx - t0)),
                committed wp)
           end
  | _ =>
      let e := match failure_of p with
               | Some e => e
               | None => safety_rejection
               end in
      let w1 := set_session (add_log (log_failed e entry)) wx in
      if inactive (session wx) then (Raise PendingRollbackError, w1)
      else match next_commit_fault wx with
           | Some e' => (Raise e', rolled_back w1)
           | None =>
               (Return (failure_response qid (log_failed e entry) e
                          (clock_ms wx - t0)),
                committed w1)
           end
  end.
Proof.
  unfold process_question, progress.
  unfold bind at 1 2. unfold time_ms at 1. cbn [uuid4 fst snd].
  unfold with_local, try_except.
  set (w0 := mkWorld (db w) (session w) (clock_ms w) (S (next_uuid w))
          (llm_calls w) (warehouse_calls w) (commit_faults w)).
  unfold try_block. unfold bind at 1. unfold lift at 1. cbn [fst snd].
  fold (chain_of rq).
  destruct (generate_sql env (chain_of rq) (question rq) w0) as [[g|e] wg].
  2:{ cbv zeta. rewrite failure_handler_run. cbn [world_of entry_of failure_of].
      cbv zeta.
      destruct (inactive (session wg)); [reflexivity|].
      destruct (next_commit_fault wg); reflexivity. }
  cbv zeta.
  unfold bind at 1. unfold set_local at 1. cbn [fst snd].
  unfold bind at 1.
  destruct (_is_dangerous_sql (sr_sql g)) eqn:Hd.
  { unfold raise at 1. rewrite failure_handler_run.
    cbn [world_of entry_of failure_of]. cbv zeta.
    destruct (inactive (session wg)); [reflexivity|].
    destruct (next_commit_fault wg); reflexivity. }
  unfold ret at 1. unfold bind at 1. unfold lift at 1. cbn [fst snd].
  destruct (execute_query env (project_id rq) (sr_sql g) wg) as [[x|e] we].
  2:{ rewrite failure_handler_run.
      cbn [world_of entry_of failure_of]. cbv zeta.
      destruct (inactive (session we)); [reflexivity|].
      destruct (next_commit_fault we); reflexivity. }
  unfold bind at 1. unfold set_local at 1. cbn [fst snd].
  unfold bind at 1. unfold lift at 1, time_ms at 1. cbn [fst snd].
  unfold bind at 1. unfold get_local at 1. cbn [fst snd].
  unfold bind at 1. unfold lift at 1, db_add_log, modify. cbn [fst snd].
  cbn [world_of entry_of]. cbv zeta.
  set (entry := log_success x (log_generated g (new_log_entry rq (next_uuid w)))).
  set (w1 := set_session (add_log entry) we).
  assert (Hsave :
    (match conversation_id rq with
     | Some cid =>
         if truthy cid
         then lift (_save_to_conversation cid (question rq) (sr_sql g)
                      (sr_tokens_used g))
         else ret tt
     | None => ret tt
     end) (w1, entry)
    = (Return tt, (before_commit rq g entry we, entry))).
  { unfold before_commit. fold w1.
    destruct (conversation_id rq) as [cid|]; [|reflexivity].
    destruct (truthy cid); [|reflexivity].
    unfold lift. cbn [fst snd]. rewrite save_to_conversation_returns.
    reflexivity. }
  unfold bind at 1. rewrite Hsave.
  unfold bind at 1. unfold lift at 1, db_commit. cbn [fst snd].
  destruct (inactive (session (before_commit rq g entry we))) eqn:Hi.
  { rewrite failure_handler_run. cbv zeta. cbn [fst snd]. rewrite Hi.
    reflexivity. }
  destruct (next_commit_fault (before_commit rq g entry we)) as [e'|].
  { rewrite failure_handler_run. cbv zeta. cbn [fst snd]. reflexivity. }
  reflexivity.
Qed.

End Runs.

(* ================================================================== *)
(** ** The orchestrator: what PERSIST writes *)
(* ================================================================== *)

Section Persist.

Import TextToSQLChain BigQueryService QueryService.

Lemma save_to_conversation_world (cid q sq : string) (t : Z) (w : World) :
  snd (_save_to_conversation cid q sq t w)
  = set_session (fun s =>
      mkSession (new_logs s) (new_messages s ++ turns_of cid q sq t)%list
                (dirty_titles s ++ pending_titles cid q (db w))%list
                (inactive s)) w.
Proof.
  unfold _save_to_conversation, bind, db_add_message, modify,
    query_conversation, set_conversation_title, ret, pending_titles.
  cbn [fst snd set_session db session].
  destruct (find _ _) as [c|].
  - destruct (negb (truthy_opt (c_title c))); cbn;
      unfold set_session; cbn; rewrite <- ?app_assoc, ?app_nil_r; reflexivity.
  - cbn. unfold set_session; cbn. rewrite <- ?app_assoc, ?app_nil_r.
    reflexivity.
Qed.

Lemma before_commit_fresh (rq : Request) (g : SqlResult) (entry : QueryLog)
  (w : World) :
  session w = empty_session ->
  before_commit rq g entry w
  = mkWorld (db w)
      (mkSession [entry]
         (match supplied_conversation rq with
          | Some cid => turns_of cid (question rq) (sr_sql g) (sr_tokens_used g)
          | None => []
          end)
         (match supplied_conversation rq with
          | Some cid => pending_titles cid (question rq) (db w)
          | None => []
          end)
         false)
      (clock_ms w) (next_uuid w) (llm_calls w) (warehouse_calls w)
      (commit_faults w).
Proof.
  intros Hs. unfold before_commit, supplied_conversation.
  destruct (conversation_id rq) as [cid|].
  - destruct (truthy cid).
    + rewrite save_to_conversation_world. unfold set_session. cbn.
      rewrite Hs. reflexivity.
    + unfold set_session, add_log. rewrite Hs. reflexivity.
  - unfold set_session, add_log. rewrite Hs. reflexivity.
Qed.

(** A primary key names one row. *)
Lemma conversation_by_id (cs : list Conversation) (c c0 : Conversation) :
  NoDup (map c_id cs) -> In c cs -> In c0 cs -> c_id c = c_id c0 -> c = c0.
Proof.
  induction cs as [|a cs IH]; intros Hnd Hc Hc0 Hid; [contradiction|].
  simpl in Hnd. inversion Hnd as [|? ? Hnotin Hnd']; subst.
  destruct Hc as [-> | Hc], Hc0 as [-> | Hc0]; try reflexivity.
  - exfalso. apply Hnotin. rewrite Hid. now apply in_map.
  - exfalso. apply Hnotin. rewrite <- Hid. now apply in_map.
  - now apply IH.
Qed.

Lemma titles_flushed (cid q : string) (d : Database) :
  NoDup (map c_id (conversations d)) ->
  fold_left (fun cs ct => apply_title ct cs) (pending_titles cid q d)
            (conversations d)
  = map (retitle cid q) (conversations d).
Proof.
  intros Hnd. unfold pending_titles.
  destruct (find _ _) as [c0|] eqn:Hf.
  - apply find_some in Hf as [Hin Hid]. apply String.eqb_eq in Hid.
    destruct (negb (truthy_opt (c_title c0))) eqn:Ht; cbn [fold_left].
    + unfold apply_title. apply map_ext_in. intros c Hc. cbn [fst snd].
      unfold retitle. destruct (String.eqb (c_id c) cid) eqn:E; [|reflexivity].
      apply String.eqb_eq in E.
      assert (c = c0) by (eapply conversation_by_id; eauto; congruence).
      subst c. now rewrite Ht.
    + rewrite <- (map_id (conversations d)) at 1. apply map_ext_in.
      intros c Hc. unfold retitle.
      destruct (String.eqb (c_id c) cid) eqn:E; [|reflexivity].
      apply String.eqb_eq in E.
      assert (c = c0) by (eapply conversation_by_id; eauto; congruence).
      subst c. now rewrite Ht.
  - cbn [fold_left]. rewrite <- (map_id (conversations d)) at 1.
    apply map_ext_in. intros c Hc. unfold retitle.
    now rewrite (find_none _ _ Hf c Hc).
Qed.

(** The run of [process_question] from a fresh session, with the store
    spelled out. *)
Lemma process_question_fresh (env : Env) (rq : Request) (w : World) :
  fresh_session w ->
  let qid := next_uuid w in
  let p := progress env rq w in
  let wx := world_of p in
  let entry := entry_of rq qid p in
  match failure_of p, next_commit_fault w with
  | Some e, None =>
      fst (process_question env rq w)
      = Return (failure_response qid (log_failed e entry) e
                  (clock_ms wx - clock_ms w)) /\
      db (snd (process_question env rq w))
      = flush (mkSession [log_failed e entry] [] [] false) (db w) /\
      warehouse_calls (snd (process_question env rq w)) = warehouse_calls wx
  | Some e, Some e' =>
      fst (process_question env rq w) = Raise e' /\
      db (snd (process_question env rq w)) = db w /\
      warehouse_calls (snd (process_question env rq w)) = warehouse_calls wx
  | None, None =>
      exists g x,
        p = Executed g x wx /\
        fst (process_question env rq w)
        = Return (success_response qid g x (clock_ms wx - clock_ms w)) /\
        db (snd (process_question env rq w))
        = flush (mkSession [entry]
                   (match supplied_conversation rq with
                    | Some cid =>
                        turns_of cid (question rq) (sr_sql g) (sr_tokens_used g)
                    | None => []
                    end)
                   (match supplied_conversation rq with
                    | Some cid => pending_titles cid (question rq) (db w)
                    | None => []
                    end)
                   false) (db w)
  | None, Some e' =>
      fst (process_question env rq w) = Raise PendingRollbackError /\
      db (snd (process_question env rq w)) = db w
  end.
Proof.
  intros Hfresh. unfold fresh_session in Hfresh. cbv zeta.
  rewrite process_question_run. cbv zeta.
  destruct (progress_frame env rq w) as [Hdb Hsess Hfaults].
  assert (Hfault : forall w', commit_faults w' = commit_faults w ->
                              next_commit_fault w' = next_commit_fault w).
  { intros w' H. unfold next_commit_fault. now rewrite H. }
  destruct (progress env rq w) as [e wx | g wx | g e wx | g x wx];
    cbn [world_of failure_of entry_of] in *.
  4:{ rewrite (before_commit_fresh _ _ _ _ (eq_trans Hsess Hfresh)).
      cbn [session inactive].
      rewrite (Hfault (mkWorld _ _ _ _ _ _ _)) by (cbn; exact Hfaults).
      destruct (next_commit_fault w) as [e'|]; cbn [fst snd].
      - split; [reflexivity|]. cbn. exact Hdb.
      - exists g, x. split; [reflexivity|]. split; [reflexivity|].
        cbn. now rewrite Hdb. }
  all: rewrite Hsess, Hfresh; cbn [inactive empty_session];
    rewrite (Hfault wx Hfaults);
    destruct (next_commit_fault w) as [e'|]; cbn [fst snd];
    (split; [reflexivity|]); (split; [|reflexivity]);
    cbn; rewrite ?Hsess, ?Hfresh, ?Hdb; reflexivity.
Qed.

End Persist.

(* ================================================================== *)
(** ** The orchestrator: documented properties *)
(* ================================================================== *)

Section Orchestrator.

Import TextToSQLChain BigQueryService QueryService.

Lemma stage_raises_progress (env : Env) (rq : Request) (w : World) (e : Exn)
  (generated : option string) :
  stage_raises env rq w e generated ->
  failure_of (progress env rq w) = Some e /\
  option_map sr_sql (generated_of (progress env rq w)) = generated.
Proof.
  intros H. unfold progress.
  destruct H as [e wg Hg | g wg Hg Hd | g wg e we Hg Hd He]; rewrite Hg.
  - split; reflexivity.
  - rewrite Hd. split; reflexivity.
  - rewrite Hd, He. split; reflexivity.
Qed.

Lemma execute_sql_directly_run (env : Env) (pid uid sql : string)
  (cid : option string) (w : World) :
  execute_sql_directly env pid uid sql cid w =
  if _is_dangerous_sql sql then
    (Return (mkDirectResponse sql None 0
               (Some "SQL contains forbidden operations")), w)
  else match execute_query env pid sql w with
       | (Return r, w') =>
           (Return (mkDirectResponse sql (Some r) (clock_ms w' - clock_ms w)
                                     None), w')
       | (Raise e, w') =>
           (Return (mkDirectResponse sql None (clock_ms w' - clock_ms w)
                                     (Some (exn_msg e))), w')
       end.
Proof.
  unfold execute_sql_directly, bind, try_except, time_ms, ret, raise.
  destruct (_is_dangerous_sql sql).
  - cbv beta iota. now rewrite Z.sub_diag.
  - cbv beta iota.
    destruct (execute_query env pid sql w) as [[r|e] w']; reflexivity.
Qed.

Lemma execute_sql_directly_frame (env : Env) (pid uid sql : string)
  (cid : option string) (w : World) :
  same_store w (snd (execute_sql_directly env pid uid sql cid w)).
Proof.
  rewrite execute_sql_directly_run.
  destruct (_is_dangerous_sql sql); [apply same_store_refl|].
  pose proof (execute_query_frame env pid sql w) as H.
  destruct (execute_query env pid sql w) as [[r|e] w']; exact H.
Qed.

Lemma process_question_warehouse_calls (env : Env) (rq : Request) (w : World) :
  warehouse_calls (snd (process_question env rq w))
  = warehouse_calls (world_of (progress env rq w)).
Proof.
  rewrite process_question_run. cbv zeta.
  assert (Hb : forall g entry wx,
             warehouse_calls (before_commit rq g entry wx) = warehouse_calls wx).
  { intros g entry wx. unfold before_commit.
    destruct (conversation_id rq) as [cid|]; [|reflexivity].
    destruct (truthy cid); [|reflexivity].
    now rewrite save_to_conversation_world. }
  destruct (progress env rq w) as [e wx | g wx | g e wx | g x wx];
    cbn [world_of failure_of].
  4:{ destruct (inactive _); [cbn; apply Hb|].
      destruct (next_commit_fault _); cbn; apply Hb. }
  all: destruct (inactive (session wx)); [reflexivity|];
    destruct (next_commit_fault wx); reflexivity.
Qed.

(** C1 (as stated). The direct-execution entry point writes no audit
    record, and neither does a question whose commit the store refuses. *)
Lemma invocations_without_audit_record :
  ~ one_audit_record Sample.world
      (snd (execute_sql_directly Sample.env "p1" "u1" "SELECT 1" None
                                 Sample.world)) /\
  ~ one_audit_record Sample.world_store_down
      (snd (process_question Sample.env Sample.request Sample.world_store_down)).
Proof.
  split; intros [entry [H _]]; vm_compute in H; discriminate H.
Qed.

(** C1 (amended). Every invocation of [process_question] that returns,
    with a result or with a structured error, has written exactly one audit
    record, whose status is [success] when the result carries no error and
    [failed] when it carries one; an invocation that raises has written
    none; the direct-execution entry point writes none. *)
Theorem audit_record_per_question (env : Env) (rq : Request) (w : World) :
  fresh_session w ->
  (forall r, fst (process_question env rq w) = Return r ->
     exists entry,
       query_logs (db (snd (process_question env rq w)))
       = (query_logs (db w) ++ [entry])%list /\
       ql_execution_status entry
       = Some (match error r with None => "success" | Some _ => "failed" end)) /\
  (forall e, fst (process_question env rq w) = Raise e ->
     query_logs (db (snd (process_question env rq w))) = query_logs (db w)) /\
  (forall pid uid sql cid,
     query_logs (db (snd (execute_sql_directly env pid uid sql cid w)))
     = query_logs (db w)).
Proof.
  intros Hfresh. pose proof (process_question_fresh env rq w Hfresh) as H.
  cbv zeta in H. split; [|split].
  - intros r Hr.
    destruct (failure_of (progress env rq w)) as [e|],
             (next_commit_fault w) as [e'|].
    + destruct H as (H1 & _). congruence.
    + destruct H as (H1 & H2 & _). rewrite H2.
      eexists. split; [reflexivity|].
      rewrite H1 in Hr. injection Hr as <-. reflexivity.
    + destruct H as (H1 & _). congruence.
    + destruct H as (g & x & Hp & H1 & H2). rewrite H2.
      eexists. split; [reflexivity|].
      rewrite H1 in Hr. injection Hr as <-. rewrite Hp. reflexivity.
  - intros e He.
    destruct (failure_of (progress env rq w)) as [e0|],
             (next_commit_fault w) as [e'|].
    + destruct H as (_ & H2 & _). now rewrite H2.
    + destruct H as (H1 & _). congruence.
    + destruct H as (_ & H2). now rewrite H2.
    + destruct H as (g & x & _ & H1 & _). congruence.
  - intros pid uid sql cid.
    now rewrite (same_db _ _ (execute_sql_directly_frame env pid uid sql cid w)).
Qed.

Lemma audit_record_per_question_witness :
  exists entry,
    query_logs (db (snd (process_question Sample.env_warehouse_down
                           Sample.request Sample.world)))
    = (query_logs (db Sample.world) ++ [entry])%list /\
    ql_execution_status entry = Some "failed".
Proof.
  destruct (audit_record_per_question Sample.env_warehouse_down Sample.request
              Sample.world eq_refl) as (H & _).
  destruct (H _ eq_refl) as (entry & H1 & H2).
  exists entry. split; [exact H1 | exact H2].
Defined.

(** C2. A statement that contains DROP, DELETE, TRUNCATE, ALTER, CREATE or
    UPDATE as a case-insensitive substring, wherever it stands, is rejected
    by the safety gate, and the warehouse is not called: the direct
    entry point returns the rejection with the world untouched, and the
    question pipeline ends with the warehouse trace it started with.  A
    statement that contains none of them passes the gate and goes on to the
    executor. *)
Theorem safety_gate (env : Env) (w : World) :
  (forall sql, denylisted sql <-> _is_dangerous_sql sql = true) /\
  (forall sql, ~ denylisted sql <-> _is_dangerous_sql sql = false) /\
  (forall pid uid sql cid, denylisted sql ->
     exists r,
       fst (execute_sql_directly env pid uid sql cid w) = Return r /\
       d_result r = None /\
       d_error r = Some "SQL contains forbidden operations" /\
       warehouse_calls (snd (execute_sql_directly env pid uid sql cid w))
       = warehouse_calls w) /\
  (forall rq g wg,
     generate_sql env (chain_of rq) (question rq) (snd (uuid4 w))
     = (Return g, wg) ->
     denylisted (sr_sql g) ->
     progress env rq w = SafetyRejected g wg /\
     warehouse_calls (snd (process_question env rq w)) = warehouse_calls w) /\
  (forall pid uid sql cid, ~ denylisted sql ->
     snd (execute_sql_directly env pid uid sql cid w)
     = snd (execute_query env pid sql w)) /\
  (forall rq g wg,
     generate_sql env (chain_of rq) (question rq) (snd (uuid4 w))
     = (Return g, wg) ->
     ~ denylisted (sr_sql g) ->
     world_of (progress env rq w)
     = snd (execute_query env (project_id rq) (sr_sql g) wg)).
Proof.
  split; [|split; [|split; [|split; [|split]]]].
  - intros sql. symmetry. apply gate_iff.
  - intros sql. symmetry. apply gate_accepts_iff.
  - intros pid uid sql cid H. apply gate_iff in H.
    rewrite execute_sql_directly_run, H. eexists. repeat split.
  - intros rq g wg Hg H. apply gate_iff in H.
    assert (Hp : progress env rq w = SafetyRejected g wg).
    { unfold progress. now rewrite Hg, H. }
    split; [exact Hp|].
    rewrite process_question_warehouse_calls.
    pose proof (progress_no_warehouse env rq w) as Hw.
    rewrite Hp in Hw |- *. exact Hw.
  - intros pid uid sql cid H. apply gate_accepts_iff in H.
    rewrite execute_sql_directly_run, H.
    destruct (execute_query env pid sql w) as [[r|e] w']; reflexivity.
  - intros rq g wg Hg H. apply gate_accepts_iff in H.
    unfold progress. rewrite Hg, H.
    destruct (execute_query env (project_id rq) (sr_sql g) wg) as [[r|e] w'];
      reflexivity.
Qed.

Lemma safety_gate_witness :
  denylisted "drop table orders" /\
  (exists r,
     fst (execute_sql_directly Sample.env "p1" "u1" "drop table orders" None
                               Sample.world) = Return r /\
     d_result r = None /\
     d_error r = Some "SQL contains forbidden operations" /\
     warehouse_calls
       (snd (execute_sql_directly Sample.env "p1" "u1" "drop table orders" None
                                  Sample.world))
     = warehouse_calls Sample.world) /\
  warehouse_calls
    (snd (process_question Sample.env_llm_drops Sample.request Sample.world))
  = warehouse_calls Sample.world.
Proof.
  destruct (safety_gate Sample.env Sample.world) as (H1 & _ & H3 & _).
  destruct (safety_gate Sample.env_llm_drops Sample.world) as (_ & _ & _ & H4 & _).
  assert (Hd : denylisted "drop table orders") by (apply H1; reflexivity).
  split; [exact Hd|]. split.
  - apply H3. exact Hd.
  - eapply H4; [reflexivity | exact Hd].
Defined.

(** C3 (as stated). When SQL generation raises and the store then refuses
    the commit of the failed audit record, the call raises instead of
    returning a structured result. *)
Lemma stage_failure_can_raise :
  stage_raises Sample.env_llm_down Sample.request Sample.world_store_down
    (Exception "SQL generation failed: Connection error.") None /\
  fst (process_question Sample.env_llm_down Sample.request
                        Sample.world_store_down)
  = Raise Sample.store_down.
Proof.
  split; [|reflexivity].
  eapply generation_raises. vm_compute. reflexivity.
Qed.

(** C3 (amended). When SQL generation, the safety gate or warehouse
    execution raises an error and the commit of the audit record goes
    through, [process_question] returns a structured result whose error
    field is the message of that error; the audit record written is
    finalized as [failed] with the message and the type of the error; the
    generated-SQL field of the result and of the record is null when
    generation did not complete and the generated SQL when it did. *)
Theorem stage_failure_is_returned (env : Env) (rq : Request) (w : World)
  (e : Exn) (generated : option string) :
  fresh_session w ->
  next_commit_fault w = None ->
  stage_raises env rq w e generated ->
  exists r entry,
    fst (process_question env rq w) = Return r /\
    error r = Some (exn_msg e) /\
    sql r = generated /\
    result r = None /\
    query_logs (db (snd (process_question env rq w)))
    = (query_logs (db w) ++ [entry])%list /\
    ql_execution_status entry = Some "failed" /\
    ql_error_message entry = Some (exn_msg e) /\
    ql_error_type entry = Some (exn_type e) /\
    ql_generated_sql entry = generated.
Proof.
  intros Hfresh Hok Hstage.
  apply stage_raises_progress in Hstage as [Hfail Hgen].
  pose proof (process_question_fresh env rq w Hfresh) as H. cbv zeta in H.
  rewrite Hfail, Hok in H. destruct H as (H1 & H2 & _).
  eexists. eexists. split; [exact H1|]. rewrite H2.
  assert (Hsql : ql_generated_sql (entry_of rq (next_uuid w) (progress env rq w))
                 = generated).
  { rewrite <- Hgen. destruct (progress env rq w); reflexivity. }
  repeat split; try reflexivity; cbn; exact Hsql.
Qed.

Lemma stage_failure_is_returned_witness :
  exists r entry,
    fst (process_question Sample.env_llm_down Sample.request Sample.world)
    = Return r /\
    error r = Some "SQL generation failed: Connection error." /\
    sql r = None /\
    result r = None /\
    query_logs (db (snd (process_question Sample.env_llm_down Sample.request
                                          Sample.world)))
    = (query_logs (db Sample.world) ++ [entry])%list /\
    ql_execution_status entry = Some "failed" /\
    ql_error_message entry = Some "SQL generation failed: Connection error." /\
    ql_error_type entry = Some "Exception" /\
    ql_generated_sql entry = None.
Proof.
  apply (stage_failure_is_returned Sample.env_llm_down Sample.request
           Sample.world
           (Exception "SQL generation failed: Connection error.") None).
  - reflexivity.
  - reflexivity.
  - eapply generation_raises. vm_compute. reflexivity.
Defined.

(** C4. When the store refuses the commit an invocation of
    [process_question] attempts, the invocation raises a persistence error
    to its caller and returns no structured result, also when generation,
    the gate and the warehouse query all succeeded: a failure on the way
    leaves the store's own error to escape from the [except] block, and a
    success leaves the session inactive, so that the commit of the [except]
    block raises in its turn.  Nothing is written. *)
Theorem persistence_failure_propagates (env : Env) (rq : Request) (w : World)
  (e : Exn) :
  fresh_session w ->
  next_commit_fault w = Some e ->
  fst (process_question env rq w)
  = Raise (match failure_of (progress env rq w) with
           | Some _ => e
           | None => PendingRollbackError
           end) /\
  db (snd (process_question env rq w)) = db w.
Proof.
  intros Hfresh Hfault.
  pose proof (process_question_fresh env rq w Hfresh) as H. cbv zeta in H.
  rewrite Hfault in H.
  destruct (failure_of (progress env rq w)).
  - destruct H as (H1 & H2 & _). now split.
  - exact H.
Qed.

Lemma persistence_failure_propagates_witness :
  failure_of (progress Sample.env Sample.request Sample.world_store_down) = None /\
  fst (process_question Sample.env Sample.request Sample.world_store_down)
  = Raise PendingRollbackError /\
  db (snd (process_question Sample.env Sample.request Sample.world_store_down))
  = db Sample.world_store_down.
Proof.
  split; [reflexivity|].
  apply (persistence_failure_propagates Sample.env Sample.request
           Sample.world_store_down Sample.store_down); reflexivity.
Defined.

(** C7. Conversation turns are appended on the success path of
    [process_question] only, and only when a conversation id came with the
    request: then exactly one user turn holding the question and one
    assistant turn holding the generated SQL in a fence are added, and the
    conversation takes the first 100 characters of the question as its title
    exactly when it has none yet.  On every failure path, and on every run
    of the direct-execution entry point, no turn is appended and the
    conversations are unchanged. *)
Theorem conversation_side_effect (env : Env) (rq : Request) (w : World) :
  fresh_session w ->
  NoDup (map c_id (conversations (db w))) ->
  let w' := snd (process_question env rq w) in
  (forall r, fst (process_question env rq w) = Return r -> error r = None ->
     match supplied_conversation rq with
     | Some cid =>
         exists generated,
           sql r = Some generated /\
           messages (db w')
           = (messages (db w)
              ++ turns_of cid (question rq) generated (tokens_used r))%list /\
           conversations (db w')
           = map (retitle cid (question rq)) (conversations (db w))
     | None => conversations_untouched w w'
     end) /\
  (forall r, fst (process_question env rq w) = Return r -> error r <> None ->
     conversations_untouched w w') /\
  (forall e, fst (process_question env rq w) = Raise e ->
     conversations_untouched w w') /\
  (forall pid uid sql cid,
     conversations_untouched w
       (snd (execute_sql_directly env pid uid sql cid w))).
Proof.
  intros Hfresh Hnd w'. subst w'.
  pose proof (process_question_fresh env rq w Hfresh) as H. cbv zeta in H.
  unfold conversations_untouched.
  split; [|split; [|split]].
  - intros r Hr Herr.
    destruct (failure_of (progress env rq w)) as [e0|],
             (next_commit_fault w) as [e'|].
    + destruct H as (H1 & _). congruence.
    + destruct H as (H1 & _). rewrite H1 in Hr. injection Hr as <-.
      discriminate Herr.
    + destruct H as (H1 & _). congruence.
    + destruct H as (g & x & _ & H1 & H2). rewrite H2.
      rewrite H1 in Hr. injection Hr as <-.
      destruct (supplied_conversation rq) as [cid|]; cbn.
      * exists (sr_sql g). split; [reflexivity|]. split; [reflexivity|].
        now apply titles_flushed.
      * split; [apply app_nil_r | reflexivity].
  - intros r Hr Herr.
    destruct (failure_of (progress env rq w)) as [e0|],
             (next_commit_fault w) as [e'|].
    + destruct H as (H1 & _). congruence.
    + destruct H as (_ & H2 & _). rewrite H2. cbn.
      split; [apply app_nil_r | reflexivity].
    + destruct H as (H1 & _). congruence.
    + destruct H as (g & x & _ & H1 & _). rewrite H1 in Hr.
      injection Hr as <-. now contradiction Herr.
  - intros e He.
    destruct (failure_of (progress env rq w)) as [e0|],
             (next_commit_fault w) as [e'|].
    + destruct H as (_ & H2 & _). now rewrite H2.
    + destruct H as (H1 & _). congruence.
    + destruct H as (_ & H2). now rewrite H2.
    + destruct H as (g & x & _ & H1 & _). congruence.
  - intros pid uid sql cid.
    now rewrite (same_db _ _ (execute_sql_directly_frame env pid uid sql cid w)).
Qed.

Lemma conversation_side_effect_witness :
  exists r,
    fst (process_question Sample.env Sample.request Sample.world) = Return r /\
    error r = None /\
    messages (db (snd (process_question Sample.env Sample.request Sample.world)))
    = (messages (db Sample.world)
       ++ turns_of "c1" "How many orders last month?" Sample.generated 170)%list /\
    conversations
      (db (snd (process_question Sample.env Sample.request Sample.world)))
    = [mkConversation "c1" (Some "How many orders last month?");
       mkConversation "c2" (Some "Weekly sales")].
Proof.
  destruct (conversation_side_effect Sample.env Sample.request Sample.world)
    as (H & _).
  - reflexivity.
  - cbn. repeat constructor; cbn; intuition discriminate.
  - eexists. split; [reflexivity|]. split; [reflexivity|].
    destruct (H _ eq_refl eq_refl) as (generated & Hsql & Hm & Hc).
    vm_compute in Hsql. injection Hsql as <-.
    split; [exact Hm | exact Hc].
Defined.

(** C8. Every generation that succeeds reports as its token count the
    floor of a quarter of the characters of the prompt template (597 of
    them), of the user question and of the post-processed SQL, taken
    together; and generation succeeds whenever the language model
    answers. *)
Theorem token_estimate (env : Env) (self : TextToSQLChain.t) (q : string)
  (w : World) :
  (forall r w', generate_sql env self q w = (Return r, w') ->
     sr_tokens_used r
     = ((Z.of_nat (String.length template) + Z.of_nat (String.length q)
         + Z.of_nat (String.length (sr_sql r))) / 4)%Z /\
     sr_tokens_used r
     = ((597 + Z.of_nat (String.length q)
         + Z.of_nat (String.length (sr_sql r))) / 4)%Z) /\
  (forall c d,
     llm env (TextToSQLChain.model self) (build_prompt self (db w) q)
     = LlmContent c d ->
     exists r w', generate_sql env self q w = (Return r, w') /\
                  sr_sql r = extract_sql c).
Proof.
  split.
  - intros r w' H. rewrite generate_sql_run in H. cbv zeta in H.
    destruct (llm env _ _) as [c d|e d]; [|discriminate].
    apply pair_equal_spec in H as [Hr _]. apply Return_inj in Hr. subst r.
    cbn [sr_tokens_used sr_sql]. rewrite !Nat2Z.inj_add.
    split; [reflexivity|]. rewrite template_length.
    change (Z.of_nat 597) with 597%Z. reflexivity.
  - intros c d H. rewrite generate_sql_run. cbv zeta. rewrite H.
    eexists. eexists. split; reflexivity.
Qed.

Lemma token_estimate_witness :
  exists r w',
    generate_sql Sample.env (chain_of Sample.request)
                 "How many orders last month?" Sample.world = (Return r, w') /\
    sr_tokens_used r
    = ((597 + Z.of_nat (String.length "How many orders last month?")
        + Z.of_nat (String.length (sr_sql r))) / 4)%Z /\
    sr_tokens_used r = 170%Z.
Proof.
  destruct (token_estimate Sample.env (chain_of Sample.request)
              "How many orders last month?" Sample.world) as (H1 & H2).
  destruct (H2 _ _ eq_refl) as (r & w' & Hrun & Hsql).
  exists r, w'. split; [exact Hrun|].
  destruct (H1 _ _ Hrun) as (_ & Htok). split; [exact Htok|].
  rewrite Htok, Hsql. reflexivity.
Defined.

End Orchestrator.

(* ================================================================== *)
(** ** End-to-end scenarios *)
(* ================================================================== *)

Example scenario_success :
  let w' := snd (QueryService.process_question Sample.env
                   Sample.request_no_conversation Sample.world) in
  map (fun l => (ql_execution_status l, ql_rows_returned l)) (query_logs (db w'))
  = [(Some "success", Some 1%Z)]
  /\ warehouse_calls w' = [Sample.generated]
  /\ QueryService._is_dangerous_sql Sample.generated = false
  /\ str_in "LIMIT" Sample.generated = true.
Proof. vm_compute. repeat split. Qed.

Example scenario_llm_failure :
  let w' := snd (QueryService.process_question Sample.env_llm_down
                   Sample.request Sample.world) in
  map (fun l => (ql_execution_status l, ql_generated_sql l, ql_error_type l))
      (query_logs (db w'))
  = [(Some "failed", None, Some "Exception")]
  /\ warehouse_calls w' = [].
Proof. vm_compute. repeat split. Qed.

Example scenario_direct_drop :
  let out := QueryService.execute_sql_directly Sample.env "p1" "u1"
               "DROP TABLE x" None Sample.world in
  (exists r, fst out = Return r
             /\ QueryService.d_error r = Some "SQL contains forbidden operations")
  /\ warehouse_calls (snd out) = [].
Proof. vm_compute. split; [eexists; split; reflexivity | reflexivity]. Qed.

(* ================================================================== *)
(** ** Further properties of the pipeline and of its callers *)
(* ================================================================== *)

Lemma Raise_inj {A} (a b : Exn) : @Raise A a = Raise b -> a = b.
Proof. now intros [= ->]. Qed.

(* ================================================================== *)
(** ** Context assembler: the conversation excerpt *)
(* ================================================================== *)

Section ConversationExcerpt.

Import TextToSQLChain.

Lemma last_window {A} (n : nat) (l : list A) :
  rev (firstn n (rev l)) = skipn (List.length l - n) l.
Proof. now rewrite firstn_rev, rev_involutive. Qed.

Lemma recent_messages_window (cid : string) (d : Database) :
  recent_messages cid d
  = skipn (List.length (turns_in cid d) - 5) (turns_in cid d).
Proof. unfold recent_messages. apply last_window. Qed.

Lemma history_fold (msgs : list Message) (acc : string) :
  fold_left (fun acc msg =>
               acc ++ upper (m_role msg) ++ ": " ++ take 200 (m_content msg) ++ nl)
            msgs acc
  = acc ++ String.concat "" (map history_line msgs).
Proof. apply (fold_left_lines history_line). Qed.

(** X1. The conversation excerpt is empty when the chain has no
    conversation id or the conversation has no turn; otherwise it is the
    header followed by the most recent five turns of that conversation (all
    of them when there are fewer), oldest first, each as [ROLE: content]
    with the content cut at 200 characters.  Turns of other conversations
    never show. *)
Theorem conversation_excerpt (self : TextToSQLChain.t) (d : Database) :
  (truthy_opt (conversation_id self) = false ->
     _load_conversation_history self d = "") /\
  (forall cid, conversation_id self = Some cid -> truthy cid = true ->
     let turns := turns_in cid d in
     let shown := skipn (List.length turns - 5) turns in
     List.length shown = Nat.min 5 (List.length turns) /\
     (exists older, turns = (older ++ shown)%list) /\
     (turns = [] -> _load_conversation_history self d = "") /\
     (turns <> [] ->
        _load_conversation_history self d
        = "RECENT CONVERSATION HISTORY:" ++ nl
          ++ String.concat "" (map history_line shown))).
Proof.
  split.
  - unfold _load_conversation_history. destruct (conversation_id self) as [cid|];
      [|reflexivity].
    cbn [truthy_opt]. now intros ->.
  - intros cid Hcid Ht turns shown.
    assert (Hlen : List.length shown = Nat.min 5 (List.length turns)).
    { unfold shown. rewrite length_skipn. lia. }
    split; [exact Hlen|]. split.
    { exists (firstn (List.length turns - 5) turns). unfold shown.
      symmetry. apply firstn_skipn. }
    unfold _load_conversation_history. rewrite Hcid, Ht. cbn [negb].
    rewrite recent_messages_window. fold turns. fold shown. split.
    + intros Hnil. unfold shown. now rewrite Hnil.
    + intros Hne. destruct shown as [|m shown'] eqn:Es.
      * destruct turns; [congruence | simpl in Hlen; lia].
      * now rewrite history_fold.
Qed.

Lemma conversation_excerpt_witness :
  _load_conversation_history (TextToSQLChain.mk "p1" "u1" (Some "c2") "m")
                             Sample.database
  = "RECENT CONVERSATION HISTORY:" ++ nl ++ "USER: Sales per week?" ++ nl.
Proof.
  destruct (conversation_excerpt (TextToSQLChain.mk "p1" "u1" (Some "c2") "m")
              Sample.database) as (_ & H).
  destruct (H "c2" eq_refl eq_refl) as (_ & _ & _ & H4).
  rewrite H4; [reflexivity | vm_compute; discriminate].
Defined.

Lemma length_take (n : nat) (s : string) : (String.length (take n s) <= n)%nat.
Proof.
  unfold take. revert s; induction n as [|n IH]; intros s.
  - destruct s; simpl; lia.
  - destruct s as [|c s]; simpl; [lia|]. specialize (IH s). lia.
Qed.

Lemma length_upper (s : string) : String.length (upper s) = String.length s.
Proof. induction s as [|c s IH]; simpl; [reflexivity | now rewrite IH]. Qed.

Lemma length_concat_lines {A} (line : A -> string) (bound : nat) (l : list A) :
  (forall x, In x l -> (String.length (line x) <= bound)%nat) ->
  (String.length (String.concat "" (map line l)) <= List.length l * bound)%nat.
Proof.
  induction l as [|x l IH]; intros H; [simpl; lia|].
  cbn [map]. rewrite concat_empty_sep_cons, str_length_app. cbn [List.length].
  specialize (H x (or_introl eq_refl)) as Hx.
  assert (Hl : forall y, In y l -> (String.length (line y) <= bound)%nat)
    by (intros y Hy; apply H; now right).
  specialize (IH Hl). lia.
Qed.

(** X2. The conversation excerpt is bounded whatever the conversation
    holds: when no role is longer than [R] characters, the excerpt is at
    most [29 + 5 * (R + 203)] characters long (the header, and five lines of
    a role, a separator, 200 characters of content and a line feed). *)
Theorem conversation_excerpt_bounded (self : TextToSQLChain.t) (d : Database)
  (R : nat) :
  (forall m, In m (messages d) -> (String.length (m_role m) <= R)%nat) ->
  (String.length (_load_conversation_history self d) <= 29 + 5 * (R + 203))%nat.
Proof.
  intros Hrole. unfold _load_conversation_history.
  destruct (conversation_id self) as [cid|]; [|simpl; lia].
  destruct (negb (truthy cid)); [simpl; lia|].
  rewrite recent_messages_window.
  set (shown := skipn _ _).
  assert (Hshown : (List.length shown <= 5)%nat).
  { unfold shown. rewrite length_skipn. lia. }
  assert (Hin : forall m, In m shown -> In m (messages d)).
  { intros m Hm. unfold shown in Hm.
    assert (Hm' : In m (turns_in cid d)).
    { rewrite <- (firstn_skipn (List.length (turns_in cid d) - 5)).
      apply in_or_app. now right. }
    unfold turns_in in Hm'. now apply filter_In in Hm' as [Hm' _]. }
  destruct shown as [|m0 shown'] eqn:Es; [simpl; lia|].
  rewrite history_fold, str_length_app.
  assert (Hline : forall m, In m (m0 :: shown') ->
                    (String.length (history_line m) <= R + 203)%nat).
  { intros m Hm. unfold history_line.
    rewrite !str_length_app, length_upper.
    pose proof (length_take 200 (m_content m)).
    pose proof (Hrole m (Hin m Hm)). simpl String.length. lia. }
  pose proof (length_concat_lines history_line (R + 203) (m0 :: shown') Hline).
  assert (Hh : String.length ("RECENT CONVERSATION HISTORY:" ++ nl) = 29%nat)
    by reflexivity.
  rewrite Hh. nia.
Qed.

Lemma conversation_excerpt_bounded_witness :
  (String.length
     (_load_conversation_history (TextToSQLChain.mk "p1" "u1" (Some "c2") "m")
                                 Sample.database)
   <= 29 + 5 * (9 + 203))%nat.
Proof.
  apply (conversation_excerpt_bounded _ Sample.database 9).
  intros m [<- | []]. simpl. lia.
Defined.

End ConversationExcerpt.

(* ================================================================== *)
(** ** Context assembler: the schema description *)
(* ================================================================== *)

Section SchemaDescription.

Import TextToSQLChain.

Lemma concat_empty_sep_app (l1 l2 : list string) :
  String.concat "" (l1 ++ l2)%list = String.concat "" l1 ++ String.concat "" l2.
Proof.
  induction l1 as [|x l1 IH]; [reflexivity|].
  change ((x :: l1) ++ l2)%list with (x :: (l1 ++ l2)%list).
  now rewrite !concat_empty_sep_cons, IH, str_app_assoc.
Qed.

Lemma str_in_inside (x pre post : string) :
  str_in x (pre ++ x ++ post) = true.
Proof. apply str_in_iff. now exists pre, post. Qed.

Lemma str_in_within (x a pre post : string) :
  str_in x a = true -> str_in x (pre ++ a ++ post) = true.
Proof.
  intros H. apply str_in_iff in H as (p & q & ->). apply str_in_iff.
  exists (pre ++ p), (q ++ post). now rewrite !str_app_assoc.
Qed.

Lemma str_in_concat_member (x : string) (l : list string) :
  In x l -> str_in x (String.concat "" l) = true.
Proof.
  intros H. apply in_split in H as (l1 & l2 & ->).
  rewrite concat_empty_sep_app, concat_empty_sep_cons. apply str_in_inside.
Qed.

Lemma render_table_block (p : Project) (acc : string)
  (entry : string * TableInfo) :
  render_table p acc entry = acc ++ table_block p entry.
Proof.
  unfold render_table, table_block.
  destruct (ti_columns (snd entry)) as [cols|].
  - rewrite (fold_left_lines
               (fun col => "  - " ++ get_or (cc_name col) "unknown" ++ " ("
                                  ++ get_or (cc_type col) "unknown" ++ ")" ++ nl)).
    now rewrite !str_app_assoc.
  - now rewrite !str_app_assoc.
Qed.

Lemma render_tables (p : Project) (cache : list (string * TableInfo))
  (acc : string) :
  fold_left (render_table p) cache acc
  = acc ++ String.concat "" (map (table_block p) cache).
Proof.
  revert acc; induction cache as [|entry cache IH]; intros acc.
  - simpl. now rewrite str_app_nil_r.
  - cbn [fold_left map]. rewrite IH, render_table_block, concat_empty_sep_cons.
    now rewrite str_app_assoc.
Qed.

Lemma str_in_at_head (x rest : string) : str_in x (x ++ rest) = true.
Proof. apply str_in_iff. now exists "", rest. Qed.

Lemma table_block_name (project : Project) (name : string) (info : TableInfo) :
  str_in ("Table: " ++ p_bigquery_project_id project ++ "."
                    ++ p_bigquery_dataset project ++ "." ++ name ++ nl)
         (table_block project (name, info)) = true.
Proof.
  unfold table_block. cbn [fst snd].
  set (rest := match ti_columns info with Some _ => _ | None => _ end ++ nl).
  replace ("Table: " ++ p_bigquery_project_id project ++ "."
             ++ p_bigquery_dataset project ++ "." ++ name ++ nl ++ rest)
    with (("Table: " ++ p_bigquery_project_id project ++ "."
             ++ p_bigquery_dataset project ++ "." ++ name ++ nl) ++ rest).
  - apply str_in_at_head.
  - repeat first [rewrite str_app_assoc | progress cbn [append]]. reflexivity.
Qed.

Lemma table_block_column (project : Project) (name : string) (info : TableInfo)
  (cols : list CacheColumn) (col : CacheColumn) :
  ti_columns info = Some cols -> In col cols ->
  str_in ("  - " ++ get_or (cc_name col) "unknown" ++ " ("
                 ++ get_or (cc_type col) "unknown" ++ ")" ++ nl)
         (table_block project (name, info)) = true.
Proof.
  intros Hcols Hcol. unfold table_block. cbn [fst snd]. rewrite Hcols.
  set (line := fun c => "  - " ++ get_or (cc_name c) "unknown" ++ " ("
                              ++ get_or (cc_type c) "unknown" ++ ")" ++ nl).
  change ("  - " ++ get_or (cc_name col) "unknown" ++ " ("
                 ++ get_or (cc_type col) "unknown" ++ ")" ++ nl) with (line col).
  assert (Hl : str_in (line col) (String.concat "" (map line cols)) = true).
  { apply str_in_concat_member. now apply (in_map line). }
  set (head := "Table: " ++ p_bigquery_project_id project ++ "."
                 ++ p_bigquery_dataset project ++ "." ++ name ++ nl).
  replace ("Table: " ++ p_bigquery_project_id project ++ "."
             ++ p_bigquery_dataset project ++ "." ++ name ++ nl
             ++ ("Columns:" ++ nl ++ String.concat "" (map line cols)) ++ nl)
    with ((head ++ "Columns:" ++ nl) ++ String.concat "" (map line cols) ++ nl).
  - now apply str_in_within.
  - unfold head. repeat first [rewrite str_app_assoc | progress cbn [append]]. reflexivity.
Qed.

(** X3. Without a project row, or with a schema cache that is absent or
    empty, the schema description is the fixed "no schema" message.
    Otherwise it is the header followed by one block per cached table, in
    the order of the cache: every table shows on a line of its own under its
    fully qualified name [project.dataset.table], and every column of it as
    [  - name (type)], with [unknown] standing for a missing name or
    type. *)
Theorem schema_description (self : TextToSQLChain.t) (d : Database) :
  let found := find (fun p => String.eqb (p_id p) (project_id self))
                    (projects d) in
  (found = None -> _get_schema_context self d = no_schema_message) /\
  (forall project, found = Some project ->
     (p_schema_cache project = None \/ p_schema_cache project = Some [] ->
        _get_schema_context self d = no_schema_message) /\
     (forall cache, p_schema_cache project = Some cache -> cache <> [] ->
        _get_schema_context self d
        = "AVAILABLE TABLES AND SCHEMA:" ++ nl ++ nl
          ++ String.concat "" (map (table_block project) cache) /\
        (forall name info, In (name, info) cache ->
           str_in ("Table: " ++ p_bigquery_project_id project ++ "."
                             ++ p_bigquery_dataset project ++ "." ++ name ++ nl)
                  (_get_schema_context self d) = true /\
           (forall cols col, ti_columns info = Some cols -> In col cols ->
              str_in ("  - " ++ get_or (cc_name col) "unknown" ++ " ("
                             ++ get_or (cc_type col) "unknown" ++ ")" ++ nl)
                     (_get_schema_context self d) = true)))).
Proof.
  intros found. unfold _get_schema_context. fold found. split.
  - now intros ->.
  - intros project ->. split.
    + intros [-> | ->]; reflexivity.
    + intros cache Hc Hne. rewrite Hc.
      destruct cache as [|e0 cache']; [congruence|].
      set (cache := e0 :: cache') in *.
      assert (Hblock :
        fold_left (render_table project) cache
                  ("AVAILABLE TABLES AND SCHEMA:" ++ nl ++ nl)
        = "AVAILABLE TABLES AND SCHEMA:" ++ nl ++ nl
          ++ String.concat "" (map (table_block project) cache)).
      { rewrite render_tables. now rewrite !str_app_assoc. }
      rewrite Hblock. split; [reflexivity|].
      intros name info Hin.
      assert (Htab : str_in (table_block project (name, info))
                (String.concat "" (map (table_block project) cache)) = true).
      { apply str_in_concat_member. now apply (in_map (table_block project)) in Hin. }
      assert (Hwhole : forall x,
                str_in x (table_block project (name, info)) = true ->
                str_in x ("AVAILABLE TABLES AND SCHEMA:" ++ nl ++ nl
                          ++ String.concat "" (map (table_block project) cache))
                = true).
      { intros x Hx.
        apply str_in_iff in Htab as (pre & post & Hcat).
        rewrite Hcat.
        replace ("AVAILABLE TABLES AND SCHEMA:" ++ nl ++ nl
                 ++ pre ++ table_block project (name, info) ++ post)
          with (("AVAILABLE TABLES AND SCHEMA:" ++ nl ++ nl ++ pre)
                ++ table_block project (name, info) ++ post)
          by (now rewrite !str_app_assoc).
        now apply str_in_within. }
      split.
      * apply Hwhole. apply table_block_name.
      * intros cols col Hcols Hcol. apply Hwhole.
        now apply (table_block_column project name info cols col).
Qed.

Lemma schema_description_witness :
  str_in ("Table: acme-bq.sales.orders" ++ nl)
         (_get_schema_context (chain_of Sample.request) Sample.database) = true /\
  str_in ("  - placed_at (unknown)" ++ nl)
         (_get_schema_context (chain_of Sample.request) Sample.database) = true.
Proof.
  destruct (schema_description (chain_of Sample.request) Sample.database)
    as (_ & H).
  destruct (H Sample.project eq_refl) as (_ & H2).
  destruct (H2 _ eq_refl ltac:(discriminate)) as (_ & H3).
  destruct (H3 "orders" _ (or_introl eq_refl)) as (Ht & Hc).
  split; [exact Ht|].
  apply (Hc _ (mkCacheColumn (Some "placed_at") None) eq_refl).
  right. left. reflexivity.
Defined.

End SchemaDescription.

(* ================================================================== *)
(** ** Context assembler: the global rules when some are active *)
(* ================================================================== *)

Section GlobalRules.

Import TextToSQLChain.

(** X4. As soon as one global instruction is active, the global-rules
    block is made of the active instructions alone, one [- text] per line,
    in ascending priority: inactive instructions never show, and the
    built-in ruleset is replaced, not added to. *)
Theorem global_rules_block (d : Database) :
  filter gi_active (global_instructions d) <> [] ->
  exists shown,
    Permutation shown (filter gi_active (global_instructions d)) /\
    StronglySorted by_global_priority shown /\
    _load_global_memory d
    = join nl (map (fun inst => "- " ++ gi_instruction_text inst) shown).
Proof.
  intros Hne. exists (active_global_instructions d).
  unfold active_global_instructions.
  split; [apply order_by_perm|]. split; [apply order_by_sorted|].
  unfold _load_global_memory, active_global_instructions.
  destruct (order_by gi_priority (filter gi_active (global_instructions d)))
    as [|i l] eqn:E; [|reflexivity].
  apply order_by_nil_iff in E. contradiction.
Qed.

Lemma global_rules_block_witness :
  exists shown,
    Permutation shown
      [mkGlobalInstruction "Use UTC" 2 true;
       mkGlobalInstruction "Quote identifiers" 1 true] /\
    StronglySorted by_global_priority shown /\
    _load_global_memory
      (mkDatabase [mkGlobalInstruction "Use UTC" 2 true;
                   mkGlobalInstruction "Old rule" 0 false;
                   mkGlobalInstruction "Quote identifiers" 1 true]
                  [] [] [] [] [] [])
    = join nl (map (fun inst => "- " ++ gi_instruction_text inst) shown).
Proof.
  apply (global_rules_block
           (mkDatabase [mkGlobalInstruction "Use UTC" 2 true;
                        mkGlobalInstruction "Old rule" 0 false;
                        mkGlobalInstruction "Quote identifiers" 1 true]
                       [] [] [] [] [] [])).
  vm_compute. discriminate.
Defined.

End GlobalRules.

(* ================================================================== *)
(** ** SQL generator: shape of the post-processed answer *)
(* ================================================================== *)

Section PostProcessed.

Import TextToSQLChain.

Lemma lstrip_starts_clean (s : string) : starts_clean (lstrip s).
Proof.
  induction s as [|c s IH]; simpl; [exact I|].
  destruct (is_space c) eqn:E; [exact IH | exact E].
Qed.

Lemma lstrip_clean (s : string) : starts_clean s -> lstrip s = s.
Proof. destruct s as [|c s]; simpl; [reflexivity | now intros ->]. Qed.

Lemma rstrip_starts_clean (s : string) : starts_clean s -> starts_clean (rstrip s).
Proof.
  destruct s as [|c s]; simpl; [trivial|]. intros Hc.
  destruct (rstrip s); rewrite ?Hc; exact Hc.
Qed.

Lemma rstrip_idem (s : string) : rstrip (rstrip s) = rstrip s.
Proof.
  induction s as [|c s IH]; [reflexivity|].
  cbn [rstrip]. destruct (rstrip s) as [|r0 r] eqn:E.
  - destruct (is_space c) eqn:Ec; [reflexivity|].
    cbn [rstrip]. now rewrite Ec.
  - change (rstrip (String c (String r0 r)))
      with (match rstrip (String r0 r) with
            | EmptyString =>
                if is_space c then EmptyString else String c EmptyString
            | r' => String c r'
            end).
    now rewrite IH.
Qed.

Lemma strip_idem (s : string) : strip (strip s) = strip s.
Proof.
  unfold strip.
  rewrite (lstrip_clean (rstrip (lstrip s)))
    by (apply rstrip_starts_clean, lstrip_starts_clean).
  apply rstrip_idem.
Qed.

Lemma startswith_str_in (p s : string) :
  startswith p s = true -> str_in p s = true.
Proof. intros H. destruct s; cbn [str_in]; now rewrite H. Qed.

Lemma startswith_shorter (p x s : string) :
  startswith (p ++ x) s = true -> startswith p s = true.
Proof.
  intros H. apply startswith_iff in H as [post ->]. apply startswith_iff.
  exists (x ++ post). now rewrite str_app_assoc.
Qed.

(** X5. The SQL that comes out of the post-processing has no white space
    at either end and does not begin with a fence, so that post-processing
    it again changes nothing. *)
Theorem extract_sql_idempotent (content : string) :
  strip (extract_sql content) = extract_sql content /\
  startswith "```" (extract_sql content) = false /\
  extract_sql (extract_sql content) = extract_sql content.
Proof.
  assert (Hs : strip (extract_sql content) = extract_sql content).
  { unfold extract_sql.
    destruct (startswith "```sql" (strip content));
      [|destruct (startswith "```" (strip content))]; apply strip_idem. }
  assert (Hn : startswith "```" (extract_sql content) = false).
  { assert (Hclean : forall x,
              startswith "```" (strip (replace "```" "" x)) = false).
    { intros x. apply not_true_is_false. intros E.
      apply startswith_str_in in E.
      rewrite str_in_absent_strip in E by apply replace_fence_absent.
      discriminate. }
    unfold extract_sql.
    destruct (startswith "```sql" (strip content)) eqn:E1; [apply Hclean|].
    destruct (startswith "```" (strip content)) eqn:E2; [apply Hclean|].
    exact E2. }
  split; [exact Hs|]. split; [exact Hn|].
  unfold extract_sql at 1. rewrite Hs, Hn.
  destruct (startswith "```sql" (extract_sql content)) eqn:E; [|reflexivity].
  apply (startswith_shorter "```" "sql") in E. congruence.
Qed.

End PostProcessed.

(* ================================================================== *)
(** ** SQL generator and query executor: calls and failures *)
(* ================================================================== *)

Section StageCalls.

Import TextToSQLChain BigQueryService QueryService.

Lemma prompt_holds (self : TextToSQLChain.t) (d : Database) (q : string) :
  str_in (_load_global_memory d) (build_prompt self d q) = true /\
  str_in (_load_project_memory self d) (build_prompt self d q) = true /\
  str_in (_get_schema_context self d) (build_prompt self d q) = true /\
  str_in (_load_conversation_history self d) (build_prompt self d q) = true /\
  str_in q (build_prompt self d q) = true.
Proof.
  unfold build_prompt, format_prompt. cbv zeta.
  set (g := _load_global_memory d). set (p := _load_project_memory self d).
  set (s := _get_schema_context self d).
  set (h := _load_conversation_history self d).
  repeat split; apply str_in_iff.
  - exists tpl_head. eexists. reflexivity.
  - exists (tpl_head ++ g ++ tpl_after_global). eexists.
    rewrite !str_app_assoc. reflexivity.
  - exists (tpl_head ++ g ++ tpl_after_global ++ p ++ tpl_after_project).
    eexists. rewrite !str_app_assoc. reflexivity.
  - exists (tpl_head ++ g ++ tpl_after_global ++ p ++ tpl_after_project
                     ++ s ++ tpl_after_schema).
    eexists. rewrite !str_app_assoc. reflexivity.
  - exists (tpl_head ++ g ++ tpl_after_global ++ p ++ tpl_after_project
                     ++ s ++ tpl_after_schema ++ h ++ tpl_after_history).
    exists tpl_tail. rewrite !str_app_assoc. reflexivity.
Qed.

Lemma generate_sql_loaded (faults : BeforeTheCall.Faults) (env : Env)
  (self : TextToSQLChain.t) (q : string) (w : World) :
  BeforeTheCall.loading faults = None ->
  BeforeTheCall.generate_sql faults env self q w = generate_sql env self q w.
Proof.
  intros H. unfold BeforeTheCall.generate_sql, BeforeTheCall.load_context.
  rewrite H. reflexivity.
Qed.

Lemma generate_sql_refused (faults : BeforeTheCall.Faults) (env : Env)
  (self : TextToSQLChain.t) (q : string) (w : World) (e : Exn) :
  BeforeTheCall.loading faults = Some e ->
  BeforeTheCall.generate_sql faults env self q w = (Raise e, w).
Proof.
  intros H. unfold BeforeTheCall.generate_sql, BeforeTheCall.load_context.
  rewrite H. reflexivity.
Qed.

(** X6. [generate_sql] calls the language model at most once and leaves
    the store, the session and the warehouse alone.  When a context loader
    raises, the model is not called and the loader's error comes out as it
    is, not wrapped.  When the context is loaded, the model is called
    exactly once, with a prompt that holds the four context blocks and the
    question verbatim; the SQL returned is the post-processed answer of the
    model; and an error of the model call comes out as a plain [Exception]
    whose message is that error's message behind "SQL generation
    failed: ". *)
Theorem generation_outcomes (faults : BeforeTheCall.Faults) (env : Env)
  (self : TextToSQLChain.t) (q : string) (w : World) :
  let prompt := build_prompt self (db w) q in
  let out := BeforeTheCall.generate_sql faults env self q w in
  same_store w (snd out) /\
  warehouse_calls (snd out) = warehouse_calls w /\
  (forall e, BeforeTheCall.loading faults = Some e ->
     fst out = Raise e /\ llm_calls (snd out) = llm_calls w) /\
  (BeforeTheCall.loading faults = None ->
     llm_calls (snd out) = (llm_calls w ++ [prompt])%list /\
     (str_in (_load_global_memory (db w)) prompt = true /\
      str_in (_load_project_memory self (db w)) prompt = true /\
      str_in (_get_schema_context self (db w)) prompt = true /\
      str_in (_load_conversation_history self (db w)) prompt = true /\
      str_in q prompt = true) /\
     (forall r, fst out = Return r ->
        exists c d,
          llm env (TextToSQLChain.model self) prompt = LlmContent c d /\
          sr_sql r = extract_sql c) /\
     (forall e, fst out = Raise e ->
        exn_type e = "Exception" /\
        exists e0 d,
          llm env (TextToSQLChain.model self) prompt = LlmError e0 d /\
          exn_msg e = "SQL generation failed: " ++ exn_msg e0)).
Proof.
  cbv zeta. destruct (BeforeTheCall.loading faults) as [e0|] eqn:Hload.
  - rewrite (generate_sql_refused faults env self q w e0 Hload). cbn [fst snd].
    split; [apply same_store_refl|]. split; [reflexivity|].
    split; [|discriminate]. intros e [= <-]. now split.
  - rewrite (generate_sql_loaded faults env self q w Hload).
    destruct (generate_sql_frame env self q w) as [Hstore Hwh].
    split; [exact Hstore|]. split; [exact Hwh|]. split; [discriminate|].
    intros _. split; [|split; [apply prompt_holds|split]].
    + rewrite generate_sql_run. cbv zeta. destruct (llm env _ _); reflexivity.
    + intros r. rewrite generate_sql_run. cbv zeta.
      destruct (llm env _ _) as [c d|e1 d]; cbn [fst]; [|discriminate].
      intros H. apply Return_inj in H. subst r. now exists c, d.
    + intros e. rewrite generate_sql_run. cbv zeta.
      destruct (llm env _ _) as [c d|e1 d]; cbn [fst]; [discriminate|].
      intros H. apply Raise_inj in H. subst e.
      split; [reflexivity|]. now exists e1, d.
Qed.

Lemma generation_outcomes_witness :
  (let out := BeforeTheCall.generate_sql
                (BeforeTheCall.mkFaults None (Some Sample.store_down))
                Sample.env (chain_of Sample.request)
                "How many orders last month?" Sample.world in
   fst out = Raise Sample.store_down /\
   llm_calls (snd out) = llm_calls Sample.world) /\
  (exn_type (Exception "SQL generation failed: Connection error.")
   = "Exception" /\
   exists e0 d,
     llm Sample.env_llm_down "claude-3-5-sonnet-20241022"
         (build_prompt (chain_of Sample.request) (db Sample.world)
                       "How many orders last month?") = LlmError e0 d /\
     exn_msg (Exception "SQL generation failed: Connection error.")
     = "SQL generation failed: " ++ exn_msg e0).
Proof.
  cbv zeta. split.
  - destruct (generation_outcomes
                (BeforeTheCall.mkFaults None (Some Sample.store_down))
                Sample.env (chain_of Sample.request)
                "How many orders last month?" Sample.world)
      as (_ & _ & H & _).
    exact (H _ eq_refl).
  - destruct (generation_outcomes BeforeTheCall.no_fault Sample.env_llm_down
                (chain_of Sample.request) "How many orders last month?"
                Sample.world) as (_ & _ & _ & H).
    destruct (H eq_refl) as (_ & _ & _ & H').
    exact (H' _ eq_refl).
Defined.

Lemma execute_query_run (env : Env) (pid sql : string) (w : World) :
  execute_query env pid sql w =
  match fst (_get_client env pid w) with
  | Raise e => (Raise (Exception ("Query execution failed: " ++ exn_msg e)), w)
  | Return _ =>
      match warehouse env sql with
      | WhResult rs fields bytes d =>
          (Return (mkQueryResult rs fields (Z.of_nat (List.length rs))
                     (clock_ms w + d - clock_ms w) (or_zero bytes)),
           advance_clock d (record_warehouse_call sql w))
      | WhError e d =>
          (Raise (Exception ("Query execution failed: " ++ exn_msg e)),
           advance_clock d (record_warehouse_call sql w))
      end
  end.
Proof.
  unfold execute_query, bind, try_except, time_ms, client_query, ret, raise.
  pose proof (get_client_world env pid w) as Hc.
  destruct (_get_client env pid w) as [[[]|e] w1]; cbn [fst snd] in *; subst w1;
    [|reflexivity].
  destruct (warehouse env sql) as [rs f [b|] d | e d]; reflexivity.
Qed.

Lemma get_client_unconfigured (env : Env) (pid : string) (w : World) :
  credentials_configured pid (db w) = false ->
  fst (_get_client env pid w)
  = Raise (ValueError "BigQuery credentials not configured for this project").
Proof.
  unfold credentials_configured, _get_client.
  destruct (find _ _) as [p|]; [|reflexivity].
  destruct (p_credentials_encrypted p) as [c|]; cbn [truthy_opt];
    [|reflexivity].
  now intros ->.
Qed.

(** X7. A query for a project that has no row, or no credentials on file
    (none, or an empty text), never reaches the warehouse: [execute_query]
    raises "Query execution failed: BigQuery credentials not configured for
    this project" and the warehouse trace, the store and the session are as
    before. *)
Theorem execute_query_unconfigured (env : Env) (pid sql : string) (w : World) :
  credentials_configured pid (db w) = false ->
  fst (execute_query env pid sql w)
  = Raise (Exception "Query execution failed: BigQuery credentials not configured for this project") /\
  warehouse_calls (snd (execute_query env pid sql w)) = warehouse_calls w /\
  same_store w (snd (execute_query env pid sql w)).
Proof.
  intros H. rewrite execute_query_run, (get_client_unconfigured env pid w H).
  cbn [fst snd]. repeat split.
Qed.

Lemma execute_query_unconfigured_witness :
  fst (execute_query Sample.env "p9" "SELECT 1" Sample.world)
  = Raise (Exception "Query execution failed: BigQuery credentials not configured for this project") /\
  warehouse_calls (snd (execute_query Sample.env "p9" "SELECT 1" Sample.world))
  = warehouse_calls Sample.world /\
  same_store Sample.world
    (snd (execute_query Sample.env "p9" "SELECT 1" Sample.world)).
Proof.
  apply (execute_query_unconfigured Sample.env "p9" "SELECT 1" Sample.world).
  reflexivity.
Defined.

(** X8. [execute_query] calls the warehouse at most once, with the
    statement it was given, and never writes to the store.  Whatever goes
    wrong comes out as a plain [Exception] whose message begins with "Query
    execution failed: ".  When it returns, the warehouse was called exactly
    once and the result is the warehouse's answer unaltered: its rows, its
    fields, their count as [rows_returned], and [bytes_processed] zero when
    the job reports none. *)
Theorem execute_query_outcomes (env : Env) (pid sql : string) (w : World) :
  let out := execute_query env pid sql w in
  same_store w (snd out) /\
  llm_calls (snd out) = llm_calls w /\
  (forall e, fst out = Raise e ->
     exn_type e = "Exception" /\
     startswith "Query execution failed: " (exn_msg e) = true /\
     (warehouse_calls (snd out) = warehouse_calls w
      \/ warehouse_calls (snd out) = (warehouse_calls w ++ [sql])%list)) /\
  (forall r, fst out = Return r ->
     warehouse_calls (snd out) = (warehouse_calls w ++ [sql])%list /\
     rows_returned r = Z.of_nat (List.length (rows r)) /\
     exists bytes d,
       warehouse env sql = WhResult (rows r) (schema r) bytes d /\
       bytes_processed r = or_zero bytes).
Proof.
  cbv zeta. split; [apply execute_query_frame|].
  rewrite execute_query_run.
  destruct (fst (_get_client env pid w)) as [[]|e0].
  - destruct (warehouse env sql) as [rs f b d | e1 d]; cbn [fst snd].
    + split; [reflexivity|]. split; [discriminate|].
      intros r H. apply Return_inj in H. subst r. cbn.
      split; [reflexivity|]. split; [reflexivity|]. now exists b, d.
    + split; [reflexivity|]. split; [|discriminate].
      intros e H. apply Raise_inj in H. subst e. cbn.
      split; [reflexivity|]. split; [reflexivity|]. now right.
  - cbn [fst snd]. split; [reflexivity|]. split; [|discriminate].
    intros e H. apply Raise_inj in H. subst e. cbn.
    split; [reflexivity|]. split; [reflexivity|]. now left.
Qed.

Lemma execute_query_outcomes_witness :
  exn_type (Exception "Query execution failed: Syntax error at [1:1]")
  = "Exception" /\
  startswith "Query execution failed: "
    (exn_msg (Exception "Query execution failed: Syntax error at [1:1]")) = true /\
  (warehouse_calls
     (snd (execute_query Sample.env_warehouse_down "p1" "SELEC 1" Sample.world))
   = warehouse_calls Sample.world
   \/ warehouse_calls
        (snd (execute_query Sample.env_warehouse_down "p1" "SELEC 1" Sample.world))
      = (warehouse_calls Sample.world ++ ["SELEC 1"])%list).
Proof.
  destruct (execute_query_outcomes Sample.env_warehouse_down "p1" "SELEC 1"
              Sample.world) as (_ & _ & H & _).
  exact (H _ eq_refl).
Defined.

End StageCalls.

(* ================================================================== *)
(** ** The orchestrator: calls, coherence and identity of the record *)
(* ================================================================== *)

Section OrchestratorMore.

Import TextToSQLChain BigQueryService QueryService.

Lemma execute_query_trace (env : Env) (pid sql : string) (w : World) :
  llm_calls (snd (execute_query env pid sql w)) = llm_calls w /\
  match fst (execute_query env pid sql w) with
  | Return r =>
      warehouse_calls (snd (execute_query env pid sql w))
      = (warehouse_calls w ++ [sql])%list
  | Raise e =>
      exn_type e = "Exception" /\
      startswith "Query execution failed: " (exn_msg e) = true /\
      (warehouse_calls (snd (execute_query env pid sql w)) = warehouse_calls w
       \/ warehouse_calls (snd (execute_query env pid sql w))
          = (warehouse_calls w ++ [sql])%list)
  end.
Proof.
  rewrite execute_query_run.
  destruct (fst (_get_client env pid w)) as [[]|e0].
  - destruct (warehouse env sql) as [rs f b d | e1 d]; cbn [fst snd];
      (split; [reflexivity|]); [reflexivity|].
    split; [reflexivity|]. split; [reflexivity|]. now right.
  - cbn [fst snd]. split; [reflexivity|].
    split; [reflexivity|]. split; [reflexivity|]. now left.
Qed.

(** Where an invocation stands when the stages are over. *)
Lemma progress_trace (env : Env) (rq : Request) (w : World) :
  let prompt := build_prompt (chain_of rq) (db w) (question rq) in
  let p := progress env rq w in
  llm_calls (world_of p) = (llm_calls w ++ [prompt])%list /\
  match p with
  | GenerationFailed e wx =>
      exn_type e = "Exception" /\
      startswith "SQL generation failed: " (exn_msg e) = true /\
      warehouse_calls wx = warehouse_calls w
  | SafetyRejected g wx =>
      _is_dangerous_sql (sr_sql g) = true /\
      warehouse_calls wx = warehouse_calls w
  | ExecutionFailed g e wx =>
      _is_dangerous_sql (sr_sql g) = false /\
      exn_type e = "Exception" /\
      startswith "Query execution failed: " (exn_msg e) = true /\
      (warehouse_calls wx = warehouse_calls w
       \/ warehouse_calls wx = (warehouse_calls w ++ [sr_sql g])%list)
  | Executed g x wx =>
      _is_dangerous_sql (sr_sql g) = false /\
      warehouse_calls wx = (warehouse_calls w ++ [sr_sql g])%list
  end /\
  match generated_of p with
  | Some g =>
      exists c d,
        llm env (QueryService.model rq) prompt = LlmContent c d /\
        sr_sql g = extract_sql c
  | None => True
  end.
Proof.
  cbv zeta. unfold progress.
  assert (Hdb : db (snd (uuid4 w)) = db w) by reflexivity.
  rewrite generate_sql_run. cbv zeta. rewrite Hdb.
  change (TextToSQLChain.model (chain_of rq)) with (QueryService.model rq).
  destruct (llm env (QueryService.model rq) _) as [c d|e0 d] eqn:El.
  2:{ cbn. repeat split. }
  cbn [sr_sql].
  destruct (_is_dangerous_sql (extract_sql c)) eqn:Hd.
  { cbn. repeat split; try assumption. exists c, d. now split. }
  set (wg := advance_clock d (record_llm_call _ (snd (uuid4 w)))).
  pose proof (execute_query_trace env (project_id rq) (extract_sql c) wg)
    as [Hl Ht].
  destruct (execute_query env (project_id rq) (extract_sql c) wg)
    as [[x|e] we]; cbn [fst snd] in *; cbn [world_of generated_of sr_sql].
  - rewrite Hl. split; [reflexivity|]. split; [|exists c, d; now split].
    split; [exact Hd | exact Ht].
  - rewrite Hl. split; [reflexivity|]. split; [|exists c, d; now split].
    destruct Ht as (H1 & H2 & H3). repeat split; assumption.
Qed.

Lemma process_question_llm_calls (env : Env) (rq : Request) (w : World) :
  llm_calls (snd (process_question env rq w))
  = llm_calls (world_of (progress env rq w)).
Proof.
  rewrite process_question_run. cbv zeta.
  assert (Hb : forall g entry wx,
             llm_calls (before_commit rq g entry wx) = llm_calls wx).
  { intros g entry wx. unfold before_commit.
    destruct (conversation_id rq) as [cid|]; [|reflexivity].
    destruct (truthy cid); [|reflexivity].
    now rewrite save_to_conversation_world. }
  destruct (progress env rq w) as [e wx | g wx | g e wx | g x wx];
    cbn [world_of failure_of].
  4:{ destruct (inactive _); [cbn; apply Hb|].
      destruct (next_commit_fault _); cbn; apply Hb. }
  all: destruct (inactive (session wx)); [reflexivity|];
    destruct (next_commit_fault wx); reflexivity.
Qed.

Lemma process_question_no_fault (faults : BeforeTheCall.Faults) (env : Env)
  (rq : Request) (w : World) :
  BeforeTheCall.construction faults = None ->
  BeforeTheCall.loading faults = None ->
  BeforeTheCall.process_question faults env rq w = process_question env rq w.
Proof.
  destruct faults as [c l]. cbn. intros -> ->. reflexivity.
Qed.

(** An invocation in which the constructor of the chain or a context
    loader raises [e]: the [except] block finalizes the audit record with
    that error. *)
Lemma process_question_setup_failed (faults : BeforeTheCall.Faults) (env : Env)
  (rq : Request) (w : World) (e : Exn) :
  BeforeTheCall.construction faults = Some e
  \/ (BeforeTheCall.construction faults = None /\
      BeforeTheCall.loading faults = Some e) ->
  BeforeTheCall.process_question faults env rq w =
  let qid := next_uuid w in
  let w0 := snd (uuid4 w) in
  let entry := log_failed e (new_log_entry rq qid) in
  let w1 := set_session (add_log entry) w0 in
  if inactive (session w0) then (Raise PendingRollbackError, w1)
  else match next_commit_fault w0 with
       | Some e' => (Raise e', rolled_back w1)
       | None =>
           (Return (failure_response qid entry e (clock_ms w0 - clock_ms w)),
            committed w1)
       end.
Proof.
  intros H. unfold BeforeTheCall.process_question.
  unfold bind at 1 2. unfold time_ms at 1. cbn [uuid4 fst snd].
  unfold with_local, try_except.
  set (w0 := mkWorld (db w) (session w) (clock_ms w) (S (next_uuid w))
          (llm_calls w) (warehouse_calls w) (commit_faults w)).
  assert (Hraise : BeforeTheCall.try_block faults env rq (clock_ms w)
                     (next_uuid w) (w0, new_log_entry rq (next_uuid w))
                   = (Raise e, (w0, new_log_entry rq (next_uuid w)))).
  { unfold BeforeTheCall.try_block, BeforeTheCall.new_chain.
    destruct H as [H | [Hc Hl]].
    - rewrite H. reflexivity.
    - rewrite Hc. unfold bind at 1. unfold lift at 1. cbn [ret fst snd].
      unfold bind at 1. unfold lift at 1. cbn [fst snd].
      now rewrite (generate_sql_refused faults env _ _ w0 e Hl). }
  rewrite Hraise, failure_handler_run. cbv zeta.
  destruct (inactive (session w0)); [reflexivity|].
  destruct (next_commit_fault w0); reflexivity.
Qed.

(** X9. An invocation of [process_question] is linear, with no retry: it
    calls the language model at most once and the warehouse at most once,
    and the one statement that can reach the warehouse is the
    post-processed answer of the model, and only when the safety gate has
    passed it.  The model is called exactly once when the chain is built
    and its context loaded; when the constructor of the chain or a context
    loader raises, neither the model nor the warehouse is called, and a
    result that is returned carries that error's message as it is and no
    SQL. *)
Theorem pipeline_has_no_retry (faults : BeforeTheCall.Faults) (env : Env)
  (rq : Request) (w : World) :
  let prompt := build_prompt (chain_of rq) (db w) (question rq) in
  let out := BeforeTheCall.process_question faults env rq w in
  let w' := snd out in
  (llm_calls w' = llm_calls w
   \/ llm_calls w' = (llm_calls w ++ [prompt])%list) /\
  (warehouse_calls w' = warehouse_calls w
   \/ exists c d,
        llm env (QueryService.model rq) prompt = LlmContent c d /\
        _is_dangerous_sql (extract_sql c) = false /\
        warehouse_calls w' = (warehouse_calls w ++ [extract_sql c])%list) /\
  (BeforeTheCall.construction faults = None ->
   BeforeTheCall.loading faults = None ->
     llm_calls w' = (llm_calls w ++ [prompt])%list) /\
  (forall e,
     BeforeTheCall.construction faults = Some e
     \/ (BeforeTheCall.construction faults = None /\
         BeforeTheCall.loading faults = Some e) ->
     llm_calls w' = llm_calls w /\
     warehouse_calls w' = warehouse_calls w /\
     forall r, fst out = Return r ->
       sql r = None /\ error r = Some (exn_msg e)).
Proof.
  cbv zeta.
  assert (Hfail : forall e,
    BeforeTheCall.construction faults = Some e
    \/ (BeforeTheCall.construction faults = None /\
        BeforeTheCall.loading faults = Some e) ->
    llm_calls (snd (BeforeTheCall.process_question faults env rq w))
    = llm_calls w /\
    warehouse_calls (snd (BeforeTheCall.process_question faults env rq w))
    = warehouse_calls w /\
    forall r, fst (BeforeTheCall.process_question faults env rq w) = Return r ->
      sql r = None /\ error r = Some (exn_msg e)).
  { intros e He. rewrite (process_question_setup_failed faults env rq w e He).
    cbv zeta. destruct (inactive (session (snd (uuid4 w)))).
    - cbn. repeat split; discriminate.
    - destruct (next_commit_fault (snd (uuid4 w))); cbn [fst snd].
      + repeat split; discriminate.
      + split; [reflexivity|]. split; [reflexivity|].
        intros r H. apply Return_inj in H. subst r. now split. }
  assert (Hok : BeforeTheCall.construction faults = None ->
                BeforeTheCall.loading faults = None ->
    llm_calls (snd (BeforeTheCall.process_question faults env rq w))
    = (llm_calls w ++ [build_prompt (chain_of rq) (db w) (question rq)])%list /\
    (warehouse_calls (snd (BeforeTheCall.process_question faults env rq w))
     = warehouse_calls w
     \/ exists c d,
          llm env (QueryService.model rq)
              (build_prompt (chain_of rq) (db w) (question rq))
          = LlmContent c d /\
          _is_dangerous_sql (extract_sql c) = false /\
          warehouse_calls (snd (BeforeTheCall.process_question faults env rq w))
          = (warehouse_calls w ++ [extract_sql c])%list)).
  { intros Hc Hl. rewrite (process_question_no_fault faults env rq w Hc Hl).
    rewrite process_question_llm_calls, process_question_warehouse_calls.
    destruct (progress_trace env rq w) as (Hlm & Hp & Hg). cbv zeta in *.
    split; [exact Hlm|].
    destruct (progress env rq w) as [e wx | g wx | g e wx | g x wx];
      cbn [world_of generated_of] in *.
    - left. apply Hp.
    - left. apply Hp.
    - destruct Hp as (Hd & _ & _ & [H|H]); [now left|].
      right. destruct Hg as (c & d & Hcd & Hs). exists c, d. now rewrite <- Hs.
    - destruct Hp as (Hd & H).
      right. destruct Hg as (c & d & Hcd & Hs). exists c, d. now rewrite <- Hs. }
  split; [|split; [|split; [intros Hc Hl; now apply Hok | exact Hfail]]].
  - destruct (BeforeTheCall.construction faults) as [e|] eqn:Hc.
    { left. apply (Hfail e). now left. }
    destruct (BeforeTheCall.loading faults) as [e|] eqn:Hl.
    { left. apply (Hfail e). now right. }
    right. now apply Hok.
  - destruct (BeforeTheCall.construction faults) as [e|] eqn:Hc.
    { left. apply (Hfail e). now left. }
    destruct (BeforeTheCall.loading faults) as [e|] eqn:Hl.
    { left. apply (Hfail e). now right. }
    now apply Hok.
Qed.

Lemma pipeline_has_no_retry_witness :
  let out := BeforeTheCall.process_question
               (BeforeTheCall.mkFaults None (Some Sample.store_down))
               Sample.env Sample.request Sample.world in
  llm_calls (snd out) = llm_calls Sample.world /\
  warehouse_calls (snd out) = warehouse_calls Sample.world /\
  exists r,
    fst out = Return r /\ sql r = None /\
    error r = Some "server closed the connection unexpectedly".
Proof.
  cbv zeta.
  destruct (pipeline_has_no_retry
              (BeforeTheCall.mkFaults None (Some Sample.store_down))
              Sample.env Sample.request Sample.world) as (_ & _ & _ & H).
  destruct (H Sample.store_down (or_intror (conj eq_refl eq_refl)))
    as (Hl & Hw & Hr).
  split; [exact Hl|]. split; [exact Hw|].
  eexists. split; [reflexivity|]. exact (Hr _ eq_refl).
Defined.

(** X10. On the success path everything names the same statement: the SQL
    of the result is the one statement the warehouse was called with, it is
    the [generated_sql] of the audit record, and it passed the safety gate;
    the record carries the id of the result, the token count and the row and
    byte counts of the result, and the insight and the chart are those of
    the result interpreter on what the warehouse returned. *)
Theorem success_is_coherent (env : Env) (rq : Request) (w : World)
  (r : QueryResponse) :
  fresh_session w ->
  fst (process_question env rq w) = Return r ->
  error r = None ->
  let w' := snd (process_question env rq w) in
  exists statement x entry,
    sql r = Some statement /\
    result r = Some x /\
    _is_dangerous_sql statement = false /\
    warehouse_calls w' = (warehouse_calls w ++ [statement])%list /\
    query_logs (db w') = (query_logs (db w) ++ [entry])%list /\
    ql_id entry = query_id r /\
    ql_generated_sql entry = Some statement /\
    ql_sql_tokens_used entry = Some (tokens_used r) /\
    ql_rows_returned entry = Some (rows_returned x) /\
    ql_bytes_processed entry = Some (bytes_processed x) /\
    ql_error_message entry = None /\
    insights r = Some (_generate_basic_insights x) /\
    suggested_chart r = _suggest_chart x.
Proof.
  intros Hfresh Hr Herr. cbv zeta.
  pose proof (process_question_fresh env rq w Hfresh) as H. cbv zeta in H.
  pose proof (process_question_warehouse_calls env rq w) as Hw.
  destruct (progress_trace env rq w) as (_ & Hp & _). cbv zeta in Hp.
  destruct (failure_of (progress env rq w)) as [e0|],
           (next_commit_fault w) as [e'|].
  - destruct H as (H1 & _). congruence.
  - destruct H as (H1 & _). rewrite H1 in Hr. apply Return_inj in Hr.
    subst r. discriminate Herr.
  - destruct H as (H1 & _). congruence.
  - destruct H as (g & x & Hprog & H1 & H2).
    rewrite H1 in Hr. apply Return_inj in Hr. subst r.
    rewrite Hprog in Hp, Hw. destruct Hp as (Hd & Hcalls).
    cbn [world_of] in Hw.
    exists (sr_sql g), x. eexists.
    rewrite H2, Hw, Hcalls, Hprog. cbn.
    repeat split; try reflexivity. exact Hd.
Qed.

Lemma success_is_coherent_witness :
  exists statement x entry,
    Some Sample.generated = Some statement /\
    Some (mkQueryResult [[("n", "42")]] [mkSchemaField "n" "INTEGER"]
                        1 350 1024) = Some x /\
    _is_dangerous_sql statement = false /\
    warehouse_calls
      (snd (process_question Sample.env Sample.request Sample.world))
    = (warehouse_calls Sample.world ++ [statement])%list /\
    query_logs (db (snd (process_question Sample.env Sample.request
                                          Sample.world)))
    = (query_logs (db Sample.world) ++ [entry])%list /\
    ql_id entry = 7%nat /\
    ql_generated_sql entry = Some statement /\
    ql_sql_tokens_used entry = Some 170%Z /\
    ql_rows_returned entry = Some (rows_returned x) /\
    ql_bytes_processed entry = Some (bytes_processed x) /\
    ql_error_message entry = None /\
    Some "Query returned 1 row(s). " = Some (_generate_basic_insights x) /\
    Some (mkChart "metric" "Single Value") = _suggest_chart x.
Proof.
  exact (success_is_coherent Sample.env Sample.request Sample.world _
           eq_refl eq_refl eq_refl).
Defined.

(** X11. The audit record of an invocation that returns is the record of
    that request: it carries the id the caller gets back, the user, the
    project, the conversation, the question, the model, the address and the
    user agent of the request, the generated SQL of the result and, as its
    error message, the error of the result. *)
Theorem audit_record_identity (env : Env) (rq : Request) (w : World)
  (r : QueryResponse) :
  fresh_session w ->
  fst (process_question env rq w) = Return r ->
  exists entry,
    query_logs (db (snd (process_question env rq w)))
    = (query_logs (db w) ++ [entry])%list /\
    ql_id entry = query_id r /\
    ql_user_id entry = user_id rq /\
    ql_project_id entry = project_id rq /\
    ql_conversation_id entry = conversation_id rq /\
    ql_user_question entry = question rq /\
    ql_model_used entry = QueryService.model rq /\
    ql_ip_address entry = ip_address rq /\
    ql_user_agent entry = user_agent rq /\
    ql_generated_sql entry = sql r /\
    ql_error_message entry = error r.
Proof.
  intros Hfresh Hr.
  pose proof (process_question_fresh env rq w Hfresh) as H. cbv zeta in H.
  destruct (failure_of (progress env rq w)) as [e0|],
           (next_commit_fault w) as [e'|].
  - destruct H as (H1 & _). congruence.
  - destruct H as (H1 & H2 & _). rewrite H1 in Hr. apply Return_inj in Hr.
    subst r. rewrite H2. eexists. split; [reflexivity|].
    destruct (progress env rq w); cbn; repeat split.
  - destruct H as (H1 & _). congruence.
  - destruct H as (g & x & Hprog & H1 & H2).
    rewrite H1 in Hr. apply Return_inj in Hr. subst r.
    rewrite H2, Hprog. eexists. split; [reflexivity|]. cbn. repeat split.
Qed.

Lemma audit_record_identity_witness :
  exists entry,
    query_logs (db (snd (process_question Sample.env_llm_drops Sample.request
                                          Sample.world)))
    = (query_logs (db Sample.world) ++ [entry])%list /\
    ql_id entry = 7%nat /\
    ql_user_id entry = "u1" /\
    ql_project_id entry = "p1" /\
    ql_conversation_id entry = Some "c1" /\
    ql_user_question entry = "How many orders last month?" /\
    ql_model_used entry = "claude-3-5-sonnet-20241022" /\
    ql_ip_address entry = None /\
    ql_user_agent entry = None /\
    ql_generated_sql entry = Some "drop table orders" /\
    ql_error_message entry
    = Some "SQL query contains forbidden operations (DROP, DELETE, etc.)".
Proof.
  exact (audit_record_identity Sample.env_llm_drops Sample.request Sample.world
           _ eq_refl eq_refl).
Defined.

(** An error that [process_question] returns is never an empty text. *)
Lemma returned_error_not_empty (env : Env) (rq : Request) (w : World)
  (r : QueryResponse) (msg : string) :
  fresh_session w ->
  fst (process_question env rq w) = Return r ->
  error r = Some msg -> truthy msg = true.
Proof.
  intros Hfresh Hr Hmsg.
  pose proof (process_question_fresh env rq w Hfresh) as H. cbv zeta in H.
  destruct (progress_trace env rq w) as (_ & Hp & _). cbv zeta in Hp.
  destruct (failure_of (progress env rq w)) as [e0|] eqn:Hf,
           (next_commit_fault w) as [e'|].
  - destruct H as (H1 & _). congruence.
  - destruct H as (H1 & _). rewrite H1 in Hr. apply Return_inj in Hr.
    subst r. cbn in Hmsg. injection Hmsg as <-.
    assert (Hstart : forall p m, startswith (String p "") m = true ->
                                 truthy m = true).
    { intros p m Hs. destruct m; [discriminate | reflexivity]. }
    destruct (progress env rq w) as [e wx | g wx | g e wx | g x wx];
      cbn [failure_of] in Hf; try discriminate; injection Hf as <-.
    + destruct Hp as (_ & Hs & _). apply (startswith_shorter "S") in Hs.
      now apply (Hstart _ _ Hs).
    + reflexivity.
    + destruct Hp as (_ & _ & Hs & _). apply (startswith_shorter "Q") in Hs.
      now apply (Hstart _ _ Hs).
  - destruct H as (H1 & _). congruence.
  - destruct H as (g & x & _ & H1 & _). rewrite H1 in Hr.
    apply Return_inj in Hr. subst r. discriminate Hmsg.
Qed.

End OrchestratorMore.

(* ================================================================== *)
(** ** Direct execution and the result interpreter *)
(* ================================================================== *)

Section DirectAndInterpreter.

Import TextToSQLChain BigQueryService QueryService.

(** X12. [execute_sql_directly] never raises: whatever the gate, the
    credentials and the warehouse do, it returns a response that echoes the
    statement and carries either a result or a non-empty error, never both
    and never neither.  A result means the gate passed the statement and
    the warehouse was called exactly once with it; the store and the session
    are never written. *)
Theorem direct_execution_never_raises (env : Env) (pid uid sql : string)
  (cid : option string) (w : World) :
  let out := execute_sql_directly env pid uid sql cid w in
  exists r,
    fst out = Return r /\
    d_sql r = sql /\
    same_store w (snd out) /\
    match d_result r, d_error r with
    | Some x, None =>
        _is_dangerous_sql sql = false /\
        warehouse_calls (snd out) = (warehouse_calls w ++ [sql])%list /\
        rows_returned x = Z.of_nat (List.length (rows x))
    | None, Some msg => truthy msg = true
    | _, _ => False
    end.
Proof.
  cbv zeta. pose proof (execute_sql_directly_frame env pid uid sql cid w) as Hs.
  rewrite execute_sql_directly_run in *.
  destruct (_is_dangerous_sql sql) eqn:Hd.
  { eexists. cbn. repeat split; reflexivity. }
  rewrite execute_query_run in *.
  destruct (fst (_get_client env pid w)) as [[]|e0]; cbn [fst snd] in *.
  - destruct (warehouse env sql) as [rs f b d | e1 d]; cbn [fst snd] in *;
      eexists; cbn; repeat split; reflexivity.
  - eexists. cbn. repeat split; reflexivity.
Qed.

(** X13. The result interpreter suggests a chart exactly when the result
    has at least one row and at least one column, and it gives the "no
    results" sentence exactly when the result has no row; so a result that
    gets a chart always gets an insight that states its row count. *)
Theorem interpreter_on_empty_results (res : QueryResult) :
  (_suggest_chart res = None <->
   rows_returned res = 0%Z \/ schema res = []) /\
  (_generate_basic_insights res = "No results found for your query." <->
   rows_returned res = 0%Z) /\
  (_suggest_chart res <> None ->
   _generate_basic_insights res
   = "Query returned " ++ str_of_Z (rows_returned res) ++ " row(s). ").
Proof.
  assert (Hins : _generate_basic_insights res
                 = "No results found for your query." <->
                 rows_returned res = 0%Z).
  { unfold _generate_basic_insights.
    destruct (rows_returned res =? 0)%Z eqn:E.
    - apply Z.eqb_eq in E. split; [now intros _ | reflexivity].
    - apply Z.eqb_neq in E. split; [discriminate | contradiction]. }
  assert (Hchart : _suggest_chart res = None <->
                   rows_returned res = 0%Z \/ schema res = []).
  { unfold _suggest_chart, _suggest_chart_of.
    destruct (rows_returned res =? 0)%Z eqn:E.
    - apply Z.eqb_eq in E. cbn [orb]. split; [now left | reflexivity].
    - apply Z.eqb_neq in E. cbn [orb].
      destruct (schema res) as [|c1 [|c2 l]]; cbn [List.length Nat.eqb].
      + split; [now right | reflexivity].
      + split; [discriminate | intros [H|H]; [contradiction | discriminate]].
      + split; [|intros [H|H]; [contradiction | discriminate]].
        destruct (two_column_rule (c1 :: c2 :: l)); [discriminate|].
        destruct (3 <=? _)%nat; discriminate. }
  split; [exact Hchart|]. split; [exact Hins|].
  intros Hc. unfold _generate_basic_insights.
  destruct (rows_returned res =? 0)%Z eqn:E; [|reflexivity].
  apply Z.eqb_eq in E. exfalso. apply Hc, Hchart. now left.
Qed.

Lemma interpreter_on_empty_results_witness :
  let res := mkQueryResult [[("n", "42")]] [mkSchemaField "n" "INTEGER"]
                           1 350 1024 in
  _suggest_chart res <> None /\
  _generate_basic_insights res = "Query returned 1 row(s). ".
Proof.
  cbv zeta.
  assert (Hc : _suggest_chart
                 (mkQueryResult [[("n", "42")]] [mkSchemaField "n" "INTEGER"]
                                1 350 1024) <> None) by discriminate.
  split; [exact Hc|].
  exact (proj2 (proj2 (interpreter_on_empty_results _)) Hc).
Defined.

End DirectAndInterpreter.

(* ================================================================== *)
(** ** BigQueryService: the probe and the dry run *)
(* ================================================================== *)

Section Checks.

Import BigQueryService BigQueryChecks.

Lemma get_client_configured (env : Env) (pid : string) (w : World) :
  fst (_get_client env pid w) = Return tt ->
  credentials_configured pid (db w) = true.
Proof.
  unfold credentials_configured, _get_client.
  destruct (find _ _) as [p|]; [|discriminate].
  destruct (p_credentials_encrypted p) as [c|]; [|discriminate].
  cbn [truthy_opt]. destruct (truthy c); [reflexivity | discriminate].
Qed.

Lemma test_connection_run (env : Env) (pid : string) (w : World) :
  test_connection env pid w =
  match fst (_get_client env pid w) with
  | Raise _ => (Return false, w)
  | Return _ =>
      match warehouse env probe_statement with
      | WhResult _ _ _ d =>
          (Return true, advance_clock d (record_warehouse_call probe_statement w))
      | WhError _ d =>
          (Return false, advance_clock d (record_warehouse_call probe_statement w))
      end
  end.
Proof.
  unfold test_connection, bind, try_except, client_query, ret.
  pose proof (get_client_world env pid w) as Hc.
  destruct (_get_client env pid w) as [[[]|e] w1]; cbn [fst snd] in *; subst w1;
    [|reflexivity].
  fold probe_statement.
  destruct (warehouse env probe_statement); reflexivity.
Qed.

(** X14. The connectivity probe never raises.  It answers [True] exactly
    when a client could be made from the project's credentials and the
    probe statement ran; without credentials on file it answers [False]
    without calling the warehouse; it calls the warehouse at most once, with
    the probe statement, and never writes to the store. *)
Theorem test_connection_never_raises (env : Env) (pid : string) (w : World) :
  let out := test_connection env pid w in
  exists ok,
    fst out = Return ok /\
    same_store w (snd out) /\
    (ok = true <->
     fst (_get_client env pid w) = Return tt /\
     exists rs fields bytes d,
       warehouse env probe_statement = WhResult rs fields bytes d) /\
    (credentials_configured pid (db w) = false ->
     ok = false /\ warehouse_calls (snd out) = warehouse_calls w) /\
    (warehouse_calls (snd out) = warehouse_calls w
     \/ warehouse_calls (snd out) = (warehouse_calls w ++ [probe_statement])%list).
Proof.
  cbv zeta. rewrite test_connection_run.
  destruct (fst (_get_client env pid w)) as [[]|e0] eqn:Hc.
  - apply get_client_configured in Hc as Hconf.
    destruct (warehouse env probe_statement) as [rs f b d | e1 d] eqn:Hw;
      eexists; (split; [reflexivity|]); (split; [split; reflexivity|]); split.
    + split; [intros _|reflexivity]. split; [reflexivity|].
      now exists rs, f, b, d.
    + split; [congruence | now right].
    + split; [discriminate|]. intros (_ & rs & f & b & d' & H). discriminate.
    + split; [congruence | now right].
  - eexists. split; [reflexivity|]. split; [split; reflexivity|]. split.
    + split; [discriminate | intros (H & _); discriminate].
    + split; [now split | now left].
Qed.

Lemma test_connection_never_raises_witness :
  fst (test_connection Sample.env "p9" Sample.world) = Return false /\
  warehouse_calls (snd (test_connection Sample.env "p9" Sample.world))
  = warehouse_calls Sample.world.
Proof.
  pose proof (test_connection_never_raises Sample.env "p9" Sample.world) as H.
  cbv zeta in H. destruct H as (ok & Hr & _ & _ & Hu & _).
  destruct (Hu eq_refl) as [Hok Hcalls]. subst ok. now split.
Defined.

Lemma validate_sql_run (env : Env) (dry_run : string -> Exn + option Z)
  (pid sql : string) (w : World) :
  validate_sql env dry_run pid sql w =
  (Return (match fst (_get_client env pid w) with
           | Raise e => mkValidation false (Some (exn_msg e)) (Some 0%Z)
           | Return _ =>
               match dry_run sql with
               | inr bytes => mkValidation true None bytes
               | inl e => mkValidation false (Some (exn_msg e)) (Some 0%Z)
               end
           end), w).
Proof.
  unfold validate_sql, bind, try_except, ret, raise.
  pose proof (get_client_world env pid w) as Hc.
  destruct (_get_client env pid w) as [[[]|e] w1]; cbn [fst snd] in *; subst w1;
    [|reflexivity].
  destruct (dry_run sql); reflexivity.
Qed.

(** X15. The dry run never raises and never writes to the store.  Its
    answer is valid exactly when it carries no error, and then its estimate
    is the byte count of the dry-run job; an invalid answer estimates zero
    bytes and carries the raw message of what went wrong, which for a
    project without credentials on file is "BigQuery credentials not
    configured for this project". *)
Theorem validate_sql_never_raises (env : Env)
  (dry_run : string -> Exn + option Z) (pid sql : string) (w : World) :
  let out := validate_sql env dry_run pid sql w in
  exists v,
    fst out = Return v /\
    same_store w (snd out) /\
    (valid v = true <-> v_error v = None) /\
    (valid v = false -> estimated_bytes v = Some 0%Z) /\
    (credentials_configured pid (db w) = false ->
     valid v = false /\
     v_error v = Some "BigQuery credentials not configured for this project") /\
    (valid v = true -> dry_run sql = inr (estimated_bytes v)).
Proof.
  cbv zeta. rewrite validate_sql_run. eexists. split; [reflexivity|].
  split; [apply same_store_refl|].
  destruct (fst (_get_client env pid w)) as [[]|e0] eqn:Hc.
  - apply get_client_configured in Hc as Hconf.
    destruct (dry_run sql) as [e|bytes]; cbn [valid v_error estimated_bytes].
    + split; [split; discriminate|]. split; [reflexivity|].
      split; [congruence | discriminate].
    + split; [split; reflexivity|]. split; [discriminate|].
      split; [congruence | reflexivity].
  - cbn [valid v_error estimated_bytes].
    split; [split; discriminate|]. split; [reflexivity|].
    split; [|discriminate].
    intros Hu. rewrite (get_client_unconfigured env pid w Hu) in Hc.
    apply Raise_inj in Hc. now subst e0.
Qed.

Lemma validate_sql_never_raises_witness :
  exists v,
    fst (validate_sql Sample.env (fun _ => inr (Some 2048%Z)) "p9"
                      Sample.generated Sample.world) = Return v /\
    valid v = false /\
    v_error v = Some "BigQuery credentials not configured for this project" /\
    estimated_bytes v = Some 0%Z.
Proof.
  pose proof (validate_sql_never_raises Sample.env (fun _ => inr (Some 2048%Z))
                "p9" Sample.generated Sample.world) as H.
  cbv zeta in H. destruct H as (v & Hr & _ & _ & Hz & Hu & _).
  destruct (Hu eq_refl) as [Hv He].
  exists v. split; [exact Hr|]. split; [exact Hv|]. split; [exact He|].
  exact (Hz Hv).
Defined.

End Checks.

(* ================================================================== *)
(** ** The query endpoints *)
(* ================================================================== *)

Section Endpoints.

Import TextToSQLChain BigQueryService QueryService QueriesApi.

Lemma nothing_happened_refl (w : World) : nothing_happened w w.
Proof. repeat split. Qed.

(** The ownership query against the table: it finds a row exactly when
    the project exists and is the user's, and then it is the row the
    pipeline will read the credentials from. *)
Lemma find_owned (owners : Owners) (pid uid : string) (l : list Project) :
  match find (fun p => String.eqb (p_id p) pid && owned_by owners uid p) l with
  | Some p =>
      owners pid = uid /\ find (fun p => String.eqb (p_id p) pid) l = Some p
  | None => owners pid <> uid \/ forall p, In p l -> p_id p <> pid
  end.
Proof.
  induction l as [|a l IH]; cbn [find].
  - right. intros p [].
  - destruct (String.eqb (p_id a) pid) eqn:E.
    + apply String.eqb_eq in E. unfold owned_by at 1. rewrite E.
      destruct (String.eqb (owners pid) uid) eqn:O; cbn [andb].
      * apply String.eqb_eq in O. now split.
      * apply String.eqb_neq in O.
        destruct (find _ l); [now destruct IH | now left].
    + cbn [andb]. apply String.eqb_neq in E.
      destruct (find _ l).
      * exact IH.
      * destruct IH as [H|H]; [now left | right].
        intros p [<-|Hin]; [exact E | now apply H].
Qed.

Lemma query_owned_project_spec (owners : Owners) (pid uid : string)
  (d : Database) :
  match query_owned_project owners pid uid d with
  | Some p =>
      owns owners uid pid d /\
      credentials_configured pid d = truthy_opt (p_credentials_encrypted p)
  | None => ~ owns owners uid pid d
  end.
Proof.
  unfold query_owned_project, owns, credentials_configured.
  pose proof (find_owned owners pid uid (projects d)) as H.
  destruct (find _ (projects d)) as [p|] eqn:E.
  - destruct H as [Ho Hf]. rewrite Hf. split; [|reflexivity].
    split; [|exact Ho]. apply find_some in Hf as [Hin Hid].
    apply String.eqb_eq in Hid. now exists p.
  - intros [(p & Hin & Hid) Ho]. destruct H as [H|H]; [now apply H|].
    now apply (H p).
Qed.



(** X17. What [execute_sql] answers.  It never answers 500, never calls
    the language model and never writes to the store.  A project that does
    not exist or is not the caller's is a 404 with no warehouse call, so a
    response is only ever given for a project of the caller's.  For such a
    project, a statement the safety gate rejects is a 400 "SQL contains
    forbidden operations" with no warehouse call; any other failure is a 400
    whose detail begins with "Query execution failed: "; and a response
    means that the gate passed the statement and the warehouse was called
    exactly once with it. *)
Theorem execute_sql_answers (env : Env) (owners : Owners)
  (sql_request : SQLExecuteRequest) (uid : string) (w : World) :
  let pid := se_project_id sql_request in
  let out := execute_sql env owners sql_request uid w in
  let w' := snd out in
  let mine := owns owners uid pid (db w) in
  same_store w w' /\
  llm_calls w' = llm_calls w /\
  (~ mine ->
     fst out = Abort (mkHTTPException 404 "Project not found") /\
     warehouse_calls w' = warehouse_calls w) /\
  (forall r, fst out = Respond r -> mine) /\
  (forall e, fst out = Abort e -> status_code e = 404 \/ status_code e = 400) /\
  (mine ->
     match fst out with
     | Respond r =>
         d_error r = None /\ d_result r <> None /\
         d_sql r = se_sql sql_request /\
         _is_dangerous_sql (se_sql sql_request) = false /\
         warehouse_calls w' = (warehouse_calls w ++ [se_sql sql_request])%list
     | Abort e =>
         (status_code e = 400 /\
          _is_dangerous_sql (se_sql sql_request) = true /\
          detail e = "SQL contains forbidden operations" /\
          warehouse_calls w' = warehouse_calls w)
         \/ (status_code e = 400 /\
             _is_dangerous_sql (se_sql sql_request) = false /\
             startswith "Query execution failed: " (detail e) = true)
     end).
Proof.
  cbv zeta.
  pose proof (query_owned_project_spec owners (se_project_id sql_request)
                uid (db w)) as Hspec.
  unfold execute_sql.
  destruct (query_owned_project owners (se_project_id sql_request) uid (db w))
    as [p|] eqn:Ho.
  2:{ cbn [fst snd]. split; [apply same_store_refl|]. split; [reflexivity|].
      split; [intros _; now split|]. split; [discriminate|].
      split; [intros e [= <-]; now left | intros Hm; contradiction]. }
  destruct Hspec as [Hmine _].
  set (pid := se_project_id sql_request) in *.
  set (sql := se_sql sql_request).
  set (cid := se_conversation_id sql_request).
  pose proof (execute_sql_directly_frame env pid uid sql cid w) as Hs.
  rewrite execute_sql_directly_run in *.
  destruct (_is_dangerous_sql sql) eqn:Hd.
  { cbn. split; [exact Hs|]. split; [reflexivity|].
    split; [intros Hn; contradiction|]. split; [discriminate|].
    split; [intros e [= <-]; now right|]. intros _. left. repeat split. }
  pose proof (execute_query_trace env pid sql w) as [Hl Ht].
  destruct (execute_query env pid sql w) as [[x|e] w1]; cbn [fst snd] in *.
  - split; [exact Hs|]. split; [exact Hl|].
    split; [intros Hn; contradiction|]. split; [intros r _; exact Hmine|].
    split; [discriminate|]. intros _.
    repeat split; try discriminate. exact Ht.
  - destruct Ht as (_ & Hp & _).
    assert (Hne : truthy (exn_msg e) = true).
    { apply (startswith_shorter "Q") in Hp.
      destruct (exn_msg e); [discriminate | reflexivity]. }
    cbn [d_error]. rewrite Hne. cbn [fst snd].
    split; [exact Hs|]. split; [exact Hl|].
    split; [intros Hn; contradiction|]. split; [discriminate|].
    split; [intros e1 [= <-]; now right|]. intros _.
    right. repeat split. exact Hp.
Qed.

Lemma execute_sql_answers_witness :
  let out := execute_sql Sample.env sample_owners
               (mkSQLExecuteRequest "p1" Sample.generated None) "u2"
               Sample.world in
  fst out = Abort (mkHTTPException 404 "Project not found") /\
  warehouse_calls (snd out) = warehouse_calls Sample.world.
Proof.
  cbv zeta.
  pose proof (execute_sql_answers Sample.env sample_owners
                (mkSQLExecuteRequest "p1" Sample.generated None) "u2"
                Sample.world) as H.
  cbv zeta in H. destruct H as (_ & _ & H & _). apply H.
  intros [_ Ho]. discriminate Ho.
Defined.

End Endpoints.

(* ================================================================== *)
(** ** The query history *)
(* ================================================================== *)

Section History.

Import QueryService QueriesApi.

Lemma firstn_add {A} (a b : nat) (l : list A) :
  firstn (a + b) l = (firstn a l ++ firstn b (skipn a l))%list.
Proof.
  revert l; induction a as [|a IH]; intros l; [reflexivity|].
  destruct l as [|x l]; simpl.
  - now rewrite firstn_nil.
  - now rewrite IH.
Qed.

(** X18. A page of the query history holds audit records of the calling
    user only (and of the one project, when a project is given), at most
    [limit] of them; [total] counts all the matching records whatever the
    page; and consecutive pages tile the history: the page at [offset] of
    length [limit] followed by the next page of length [limit'] is the page
    at [offset] of length [limit + limit'], with no record lost or shown
    twice. *)
Theorem query_history_pages (project_id : option string)
  (limit limit' offset : nat) (uid : string) (d : Database) :
  let page := get_query_history project_id limit offset uid d in
  (forall l, In l (logs page) ->
     In l (query_logs d) /\ ql_user_id l = uid /\
     forall pid, project_id = Some pid -> ql_project_id l = pid) /\
  List.length (logs page) = Nat.min limit (total page - offset) /\
  total page = total (get_query_history project_id limit' (offset + limit) uid d) /\
  (logs page
   ++ logs (get_query_history project_id limit' (offset + limit) uid d))%list
  = logs (get_query_history project_id (limit + limit') offset uid d).
Proof.
  cbv zeta. unfold get_query_history. cbn [logs total].
  set (mine := filter (fun l => String.eqb (ql_user_id l) uid) (query_logs d)).
  set (query := match project_id with
                | Some pid => filter (fun l => String.eqb (ql_project_id l) pid) mine
                | None => mine
                end).
  split; [|split; [|split]].
  - intros l Hl.
    assert (Hq : In l query).
    { apply in_rev.
      rewrite <- (firstn_skipn offset (rev query)). apply in_or_app. right.
      rewrite <- (firstn_skipn limit (skipn offset (rev query))).
      apply in_or_app. now left. }
    assert (Hm : In l mine /\
                 forall pid, project_id = Some pid -> ql_project_id l = pid).
    { unfold query in Hq. destruct project_id as [pid|].
      - apply filter_In in Hq as [Hq Hp]. split; [exact Hq|].
        intros pid' [= <-]. now apply String.eqb_eq.
      - split; [exact Hq | discriminate]. }
    destruct Hm as [Hm Hp]. unfold mine in Hm.
    apply filter_In in Hm as [Hin Hu]. apply String.eqb_eq in Hu.
    now repeat split.
  - rewrite length_firstn, length_skipn, length_rev. reflexivity.
  - reflexivity.
  - rewrite firstn_add, skipn_skipn. now rewrite (Nat.add_comm limit offset).
Qed.

Lemma query_history_pages_witness :
  let d := db (snd (process_question Sample.env Sample.request Sample.world)) in
  exists l,
    hd_error (logs (get_query_history (Some "p1") 1 0 "u1" d)) = Some l /\
    In l (query_logs d) /\ ql_user_id l = "u1" /\ ql_project_id l = "p1".
Proof.
  cbv zeta.
  pose proof (query_history_pages (Some "p1") 1 1 0 "u1"
                (db (snd (process_question Sample.env Sample.request
                                           Sample.world)))) as H.
  cbv zeta in H. destruct H as (H & _).
  destruct (logs (get_query_history (Some "p1") 1 0 "u1"
                    (db (snd (process_question Sample.env Sample.request
                                               Sample.world)))))
    as [|l rest] eqn:E; [discriminate E|].
  exists l. split; [reflexivity|].
  destruct (H l (or_introl eq_refl)) as (Hin & Hu & Hp).
  split; [exact Hin|]. split; [exact Hu | exact (Hp _ eq_refl)].
Defined.

Lemma returned_record (env : Env) (rq : Request) (w : World)
  (r : QueryResponse) :
  fresh_session w ->
  fst (process_question env rq w) = Return r ->
  exists entry,
    query_logs (db (snd (process_question env rq w)))
    = (query_logs (db w) ++ [entry])%list /\
    ql_id entry = query_id r /\
    ql_user_id entry = user_id rq /\
    ql_project_id entry = project_id rq /\
    ql_user_question entry = question rq.
Proof.
  intros Hfresh Hr.
  pose proof (process_question_fresh env rq w Hfresh) as H. cbv zeta in H.
  destruct (failure_of (progress env rq w)) as [e0|],
           (next_commit_fault w) as [e'|].
  - destruct H as (H1 & _). congruence.
  - destruct H as (H1 & H2 & _). rewrite H1 in Hr. apply Return_inj in Hr.
    subst r. rewrite H2. eexists. split; [reflexivity|].
    destruct (progress env rq w); cbn; repeat split.
  - destruct H as (H1 & _). congruence.
  - destruct H as (g & x & Hprog & H1 & H2).
    rewrite H1 in Hr. apply Return_inj in Hr. subst r.
    rewrite H2, Hprog. eexists. split; [reflexivity|]. cbn. repeat split.
Qed.

Lemma filter_app_one {A} (f : A -> bool) (l : list A) (x : A) :
  f x = true -> filter f (l ++ [x])%list = (filter f l ++ [x])%list.
Proof. intros H. rewrite filter_app. cbn. now rewrite H. Qed.

(** X19. A question that [process_question] has answered, with a result or
    with a structured error, is at once the newest entry of the asking
    user's query history, under the id the caller got back, in the listing
    of all projects and in the listing of the question's project; and the
    total of either listing has grown by one. *)
Theorem question_shows_in_history (env : Env) (rq : Request) (w : World)
  (r : QueryResponse) (project_filter : option string) (limit : nat) :
  fresh_session w ->
  fst (process_question env rq w) = Return r ->
  project_filter = None \/ project_filter = Some (project_id rq) ->
  let d' := db (snd (process_question env rq w)) in
  let before := get_query_history project_filter (S limit) 0 (user_id rq) (db w) in
  let after := get_query_history project_filter (S limit) 0 (user_id rq) d' in
  total after = S (total before) /\
  exists entry,
    hd_error (logs after) = Some entry /\
    ql_id entry = query_id r /\
    ql_user_question entry = question rq.
Proof.
  intros Hfresh Hr Hfilter. cbv zeta.
  destruct (returned_record env rq w r Hfresh Hr)
    as (entry & Hlogs & Hid & Hu & Hp & Hq).
  unfold get_query_history. cbn [logs total]. rewrite Hlogs.
  rewrite (filter_app_one _ _ entry) by (rewrite Hu; apply String.eqb_refl).
  set (mine := filter _ (query_logs (db w))).
  assert (Hshape :
    match project_filter with
    | Some pid =>
        filter (fun l => String.eqb (ql_project_id l) pid) (mine ++ [entry])%list
    | None => (mine ++ [entry])%list
    end
    = (match project_filter with
       | Some pid => filter (fun l => String.eqb (ql_project_id l) pid) mine
       | None => mine
       end ++ [entry])%list).
  { destruct Hfilter as [-> | ->]; [reflexivity|].
    apply filter_app_one. rewrite Hp. apply String.eqb_refl. }
  rewrite Hshape. set (old := match project_filter with
                              | Some pid => _ | None => _ end).
  split.
  - rewrite length_app. cbn. lia.
  - exists entry. rewrite rev_app_distr. cbn. now repeat split.
Qed.

Lemma question_shows_in_history_witness :
  let d' := db (snd (process_question Sample.env_warehouse_down Sample.request
                                      Sample.world)) in
  total (get_query_history (Some "p1") 10 0 "u1" d')
  = S (total (get_query_history (Some "p1") 10 0 "u1" (db Sample.world))) /\
  exists entry,
    hd_error (logs (get_query_history (Some "p1") 10 0 "u1" d')) = Some entry /\
    ql_id entry = 7%nat /\
    ql_user_question entry = "How many orders last month?".
Proof.
  exact (question_shows_in_history Sample.env_warehouse_down Sample.request
           Sample.world _ (Some "p1") 9 eq_refl eq_refl (or_intror eq_refl)).
Defined.

End History.

(* ================================================================== *)
(** ** Authentication of a request *)
(* ================================================================== *)

Section Authentication.

Import QueriesApi Deps.

Lemma find_user_sound (store : AuthStore) (uid : string) (u : User) :
  find_user store uid = Some u -> In u (users store) /\ u_id u = uid.
Proof.
  unfold find_user. intros H. apply find_some in H as [Hin Hid].
  apply String.eqb_eq in Hid. now split.
Qed.

Lemma try_api_key_sound (sec : Security) (store : AuthStore) (key : string)
  (u : User) :
  try_api_key sec store key = Some (Respond u) ->
  In u (users store) /\
  exists k, In k (api_keys store) /\
            k_key_prefix k = take 10 key /\
            verify_api_key sec key (k_key_hash k) = true /\
            k_is_active k = true /\ k_user_id k = u_id u.
Proof.
  unfold try_api_key.
  destruct (find _ (api_keys store)) as [k|] eqn:Hk; [|discriminate].
  destruct (verify_api_key sec key (k_key_hash k)) eqn:Hv; [|discriminate].
  destruct (k_is_active k) eqn:Ha; cbn [negb]; [|discriminate].
  destruct (find_user store (k_user_id k)) as [u'|] eqn:Hu; [|discriminate].
  intros [= <-]. apply find_user_sound in Hu as [Hin Hid].
  apply find_some in Hk as [Hkin Hp]. apply String.eqb_eq in Hp.
  split; [exact Hin|]. exists k. now repeat split.
Qed.

Lemma try_token_sound (sec : Security) (store : AuthStore) (token : string)
  (u : User) :
  try_token sec store token = Respond u ->
  In u (users store) /\ decode_token sec token = Payload (Some (u_id u)) /\
  u_is_active u = true.
Proof.
  unfold try_token.
  destruct (decode_token sec token) as [|[uid|]]; try discriminate.
  destruct (find_user store uid) as [u'|] eqn:Hu; [|discriminate].
  destruct (u_is_active u') eqn:Ha; cbn [negb]; [|discriminate].
  intros [= <-]. apply find_user_sound in Hu as [Hin Hid].
  now rewrite Hid.
Qed.

(** X20. Whoever [get_current_user] lets in is a user of the store who is
    vouched for: either the request carries an API key that verifies against
    the stored hash of an active key of that user, found by the first ten
    characters of the key, or it carries a bearer token that decodes to that
    user's id and the user is active. *)
Theorem authenticated_user_is_vouched_for (sec : Security) (store : AuthStore)
  (credentials x_api_key : option string) (u : User) :
  get_current_user sec store credentials x_api_key = Respond u ->
  In u (users store) /\
  ((exists key k,
      x_api_key = Some key /\ In k (api_keys store) /\
      k_key_prefix k = take 10 key /\
      verify_api_key sec key (k_key_hash k) = true /\
      k_is_active k = true /\ k_user_id k = u_id u)
   \/ (exists token,
         credentials = Some token /\
         decode_token sec token = Payload (Some (u_id u)) /\
         u_is_active u = true)).
Proof.
  unfold get_current_user. intros H.
  assert (Htoken :
    match credentials with
    | Some token => try_token sec store token
    | None => Abort credentials_exception
    end = Respond u ->
    In u (users store) /\
    exists token, credentials = Some token /\
                  decode_token sec token = Payload (Some (u_id u)) /\
                  u_is_active u = true).
  { destruct credentials as [token|]; [|discriminate].
    intros Ht. apply try_token_sound in Ht as (Hin & Hd & Ha).
    split; [exact Hin|]. now exists token. }
  destruct x_api_key as [key|].
  - destruct (truthy key).
    + destruct (try_api_key sec store key) as [answer|] eqn:Hk.
      * subst answer. apply try_api_key_sound in Hk as (Hin & k & Hk).
        split; [exact Hin|]. left. now exists key, k.
      * destruct (Htoken H) as (Hin & Ht). split; [exact Hin | now right].
    + destruct (Htoken H) as (Hin & Ht). split; [exact Hin | now right].
  - destruct (Htoken H) as (Hin & Ht). split; [exact Hin | now right].
Qed.

Lemma authenticated_user_is_vouched_for_witness :
  In (mkUser "u1" true false) (users sample_store) /\
  ((exists key k,
      @None string = Some key /\ In k (api_keys sample_store) /\
      k_key_prefix k = take 10 key /\
      verify_api_key sample_security key (k_key_hash k) = true /\
      k_is_active k = true /\ k_user_id k = "u1")
   \/ (exists token,
         Some "token-of-u1" = Some token /\
         decode_token sample_security token = Payload (Some "u1") /\
         true = true)).
Proof.
  exact (authenticated_user_is_vouched_for sample_security sample_store
           (Some "token-of-u1") None (mkUser "u1" true false) eq_refl).
Defined.

(** X21. [get_current_user] refuses with 401 or 403 and nothing else.  A
    request with neither an API key nor a bearer token is a 401; a 403 is
    given only for a bearer token that decodes to the id of a stored user
    who is not active. *)
Theorem authentication_refusals (sec : Security) (store : AuthStore)
  (credentials x_api_key : option string) :
  (truthy_opt x_api_key = false -> credentials = None ->
     get_current_user sec store credentials x_api_key
     = Abort credentials_exception) /\
  (forall e, get_current_user sec store credentials x_api_key = Abort e ->
     status_code e = 401
     \/ (status_code e = 403 /\ detail e = "Inactive user" /\
         exists token u,
           credentials = Some token /\ In u (users store) /\
           decode_token sec token = Payload (Some (u_id u)) /\
           u_is_active u = false)).
Proof.
  split.
  - intros Hk ->. unfold get_current_user.
    destruct x_api_key as [key|]; [|reflexivity].
    cbn [truthy_opt] in Hk. now rewrite Hk.
  - intros e. unfold get_current_user.
    assert (Htoken :
      match credentials with
      | Some token => try_token sec store token
      | None => Abort credentials_exception
      end = Abort e ->
      status_code e = 401
      \/ (status_code e = 403 /\ detail e = "Inactive user" /\
          exists token u,
            credentials = Some token /\ In u (users store) /\
            decode_token sec token = Payload (Some (u_id u)) /\
            u_is_active u = false)).
    { destruct credentials as [token|]; [|intros [= <-]; now left].
      unfold try_token.
      destruct (decode_token sec token) as [|[uid|]] eqn:Hd;
        try (intros [= <-]; now left).
      destruct (find_user store uid) as [u|] eqn:Hu;
        [|intros [= <-]; now left].
      destruct (u_is_active u) eqn:Ha; cbn [negb]; [discriminate|].
      intros [= <-]. right. repeat split.
      apply find_user_sound in Hu as [Hin Hid].
      exists token, u. rewrite Hid. now repeat split. }
    assert (Hkey : forall key, try_api_key sec store key = Some (Abort e) ->
                               status_code e = 401).
    { intros key. unfold try_api_key.
      destruct (find _ (api_keys store)) as [k|]; [|discriminate].
      destruct (verify_api_key sec key (k_key_hash k)); [|discriminate].
      destruct (k_is_active k); cbn [negb].
      - destruct (find_user store (k_user_id k)); discriminate.
      - now intros [= <-]. }
    destruct x_api_key as [key|]; [|exact Htoken].
    destruct (truthy key); [|exact Htoken].
    destruct (try_api_key sec store key) as [answer|] eqn:Hk; [|exact Htoken].
    intros ->. left. now apply (Hkey key).
Qed.

Lemma authentication_refusals_witness :
  status_code (mkHTTPException 403 "Inactive user") = 401
  \/ (status_code (mkHTTPException 403 "Inactive user") = 403 /\
      detail (mkHTTPException 403 "Inactive user") = "Inactive user" /\
      exists token u,
        Some "token-of-u2" = Some token /\ In u (users sample_store) /\
        decode_token sample_security token = Payload (Some (u_id u)) /\
        u_is_active u = false).
Proof.
  exact (proj2 (authentication_refusals sample_security sample_store
                  (Some "token-of-u2") None) _ eq_refl).
Defined.

(** X22. The API key is tried before the bearer token and decides alone
    when it verifies against the first stored key that has its first ten
    characters: an inactive key is a 401 "API key is inactive" even beside
    a good token, and an active key lets its user in without looking at the
    token or at whether the user is active.  In every other case (no such
    key, a key that does not verify, a key whose user is gone) the answer is
    the one the token alone would get. *)
Theorem api_key_comes_first (sec : Security) (store : AuthStore)
  (credentials : option string) (key : string) :
  truthy key = true ->
  let stored := find (fun k => String.eqb (k_key_prefix k) (take 10 key))
                     (api_keys store) in
  (forall k, stored = Some k ->
     verify_api_key sec key (k_key_hash k) = true ->
     (k_is_active k = false ->
        get_current_user sec store credentials (Some key)
        = Abort (mkHTTPException 401 "API key is inactive")) /\
     (k_is_active k = true ->
        forall u, find_user store (k_user_id k) = Some u ->
          get_current_user sec store credentials (Some key) = Respond u)) /\
  ((stored = None
    \/ (exists k, stored = Some k /\
                  (verify_api_key sec key (k_key_hash k) = false
                   \/ (k_is_active k = true /\
                       find_user store (k_user_id k) = None)))) ->
   get_current_user sec store credentials (Some key)
   = get_current_user sec store credentials None).
Proof.
  intros Hkey stored. unfold get_current_user. rewrite Hkey.
  unfold try_api_key. fold stored. split.
  - intros k -> Hv. rewrite Hv. split.
    + now intros ->.
    + intros -> u ->. reflexivity.
  - intros [-> | (k & -> & [Hv | (Ha & Hu)])]; [reflexivity | |].
    + now rewrite Hv.
    + rewrite Ha, Hu. cbn [negb]. destruct (verify_api_key _ _ _); reflexivity.
Qed.

Lemma api_key_comes_first_witness :
  get_current_user sample_security sample_store (Some "token-of-u1")
                   (Some "ttd_key2xx-secret")
  = Respond (mkUser "u2" false false)
  /\ get_current_user sample_security sample_store (Some "token-of-u1")
                      (Some "ttd_key1xx-secret")
     = Abort (mkHTTPException 401 "API key is inactive").
Proof.
  destruct (api_key_comes_first sample_security sample_store
              (Some "token-of-u1") "ttd_key2xx-secret" eq_refl) as (H2 & _).
  destruct (api_key_comes_first sample_security sample_store
              (Some "token-of-u1") "ttd_key1xx-secret" eq_refl) as (H1 & _).
  split.
  - apply (proj2 (H2 _ eq_refl eq_refl) eq_refl). reflexivity.
  - apply (proj1 (H1 _ eq_refl eq_refl) eq_refl).
Defined.

End Authentication.

(* ================================================================== *)
(** ** From one question to the next *)
(* ================================================================== *)

Section NextQuestion.

Import TextToSQLChain QueryService.

Lemma skipn_app_short {A} (k : nat) (l tail : list A) :
  (k <= List.length l)%nat ->
  skipn k (l ++ tail)%list = (skipn k l ++ tail)%list.
Proof.
  intros H. rewrite skipn_app.
  replace (k - List.length l)%nat with 0%nat by lia. reflexivity.
Qed.

Lemma str_in_at_end (x pre : string) : str_in x (pre ++ x) = true.
Proof. apply str_in_iff. exists pre, "". now rewrite str_app_nil_r. Qed.

(** X23. What a question writes, the next question reads: after an
    invocation that succeeded for a request with a conversation id, the
    conversation excerpt built from the new store ends with the user turn
    and the assistant turn of that question, the question and the fenced SQL
    each cut at 200 characters. *)
Theorem next_excerpt_ends_with_last_turns (env : Env) (rq : Request)
  (w : World) (r : QueryResponse) (cid : string) :
  fresh_session w ->
  fst (process_question env rq w) = Return r ->
  error r = None ->
  conversation_id rq = Some cid -> truthy cid = true ->
  exists generated before,
    sql r = Some generated /\
    _load_conversation_history (chain_of rq)
      (db (snd (process_question env rq w)))
    = before
      ++ "USER: " ++ take 200 (question rq) ++ nl
      ++ "ASSISTANT: "
      ++ take 200 ("Generated SQL:" ++ nl ++ "```sql" ++ nl ++ generated
                                    ++ nl ++ "```")
      ++ nl.
Proof.
  intros Hfresh Hr Herr Hcid Ht.
  pose proof (process_question_fresh env rq w Hfresh) as H. cbv zeta in H.
  destruct (failure_of (progress env rq w)) as [e0|],
           (next_commit_fault w) as [e'|].
  - destruct H as (H1 & _). congruence.
  - destruct H as (H1 & _). rewrite H1 in Hr. apply Return_inj in Hr.
    subst r. discriminate Herr.
  - destruct H as (H1 & _). congruence.
  - destruct H as (g & x & _ & H1 & H2).
    rewrite H1 in Hr. apply Return_inj in Hr. subst r.
    exists (sr_sql g).
    assert (Hsup : supplied_conversation rq = Some cid).
    { unfold supplied_conversation. now rewrite Hcid, Ht. }
    rewrite Hsup in H2.
    set (d' := db (snd (process_question env rq w))) in *.
    assert (Hturns : turns_in cid d'
                     = (turns_in cid (db w)
                        ++ turns_of cid (question rq) (sr_sql g)
                                    (sr_tokens_used g))%list).
    { unfold turns_in. rewrite H2. cbn [messages flush new_messages].
      rewrite filter_app. f_equal. cbn. now rewrite String.eqb_refl. }
    unfold _load_conversation_history.
    change (TextToSQLChain.conversation_id (chain_of rq))
      with (conversation_id rq).
    rewrite Hcid, Ht. cbn [negb]. rewrite recent_messages_window.
    rewrite Hturns. set (old := turns_in cid (db w)).
    rewrite skipn_app_short by (rewrite length_app; cbn; lia).
    set (kept := skipn _ old).
    destruct (kept ++ turns_of cid (question rq) (sr_sql g) (sr_tokens_used g))%list
      as [|m0 rest] eqn:Es.
    { destruct kept; discriminate Es. }
    rewrite <- Es. rewrite history_fold, map_app, concat_empty_sep_app.
    eexists. split; [reflexivity|].
    rewrite <- str_app_assoc. f_equal.
    unfold turns_of. cbn [map]. rewrite !concat_empty_sep_cons.
    cbn [String.concat]. unfold history_line. cbn [m_role m_content].
    rewrite str_app_nil_r.
    change (upper "user") with "USER".
    change (upper "assistant") with "ASSISTANT".
    now rewrite !str_app_assoc.
Qed.

Lemma next_excerpt_ends_with_last_turns_witness :
  exists generated before,
    Some Sample.generated = Some generated /\
    _load_conversation_history (chain_of Sample.request)
      (db (snd (process_question Sample.env Sample.request Sample.world)))
    = before
      ++ "USER: " ++ take 200 "How many orders last month?" ++ nl
      ++ "ASSISTANT: "
      ++ take 200 ("Generated SQL:" ++ nl ++ "```sql" ++ nl ++ generated
                                    ++ nl ++ "```")
      ++ nl.
Proof.
  exact (next_excerpt_ends_with_last_turns Sample.env Sample.request
           Sample.world _ "c1" eq_refl eq_refl eq_refl eq_refl eq_refl).
Defined.

End NextQuestion.
